(** * rag_indexing_tool: chunking, indexing, search and cache layer

    A shallow embedding of the Python sources

      - [src/core/text_splitter.py]       (module [Splitter])
      - [src/utils/cache.py]              (module [LRUCache])
      - [src/database/chroma_manager.py]  (module [Chroma])
      - [src/services/indexing_service.py] (module [Indexing])
      - [src/services/search_service.py]  (module [Search])
      - [src/core/document_processor.py]  (module [Directory])
      - [src/api/routes.py]               (module [Routes])

    followed by the properties of the specification that were checked on it.

    Conventions.  A Python [str] that the code inspects character by
    character (the text being split) is a list of Unicode code points
    ([list N]); identifiers, paths and dictionary keys are [string].
    Python integers are [Z].  A dictionary is a [gmap string _].  A list
    that the code appends to is a [list] that grows at its right end.
    Code that can raise returns a [result]; code that also changes the
    vector store threads the store explicitly. *)

From Stdlib Require Import ZArith NArith Lia Ascii String.
From stdpp Require Import base option list sorting gmap strings pretty.

Local Open Scope Z_scope.

(* ===================================================================== *)
(** * Part I: the embedding *)
(* ===================================================================== *)

(** ** Python values and exceptions *)

(** The values that occur in metadata dictionaries. *)
#[warnings="-register-all"] Inductive pyval : Type :=
  | PNone
  | PBool (b : bool)
  | PInt (z : Z)
  | PStr (s : string)
  | PDict (d : list (string * pyval)).

(** The exception classes the code raises or lets through.  [BackendError]
    stands for any exception of an external collaborator that is not a
    [ValueError]. *)
Inductive exn : Type :=
  | ValueError (msg : string)
  | FileNotFoundError (msg : string)
  | IndexError
  | KeyError (key : string)
  | BackendError (msg : string).

Inductive result (A : Type) : Type :=
  | Ok (a : A)
  | Raise (e : exn).
Arguments Ok {A} a.
Arguments Raise {A} e.

Definition is_ValueError (e : exn) : bool :=
  match e with ValueError _ => true | _ => false end.

Definition raises {A} (r : result A) : Prop :=
  match r with Raise _ => True | Ok _ => False end.


(** ** Python strings as code point sequences *)

Module Py.

(** [str.isspace] of one character, which is also what [\s] matches in a
    [str] pattern of [re] and what [str.strip()] removes. *)
Definition isspace (c : N) : bool :=
  ((9 <=? c) && (c <=? 13) || (28 <=? c) && (c <=? 32)
   || (c =? 133) || (c =? 160) || (c =? 5760)
   || (8192 <=? c) && (c <=? 8202)
   || (c =? 8232) || (c =? 8233) || (c =? 8239) || (c =? 8287)
   || (c =? 12288))%N.

Definition is_newline (c : N) : bool := (c =? 10)%N.
Definition is_dot (c : N) : bool := (c =? 46)%N.
(** The character class [[.!?]]. *)
Definition is_terminal (c : N) : bool :=
  ((c =? 46) || (c =? 33) || (c =? 63))%N.

Fixpoint lstrip (s : list N) : list N :=
  match s with
  | c :: r => if isspace c then lstrip r else s
  | [] => []
  end.

Definition rstrip (s : list N) : list N := rev (lstrip (rev s)).

(** [s.strip()] *)
Definition strip (s : list N) : list N := rstrip (lstrip s).

(** [len(s)] *)
Definition len {A} (s : list A) : Z := Z.of_nat (length s).

(** How a slice bound [i] is brought into [0..n]: a negative bound counts
    from the end. *)
Definition clamp_index (n i : Z) : Z :=
  if i <? 0 then Z.max 0 (i + n) else Z.min i n.

(** [s[lo:hi]]; never raises. *)
Definition slice {A} (s : list A) (lo hi : Z) : list A :=
  let a := clamp_index (len s) lo in
  let b := clamp_index (len s) hi in
  take (Z.to_nat (b - a)) (drop (Z.to_nat a) s).

(** The code points of an ASCII literal, to write sample texts. *)
Fixpoint codepoints (s : string) : list N :=
  match s with
  | EmptyString => []
  | String a r => N_of_ascii a :: codepoints r
  end.

(** [str(i)] for an integer. *)
Definition str_of_int (i : Z) : string := pretty i.

End Py.

(** ** The sentence boundary pattern of the splitter *)

Module Regex.
Import Py.

(** Length of the longest prefix of [s] whose characters satisfy [p]:
    what a greedy [p+] or [p*] consumes. *)
Fixpoint span_len (p : N -> bool) (s : list N) : nat :=
  match s with
  | c :: r => if p c then S (span_len p r) else O
  | [] => O
  end.

(** [re.compile(r'([.!?]\s+|\.\n+|\n\n+)').match] at the head of [s]: the
    length of the match.  The alternatives are tried in order and each
    repetition is greedy. *)
Definition match_here (s : list N) : option nat :=
  match s with
  | c :: r =>
      if is_terminal c && negb (Nat.eqb (span_len isspace r) 0)
      then Some (S (span_len isspace r))
      else if is_dot c && negb (Nat.eqb (span_len is_newline r) 0)
      then Some (S (span_len is_newline r))
      else if is_newline c && negb (Nat.eqb (span_len is_newline r) 0)
      then Some (S (span_len is_newline r))
      else None
  | [] => None
  end.

(** [finditer]: the non-overlapping matches from left to right, each as
    [(start, end)].  [pos] is the offset of [s] in the searched string and
    [skip] the number of characters still covered by the last match. *)
Fixpoint finditer_from (pos skip : nat) (s : list N) : list (nat * nat) :=
  match s with
  | [] => []
  | _ :: r =>
      match skip with
      | S k => finditer_from (S pos) k r
      | O =>
          match match_here s with
          | Some n => (pos, (pos + n)%nat) :: finditer_from (S pos) (n - 1) r
          | None => finditer_from (S pos) 0 r
          end
      end
  end.

Definition finditer (s : list N) : list (nat * nat) := finditer_from 0 0 s.

End Regex.

(** ** [src/core/text_splitter.py] *)

Module Splitter.
Import Py Regex.

(** The attributes of a [TextSplitter] object. *)
Record TextSplitter : Type := {
  chunk_size : Z;
  chunk_overlap : Z;
  min_chunk_size : Z
}.

(** The dictionary that [split_text] builds for a chunk; [metadata] is
    absent when the key is not set. *)
Record Chunk : Type := {
  text : list N;
  chunk_index : Z;
  start_char : Z;
  end_char : Z;
  char_count : Z;
  metadata : option (gmap string pyval)
}.

(** Truth value of the [metadata] argument ([None] and the empty
    dictionary are false). *)
Definition truthy (metadata : option (gmap string pyval)) : bool :=
  match metadata with
  | Some m => bool_decide (m ≠ ∅)
  | None => false
  end.

(** The local variables of the [while] loop: [current_pos], [chunks] and
    the counter [chunk_index], here [next_index] (the index the next chunk
    gets) to keep it apart from the field of a chunk. *)
Record loop_state : Type := {
  current_pos : Z;
  next_index : Z;
  chunks : list Chunk
}.

(** [int(x * 0.2)]: the product truncated towards zero.  In double
    arithmetic the product of an integer [x] below 10^15 in absolute value
    with the double nearest to 0.2 truncates to the integer quotient of [x]
    by 5.  The splitter below takes this function as a parameter, so no
    property proved of it depends on how the product is rounded. *)
Definition fifth (x : Z) : Z := Z.quot x 5.

Section SplitText.
(** [tail cs] is [int(cs * 0.2)]. *)
Variable tail : Z -> Z.
Variable self : TextSplitter.

(** The end of the window that starts at [pos]: the hard cutoff, moved
    back to the last sentence boundary found in the tail of the window
    unless the window reaches the end of the text. *)
Definition window_end (txt : list N) (pos : Z) : Z :=
  let end_pos := Z.min (pos + chunk_size self) (len txt) in
  if end_pos <? len txt then
    let search_start := Z.max pos (end_pos - tail (chunk_size self)) in
    let text_slice := slice txt search_start end_pos in
    match last (finditer text_slice) with
    | Some last_match => search_start + Z.of_nat (snd last_match)
    | None => end_pos
    end
  else end_pos.

(** The chunk dictionary of the multi-chunk path. *)
Definition make_chunk (md : option (gmap string pyval))
    (chunk_text : list N) (index pos end_pos : Z) : Chunk :=
  {| text := chunk_text;
     chunk_index := index;
     start_char := pos;
     end_char := end_pos;
     char_count := len chunk_text;
     metadata :=
       if truthy md
       then (fun m => <["chunk_index" := PInt index]> m) <$> md
       else None |}.

(** [max(current_pos + 1, end_pos - chunk_overlap)] followed by the
    guard against passing [end_pos]. *)
Definition advance (pos end_pos : Z) : Z :=
  let next := Z.max (pos + 1) (end_pos - chunk_overlap self) in
  if end_pos <=? next then end_pos else next.

(** One iteration of the [while] loop. *)
Definition loop_body (txt : list N) (md : option (gmap string pyval))
    (st : loop_state) : loop_state :=
  let pos := current_pos st in
  let end_pos := window_end txt pos in
  let chunk_text := strip (slice txt pos end_pos) in
  let emit :=
    (min_chunk_size self <=? len chunk_text) || (next_index st =? 0) in
  {| current_pos := advance pos end_pos;
     next_index := if emit then next_index st + 1 else next_index st;
     chunks :=
       if emit
       then chunks st ++ [make_chunk md chunk_text (next_index st) pos end_pos]
       else chunks st |}.

(** The [while current_pos < len(text)] loop; [None] when [fuel]
    iterations were not enough to leave it. *)
Fixpoint split_loop (fuel : nat) (txt : list N)
    (md : option (gmap string pyval)) (st : loop_state)
    : option (list Chunk) :=
  if current_pos st <? len txt then
    match fuel with
    | O => None
    | S fuel' => split_loop fuel' txt md (loop_body txt md st)
    end
  else Some (chunks st).

(** The chunk of the single-chunk path. *)
Definition whole_chunk (md : option (gmap string pyval))
    (txt : list N) : Chunk :=
  {| text := txt;
     chunk_index := 0;
     start_char := 0;
     end_char := len txt;
     char_count := len txt;
     metadata := if truthy md then md else None |}.

(** [TextSplitter.split_text(text, metadata)]. *)
Definition split_text (fuel : nat) (txt : list N)
    (md : option (gmap string pyval)) : option (list Chunk) :=
  if bool_decide (txt = []) || bool_decide (strip txt = []) then Some []
  else
    let txt := strip txt in
    if len txt <=? chunk_size self then Some [whole_chunk md txt]
    else
      split_loop fuel txt md
        {| current_pos := 0; next_index := 0; chunks := [] |}.

End SplitText.

End Splitter.

(** The dictionary that [DocumentProcessor.process_document] returns for a
    converted file.  [split_document] checks that [full_text] is there, so
    that key is optional here; [tables] and [images] are lists of
    dictionaries of which only the length is used. *)
Module Document.

Record Document : Type := {
  file_path : string;
  file_name : string;
  file_type : string;
  full_text : option (list N);
  tables : list pyval;
  images : list pyval;
  doc_metadata : list (string * pyval)
}.

End Document.

Module SplitDocument.
Import Py Splitter.

(** The metadata that [split_document] prepares for the chunks. *)
Definition chunk_metadata (document : Document.Document) : gmap string pyval :=
  let m0 : gmap string pyval :=
    {[ "file_path" := PStr (Document.file_path document);
       "file_name" := PStr (Document.file_name document);
       "file_type" := PStr (Document.file_type document);
       "document_metadata" := PDict (Document.doc_metadata document) ]} in
  let m1 :=
    match Document.tables document with
    | [] => m0
    | _ :: _ =>
        <["tables_count" := PInt (len (Document.tables document))]>
          (<["has_tables" := PBool true]> m0)
    end in
  match Document.images document with
  | [] => m1
  | _ :: _ =>
      <["images_count" := PInt (len (Document.images document))]>
        (<["has_images" := PBool true]> m1)
  end.

(** [TextSplitter.split_document(document)] *)
Definition split_document (tail : Z -> Z) (self : TextSplitter) (fuel : nat)
    (document : Document.Document) : option (list Chunk) :=
  match Document.full_text document with
  | None => Some []
  | Some txt => split_text tail self fuel txt (Some (chunk_metadata document))
  end.

End SplitDocument.

(** ** [src/utils/cache.py] *)

Module LRUCache.

(** [list.remove(x)]: the first occurrence goes. *)
Fixpoint list_remove (x : string) (l : list string) : list string :=
  match l with
  | [] => []
  | y :: r => if decide (y = x) then r else y :: list_remove x r
  end.

Section Cache.
(** [Args] are the call arguments a key is made of and [V] the cached
    values.  [_make_key] (an MD5 digest of the JSON form of the arguments)
    is a parameter: all that matters is that it is a function. *)
Variables Args V : Type.
Variable _make_key : Args -> string.

Record LRUCache : Type := {
  maxsize : Z;
  cache : gmap string V;
  access_order : list string
}.

(** [LRUCache(maxsize)] *)
Definition init (maxsize : Z) : LRUCache :=
  {| maxsize := maxsize; cache := ∅; access_order := [] |}.

(** The three statements that move [key] to the end of [access_order]. *)
Definition bump (key : string) (order : list string) : list string :=
  (if bool_decide (key ∈ order) then list_remove key order else order)
  ++ [key].

(** [get] on the arguments [args]: the value, or [None] on a miss, and
    the cache after the call. *)
Definition get (self : LRUCache) (args : Args) : option V * LRUCache :=
  let key := _make_key args in
  match cache self !! key with
  | Some v =>
      (Some v,
       {| maxsize := maxsize self;
          cache := cache self;
          access_order := bump key (access_order self) |})
  | None => (None, self)
  end.

(** [set] of [value] on the arguments [args].  [access_order.pop(0)]
    raises [IndexError] on an empty list and [del self.cache[oldest_key]]
    raises [KeyError] on a missing key; the cache is returned as the raise
    leaves it. *)
Definition set (self : LRUCache) (value : V) (args : Args)
    : result unit * LRUCache :=
  let key := _make_key args in
  let insert_key (c : LRUCache) :=
    {| maxsize := maxsize c;
       cache := <[key := value]> (cache c);
       access_order := bump key (access_order c) |} in
  if (maxsize self <=? Z.of_nat (size (cache self)))
     && bool_decide (cache self !! key = None)
  then
    match access_order self with
    | [] => (Raise IndexError, self)
    | oldest_key :: rest =>
        let popped :=
          {| maxsize := maxsize self; cache := cache self;
             access_order := rest |} in
        match cache self !! oldest_key with
        | None => (Raise (KeyError oldest_key), popped)
        | Some _ =>
            (Ok tt,
             insert_key
               {| maxsize := maxsize self;
                  cache := delete oldest_key (cache self);
                  access_order := rest |})
        end
    end
  else (Ok tt, insert_key self).

(** [clear()] *)
Definition clear (self : LRUCache) : LRUCache :=
  {| maxsize := maxsize self; cache := ∅; access_order := [] |}.

(** [size()] *)
Definition size (self : LRUCache) : Z := Z.of_nat (base.size (cache self)).

(** Calls on a cache object, to speak about its history. *)
Inductive call : Type :=
  | CallGet (args : Args)
  | CallSet (value : V) (args : Args)
  | CallClear.

Definition step (c : call) (self : LRUCache) : LRUCache :=
  match c with
  | CallGet args => snd (get self args)
  | CallSet value args => snd (set self value args)
  | CallClear => clear self
  end.

(** The cache after a history of calls, the latest call first. *)
Fixpoint after (m : Z) (history : list call) : LRUCache :=
  match history with
  | [] => init m
  | c :: earlier => step c (after m earlier)
  end.

(** The key a call uses. *)
Definition key_of (c : call) : option string :=
  match c with
  | CallGet args => Some (_make_key args)
  | CallSet _ args => Some (_make_key args)
  | CallClear => None
  end.

(** How many calls ago [key] was last used (the length of the history if
    it never was): the larger, the less recently used. *)
Fixpoint idle (history : list call) (key : string) : nat :=
  match history with
  | [] => O
  | c :: earlier =>
      if bool_decide (key_of c = Some key) then O else S (idle earlier key)
  end.

End Cache.

End LRUCache.

(** ** Code that raises and changes the vector store

    A computation takes the store and returns either a value or the
    exception it raises, together with the store it leaves behind. *)

Definition M (S A : Type) : Type := S -> result A * S.

Definition ret {S A} (a : A) : M S A := fun s => (Ok a, s).

Definition raise {S A} (e : exn) : M S A := fun s => (Raise e, s).

Definition bind {S A B} (m : M S A) (k : A -> M S B) : M S B :=
  fun s =>
    match m s with
    | (Ok a, s') => k a s'
    | (Raise e, s') => (Raise e, s')
    end.

(** [try: m  except Exception as e: handler e] *)
Definition try_except {S A} (m : M S A) (handler : exn -> M S A) : M S A :=
  fun s =>
    match m s with
    | (Ok a, s') => (Ok a, s')
    | (Raise e, s') => handler e s'
    end.

(** A call that only reads the store. *)
Definition reading {S A} (f : S -> result A) : M S A :=
  fun s => (f s, s).

(** A call that replaces the store when it succeeds and leaves it alone
    when it raises. *)
Definition writing {S} (f : S -> result S) : M S unit :=
  fun s =>
    match f s with
    | Ok s' => (Ok tt, s')
    | Raise e => (Raise e, s)
    end.

(** A computation that does not touch the store. *)
Definition pure_result {S A} (r : result A) : M S A := fun s => (r, s).

Declare Scope py_scope.
Delimit Scope py_scope with py.
Notation "'let*' x := m 'in' k" := (bind m (fun x => k))
  (at level 10, x name, m at level 100, k at level 200) : py_scope.
Notation "m ;;; k" := (bind m (fun _ => k))
  (at level 100, k at level 200, right associativity) : py_scope.

(** ** [src/database/chroma_manager.py] *)

Module Chroma.
Import Py.

(** What a [query] call of the collection is given to search for. *)
Inductive query_input (Emb : Type) : Type :=
  | QueryTexts (query_texts : list string)
  | QueryEmbeddings (query_embeddings : list Emb).
Arguments QueryTexts {Emb} query_texts.
Arguments QueryEmbeddings {Emb} query_embeddings.

(** The dictionary a [query] call returns: one inner list per query. *)
Record QueryResult (Num : Type) : Type := {
  ids : option (list (list string));
  documents : list (list (list N));
  metadatas : list (list (gmap string pyval));
  distances : list (list Num)
}.
Arguments ids {Num} _.
Arguments documents {Num} _.
Arguments metadatas {Num} _.
Arguments distances {Num} _.

(** The arguments of [collection.add]. *)
Record Batch (Emb : Type) : Type := {
  b_documents : list (list N);
  b_metadatas : list (gmap string pyval);
  b_embeddings : option (list Emb);
  b_ids : list string
}.
Arguments b_documents {Emb} _.
Arguments b_metadatas {Emb} _.
Arguments b_embeddings {Emb} _.
Arguments b_ids {Emb} _.

(** The ChromaDB collection object, an external collaborator: the four
    methods the code calls on it.  Each may raise. *)
Record Collection (Store Emb Num : Type) : Type := {
  coll_count : Store -> result Z;
  coll_query :
    query_input Emb -> Z -> option (gmap string pyval) -> list string ->
    Store -> result (QueryResult Num);
  coll_delete :
    option (list string) -> option (gmap string pyval) ->
    Store -> result Store;
  coll_add : Batch Emb -> Store -> result Store
}.
Arguments coll_count {Store Emb Num} _.
Arguments coll_query {Store Emb Num} _.
Arguments coll_delete {Store Emb Num} _.
Arguments coll_add {Store Emb Num} _.

Section Manager.
Context {Store Emb Num : Type}.
Variable collection : Collection Store Emb Num.
(** [self.embedding_function], when one was given. *)
Variable embedding_function : option (list N -> Emb).
(** [str(uuid.uuid4())] for each of [n] documents. *)
Variable fresh_ids : nat -> list string.

Local Open Scope py_scope.

(** [ChromaManager.add_documents] *)
Definition add_documents (documents : list (list N))
    (metadatas : list (gmap string pyval)) (embeddings : option (list Emb))
    (ids : option (list string)) : M Store (list string) :=
  match documents with
  | [] => ret []
  | _ :: _ =>
      let ids := default (fresh_ids (length documents)) ids in
      if negb (len documents =? len metadatas)
         || negb (len documents =? len ids)
      then raise (ValueError "List sizes must match")
      else
        let embeddings :=
          match embeddings with
          | Some e => Some e
          | None => (fun f => map f documents) <$> embedding_function
          end in
        writing (coll_add collection
                   {| b_documents := documents; b_metadatas := metadatas;
                      b_embeddings := embeddings; b_ids := ids |}) ;;;
        ret ids
  end.

(** [ChromaManager.search] *)
Definition search (query_texts : list string) (n_results : Z)
    (query_embeddings : option (list Emb))
    (where_ : option (gmap string pyval)) (include : option (list string))
    : M Store (QueryResult Num) :=
  let include := default ["metadatas"; "documents"; "distances"] include in
  match query_embeddings with
  | Some e =>
      reading (coll_query collection (QueryEmbeddings e) n_results where_ include)
  | None =>
      reading (coll_query collection (QueryTexts query_texts) n_results where_ include)
  end.

(** [ChromaManager.delete] *)
Definition delete (ids : option (list string))
    (where_ : option (gmap string pyval)) : M Store unit :=
  writing (coll_delete collection ids where_).

(** [ChromaManager.count]: a failure of the collection is logged and
    answered with 0. *)
Definition count : M Store Z :=
  try_except (reading (coll_count collection)) (fun _ => ret 0).

End Manager.

End Chroma.

(** ** [src/services/indexing_service.py] *)

Module Indexing.
Import Py Splitter.

(** The dictionary [index_document] returns. *)
Record IndexResult : Type := {
  success : bool;
  document_id : string;
  chunks_count : Z;
  file_path : string;
  file_name : string;
  message : string
}.

(** The dictionary [delete_document] returns. *)
Record DeleteResult : Type := {
  d_success : bool;
  deleted_count : Z;
  d_message : string
}.

(** Truth value of an optional string argument: [None] and the empty string
    are false. *)
Definition given (s : option string) : bool :=
  match s with
  | Some v => negb (String.eqb v "")
  | None => false
  end.

(** [not results.get('ids') or len(results['ids']) == 0
     or len(results['ids'][0]) == 0] *)
Definition nothing_found {Num} (results : Chroma.QueryResult Num) : bool :=
  match Chroma.ids results with
  | None => true
  | Some [] => true
  | Some (first :: _) => Nat.eqb (length first) 0
  end.

Section Service.
Context {Store Emb Num : Type}.
Variable collection : Chroma.Collection Store Emb Num.
Variable embedding_function : option (list N -> Emb).
Variable fresh_ids : nat -> list string.
(** [os.path.exists] *)
Variable path_exists : string -> bool.
(** [DocumentProcessor.process_document]: the document, or [None]. *)
Variable process_document : string -> option Document.Document.
(** [EmbeddingModel.encode] on the chunk texts: one vector per text. *)
Variable encode : list (list N) -> result (list Emb).
(** [int(chunk_size * 0.2)] and the splitter built from the settings. *)
Variable tail : Z -> Z.
Variable text_splitter : TextSplitter.

Local Open Scope py_scope.

(** [EmbeddingModel.encode_chunks]: each chunk with [embeddings[i]]. *)
Fixpoint attach_embeddings (i : nat) (chunks : list Chunk)
    (embeddings : list Emb) : result (list (Chunk * Emb)) :=
  match chunks with
  | [] => Ok []
  | chunk :: rest =>
      match embeddings !! i with
      | None => Raise IndexError
      | Some e =>
          match attach_embeddings (S i) rest embeddings with
          | Ok l => Ok ((chunk, e) :: l)
          | Raise x => Raise x
          end
      end
  end.

Definition encode_chunks (chunks : list Chunk)
    : result (list (Chunk * Emb)) :=
  match chunks with
  | [] => Ok []
  | _ :: _ =>
      match encode (map text chunks) with
      | Ok embeddings => attach_embeddings 0 chunks embeddings
      | Raise e => Raise e
      end
  end.

(** Copies [key] from the chunk's metadata when it is there. *)
Definition copy_key (key : string) (doc_meta : gmap string pyval)
    (metadata : gmap string pyval) : gmap string pyval :=
  match doc_meta !! key with
  | Some v => <[key := v]> metadata
  | None => metadata
  end.

(** The metadata dictionary stored with one chunk. *)
Definition record_metadata (document_id : string)
    (document : Document.Document) (chunk : Chunk) : gmap string pyval :=
  let metadata : gmap string pyval :=
    {[ "document_id" := PStr document_id;
       "file_path" := PStr (Document.file_path document);
       "file_name" := PStr (Document.file_name document);
       "file_type" := PStr (Document.file_type document);
       "chunk_index" := PInt (chunk_index chunk);
       "start_char" := PInt (start_char chunk);
       "end_char" := PInt (end_char chunk);
       "char_count" := PInt (char_count chunk) ]} in
  if truthy (Splitter.metadata chunk) then
    let doc_meta := default ∅ (Splitter.metadata chunk) in
    copy_key "images_count" doc_meta
      (copy_key "has_images" doc_meta
         (copy_key "tables_count" doc_meta
            (copy_key "has_tables" doc_meta metadata)))
  else metadata.

(** [f"{document_id}_chunk_{i}"] *)
Definition chunk_id (document_id : string) (i : nat) : string :=
  document_id +:+ "_chunk_" +:+ str_of_int (Z.of_nat i).

(** Step 4 of [index_document]: what is handed to the store. *)
Definition prepare (document_id : string) (document : Document.Document)
    (chunks_with_embeddings : list (Chunk * Emb)) : Chroma.Batch Emb :=
  {| Chroma.b_documents := map (fun ce => text (fst ce)) chunks_with_embeddings;
     Chroma.b_metadatas :=
       map (fun ce => record_metadata document_id document (fst ce))
         chunks_with_embeddings;
     Chroma.b_embeddings := Some (map snd chunks_with_embeddings);
     Chroma.b_ids :=
       imap (fun i _ => chunk_id document_id i) chunks_with_embeddings |}.

(** Steps 2 to 6 of [index_document], once the document was converted and
    split. *)
Definition index_chunks (document_id : string) (file_path : string)
    (overwrite : bool) (document : Document.Document) (chunks : list Chunk)
    : M Store IndexResult :=
  match chunks with
  | [] =>
      raise (ValueError ("Failed to split document into chunks: " +:+ file_path))
  | _ :: _ =>
      let* chunks_with_embeddings := pure_result (encode_chunks chunks) in
      let batch := prepare document_id document chunks_with_embeddings in
      (if overwrite
       then Chroma.delete collection None (Some {[ "file_path" := PStr file_path ]})
       else ret tt) ;;;
      Chroma.add_documents collection embedding_function fresh_ids
        (Chroma.b_documents batch) (Chroma.b_metadatas batch)
        (Chroma.b_embeddings batch) (Some (Chroma.b_ids batch)) ;;;
      ret {| success := true;
             document_id := document_id;
             chunks_count := len chunks;
             file_path := file_path;
             file_name := Document.file_name document;
             message :=
               "Document successfully indexed: "
               +:+ str_of_int (len chunks) +:+ " chunks" |}
  end.

(** [IndexingService.index_document(file_path, overwrite)].  [document_id]
    is the identifier [uuid.uuid4()] mints in this call.  [None] when the
    splitter did not return within [fuel] iterations. *)
Definition index_document (fuel : nat) (document_id : string)
    (file_path : string) (overwrite : bool)
    : Store -> option (result IndexResult * Store) :=
  fun s =>
    if negb (path_exists file_path)
    then Some (Raise (FileNotFoundError ("File not found: " +:+ file_path)), s)
    else
      match process_document file_path with
      | None =>
          Some (Raise (ValueError ("Failed to process document: " +:+ file_path)), s)
      | Some document =>
          match SplitDocument.split_document tail text_splitter fuel document with
          | None => None
          | Some chunks =>
              Some (index_chunks document_id file_path overwrite document chunks s)
          end
      end.

(** The existence check and the deletion for one selector, with the
    fallback on the counts when the check itself fails. *)
Definition delete_where (where_ : gmap string pyval) (not_found : string)
    (count_before : Z) : M Store unit :=
  try_except
    (let* results :=
       reading (Chroma.coll_query collection (Chroma.QueryTexts [""]) 1
                  (Some where_) ["metadatas"]) in
     if nothing_found results then raise (ValueError not_found)
     else Chroma.delete collection None (Some where_))
    (fun e =>
       if is_ValueError e then raise e
       else
         Chroma.delete collection None (Some where_) ;;;
         let* count_check := Chroma.count collection in
         if count_check =? count_before then raise (ValueError not_found)
         else ret tt).

(** [IndexingService.delete_document(document_id, file_path)] *)
Definition delete_document (document_id file_path : option string)
    : M Store DeleteResult :=
  if negb (given document_id) && negb (given file_path)
  then raise (ValueError "Must specify document_id or file_path")
  else
    let* count_before := Chroma.count collection in
    (if given document_id
     then
       let id := default "" document_id in
       delete_where {[ "document_id" := PStr id ]}
         ("Document with ID " +:+ id +:+ " not found in index") count_before
     else
       let path := default "" file_path in
       delete_where {[ "file_path" := PStr path ]}
         ("Document at path " +:+ path +:+ " not found in index") count_before) ;;;
    let* count_after := Chroma.count collection in
    ret {| d_success := true;
           deleted_count := count_before - count_after;
           d_message := "Document deleted from index" |}.

End Service.

End Indexing.

(** ** [src/services/search_service.py] *)

Module Search.
Import Py.

(** [SearchQuery] of [src/database/models.py] *)
Record SearchQuery (Num : Type) : Type := {
  query : string;
  top_k : Z;
  min_score : option Num;
  filter_metadata : option (gmap string pyval)
}.
Arguments query {Num} _.
Arguments top_k {Num} _.
Arguments min_score {Num} _.
Arguments filter_metadata {Num} _.

(** [DocumentMetadata] as [search] fills it.  The pydantic models are
    records here: the validation of field types on construction is not
    modelled. *)
Record DocumentMetadata : Type := {
  m_file_path : pyval;
  m_file_name : pyval;
  m_file_type : pyval;
  m_chunk_index : pyval;
  m_document_id : pyval;
  m_file_size : option pyval;
  m_creation_time : option pyval;
  m_modification_time : option pyval
}.

Record SearchResult (Num : Type) : Type := {
  r_text : list N;
  score : Num;
  r_chunk_index : pyval;
  r_metadata : DocumentMetadata;
  r_document_id : option pyval
}.
Arguments r_text {Num} _.
Arguments score {Num} _.
Arguments r_chunk_index {Num} _.
Arguments r_metadata {Num} _.
Arguments r_document_id {Num} _.

Record SearchResponse (Num : Type) : Type := {
  results : list (SearchResult Num);
  r_query : string;
  total_results : Z;
  search_time_ms : Num
}.
Arguments results {Num} _.
Arguments r_query {Num} _.
Arguments total_results {Num} _.
Arguments search_time_ms {Num} _.

Section Service.
(** Python floats with the operations [search] uses on them: the constants
    [0.0], [1.0], [1000], subtraction, product and [<].  They are
    parameters, so nothing below depends on how floats round. *)
Context {Store Emb Num : Type}.
Variables zero one thousand : Num.
Variables sub mul : Num -> Num -> Num.
Variable ltb : Num -> Num -> bool.
Variable collection : Chroma.Collection Store Emb Num.
(** [EmbeddingModel.encode_single(text, normalize=True)] *)
Variable encode_single : string -> result Emb.

Local Open Scope py_scope.

(** The builtin [max(a, b)]: [b] when [b > a], else [a]. *)
Definition py_max (a b : Num) : Num := if ltb a b then b else a.

(** [score = max(0.0, 1.0 - distance)] *)
Definition score_of (distance : Num) : Num := py_max zero (sub one distance).

(** [query.min_score is not None and score < query.min_score] *)
Definition below (min_score : option Num) (s : Num) : bool :=
  match min_score with
  | Some m => ltb s m
  | None => false
  end.

Definition make_metadata (metadata_dict : gmap string pyval)
    : DocumentMetadata :=
  {| m_file_path := default (PStr "") (metadata_dict !! "file_path");
     m_file_name := default (PStr "") (metadata_dict !! "file_name");
     m_file_type := default (PStr "") (metadata_dict !! "file_type");
     m_chunk_index := default (PInt 0) (metadata_dict !! "chunk_index");
     m_document_id := default (PStr "") (metadata_dict !! "document_id");
     m_file_size := metadata_dict !! "file_size";
     m_creation_time := metadata_dict !! "creation_time";
     m_modification_time := metadata_dict !! "modification_time" |}.

Definition make_result (document : list N) (s : Num)
    (metadata_dict : gmap string pyval) : SearchResult Num :=
  {| r_text := document;
     score := s;
     r_chunk_index := default (PInt 0) (metadata_dict !! "chunk_index");
     r_metadata := make_metadata metadata_dict;
     r_document_id := metadata_dict !! "document_id" |}.

(** The [for i in range(len(ids))] loop over the remaining indices;
    [search_results] is the list built so far.  An index outside a list
    raises [IndexError]. *)
Fixpoint collect (min_score : option Num) (documents : list (list N))
    (metadatas : list (gmap string pyval)) (distances : list Num)
    (indices : list nat) (search_results : list (SearchResult Num))
    : result (list (SearchResult Num)) :=
  match indices with
  | [] => Ok search_results
  | i :: rest =>
      match distances !! i with
      | None => Raise IndexError
      | Some distance =>
          let s := score_of distance in
          if below min_score s
          then collect min_score documents metadatas distances rest search_results
          else
            match metadatas !! i with
            | None => Raise IndexError
            | Some metadata_dict =>
                match documents !! i with
                | None => Raise IndexError
                | Some document =>
                    collect min_score documents metadatas distances rest
                      (search_results ++ [make_result document s metadata_dict])
                end
            end
      end
  end.

(** The "process results" part of [search]. *)
Definition process_results (min_score : option Num)
    (reply : Chroma.QueryResult Num) : result (list (SearchResult Num)) :=
  match Chroma.ids reply with
  | Some (ids :: _) =>
      match Chroma.documents reply, Chroma.metadatas reply,
            Chroma.distances reply with
      | documents :: _, metadatas :: _, distances :: _ =>
          collect min_score documents metadatas distances
            (seq 0 (length ids)) []
      | _, _, _ => Raise IndexError
      end
  | _ => Ok []
  end.

(** [SearchService.search(query)]; [start_time] and [end_time] are the two
    readings of the clock. *)
Definition search (q : SearchQuery Num) (start_time end_time : Num)
    : M Store (SearchResponse Num) :=
  let* query_embedding := pure_result (encode_single (query q)) in
  let where_filter :=
    if Splitter.truthy (filter_metadata q) then filter_metadata q else None in
  let* reply :=
    Chroma.search collection [query q] (top_k q) (Some [query_embedding])
      where_filter (Some ["metadatas"; "documents"; "distances"]) in
  let* search_results := pure_result (process_results (min_score q) reply) in
  ret {| results := search_results;
         r_query := query q;
         total_results := len search_results;
         search_time_ms := mul (sub end_time start_time) thousand |}.

End Service.

End Search.

(** ** A collection held in memory

    A stand-in for the ChromaDB collection, to run the services on concrete
    stores.  It keeps the records in insertion order, answers a query with
    the matching records in that order, and can be told to fail its lookups
    or its counts. *)

Module MemStore.
Import Py.

(** [==] on metadata values. *)
Fixpoint pyval_eqb (a b : pyval) : bool :=
  match a, b with
  | PNone, PNone => true
  | PBool x, PBool y => Bool.eqb x y
  | PInt x, PInt y => (x =? y)
  | PStr x, PStr y => String.eqb x y
  | PDict d, PDict e =>
      (fix all2 (l1 l2 : list (string * pyval)) : bool :=
         match l1, l2 with
         | [], [] => true
         | (k1, v1) :: r1, (k2, v2) :: r2 =>
             String.eqb k1 k2 && pyval_eqb v1 v2 && all2 r1 r2
         | _, _ => false
         end) d e
  | _, _ => false
  end.

(** One stored record. *)
Record Row (Emb Num : Type) : Type := {
  row_id : string;
  row_document : list N;
  row_metadata : gmap string pyval;
  row_embedding : option Emb;
  (** the distance the collection reports for this record *)
  row_distance : Num
}.
Arguments row_id {Emb Num} _.
Arguments row_document {Emb Num} _.
Arguments row_metadata {Emb Num} _.
Arguments row_embedding {Emb Num} _.
Arguments row_distance {Emb Num} _.

(** The records in insertion order, and whether lookups and counts are
    made to fail. *)
Record Store (Emb Num : Type) : Type := {
  rows : list (Row Emb Num);
  lookup_fails : bool;
  count_fails : bool
}.
Arguments rows {Emb Num} _.
Arguments lookup_fails {Emb Num} _.
Arguments count_fails {Emb Num} _.

Section Mem.
Context {Emb Num : Type}.
(** The distance given to a record when it is added. *)
Variable new_distance : Num.

(** Does a record's metadata satisfy an equality filter? *)
Definition satisfies (where_ : option (gmap string pyval))
    (r : Row Emb Num) : bool :=
  match where_ with
  | None => true
  | Some w =>
      forallb
        (fun kv =>
           match row_metadata r !! fst kv with
           | Some v => pyval_eqb v (snd kv)
           | None => false
           end)
        (map_to_list w)
  end.

(** The records a [delete] call removes: those with one of the given
    identifiers, else those the filter selects. *)
Definition selected (ids : option (list string))
    (where_ : option (gmap string pyval)) (r : Row Emb Num) : bool :=
  match ids with
  | Some l => bool_decide (row_id r ∈ l)
  | None => satisfies where_ r
  end.

(** [collection.count()] *)
Definition mem_count (s : Store Emb Num) : result Z :=
  if count_fails s then Raise (BackendError "count failed")
  else Ok (len (rows s)).

(** [collection.query(...)]: the first [n_results] matching records. *)
Definition mem_query (q : Chroma.query_input Emb) (n_results : Z)
    (where_ : option (gmap string pyval)) (include : list string)
    (s : Store Emb Num) : result (Chroma.QueryResult Num) :=
  if lookup_fails s then Raise (BackendError "query failed")
  else
    let hits := take (Z.to_nat n_results) (filter (fun r => satisfies where_ r = true) (rows s)) in
    Ok {| Chroma.ids := Some [map row_id hits];
          Chroma.documents := [map row_document hits];
          Chroma.metadatas := [map row_metadata hits];
          Chroma.distances := [map row_distance hits] |}.

(** [collection.delete(ids, where)] *)
Definition mem_delete (ids : option (list string))
    (where_ : option (gmap string pyval)) (s : Store Emb Num)
    : result (Store Emb Num) :=
  Ok {| rows := filter (fun r => selected ids where_ r = false) (rows s);
        lookup_fails := lookup_fails s;
        count_fails := count_fails s |}.

(** [collection.add(...)]: the records of the batch go behind the others. *)
Definition new_rows (b : Chroma.Batch Emb) : list (Row Emb Num) :=
  imap
    (fun i id =>
       {| row_id := id;
          row_document := default [] (Chroma.b_documents b !! i);
          row_metadata := default ∅ (Chroma.b_metadatas b !! i);
          row_embedding := default [] (Chroma.b_embeddings b) !! i;
          row_distance := new_distance |})
    (Chroma.b_ids b).

Definition mem_add (b : Chroma.Batch Emb) (s : Store Emb Num)
    : result (Store Emb Num) :=
  Ok {| rows := rows s ++ new_rows b;
        lookup_fails := lookup_fails s;
        count_fails := count_fails s |}.

Definition collection : Chroma.Collection (Store Emb Num) Emb Num :=
  {| Chroma.coll_count := mem_count;
     Chroma.coll_query := mem_query;
     Chroma.coll_delete := mem_delete;
     Chroma.coll_add := mem_add |}.

End Mem.

End MemStore.

(** ** Predicates and sample values used in the statements *)

Module Props.
Import Py Splitter.

(** What holds of the chunk at position [i] of the list that [split_text]
    returns for the trimmed text [txt]. *)
Definition chunk_ok (txt : list N) (i : nat) (c : Chunk) : Prop :=
  0 <= start_char c /\ start_char c < end_char c /\ end_char c <= len txt
  /\ text c = strip (slice txt (start_char c) (end_char c))
  /\ char_count c = len (text c)
  /\ chunk_index c = Z.of_nat i.

(** The window that the loop cuts at cursor [p] is not emitted: its trimmed
    text is shorter than [min_chunk_size]. *)
Definition dropped (tail : Z -> Z) (self : TextSplitter) (txt : list N)
    (p : Z) : Prop :=
  len (strip (slice txt p (window_end tail self txt p))) < min_chunk_size self.

(** Two chunks that follow each other: the second starts later, and it
    starts no later than the first ends unless a window in between was
    dropped. *)
Definition linked (tail : Z -> Z) (self : TextSplitter) (txt : list N)
    (c c' : Chunk) : Prop :=
  start_char c < start_char c'
  /\ (start_char c' <= end_char c
      \/ exists p, start_char c < p < start_char c'
                   /\ dropped tail self txt p).

(** The filter [delete_document] selects the records with: [document_id]
    when it is given, else [file_path]. *)
Definition selector (document_id file_path : option string)
    : gmap string pyval :=
  if Indexing.given document_id
  then {[ "document_id" := PStr (default "" document_id) ]}
  else {[ "file_path" := PStr (default "" file_path) ]}.

(** What is assumed of the collection around one deletion with the filter
    [w] in the store [s]: the count answers [live], before and after; the
    deletion succeeds and removes the [matching w s] records the filter
    selects; the one-result lookup either answers as ChromaDB does, with
    one list of identifiers for the one query text, holding the first
    [min(1, matching w s)] of the matching records, or fails with a
    collaborator error that is not a [ValueError]. *)
Definition healthy_at {Store Emb Num : Type}
    (collection : Chroma.Collection Store Emb Num)
    (live : Store -> Z) (matching : gmap string pyval -> Store -> Z)
    (w : gmap string pyval) (s : Store) : Prop :=
  0 <= matching w s
  /\ Chroma.coll_count collection s = Ok (live s)
  /\ (exists s',
        Chroma.coll_delete collection None (Some w) s = Ok s'
        /\ Chroma.coll_count collection s' = Ok (live s')
        /\ live s' = live s - matching w s)
  /\ match Chroma.coll_query collection (Chroma.QueryTexts [""]) 1 (Some w)
            ["metadatas"] s with
     | Ok r =>
         exists first,
           Chroma.ids r = Some [first]
           /\ len first = Z.min 1 (matching w s)
     | Raise e => is_ValueError e = false
     end.

(** The first inner list of a reply field, and the identifiers [search]
    iterates over. *)
Definition first_list {A} (l : list (list A)) : list A := default [] (head l).

Definition reply_ids {Num} (reply : Chroma.QueryResult Num) : list string :=
  match Chroma.ids reply with
  | Some (ids :: _) => ids
  | _ => []
  end.

Section Scores.
Context {Num : Type}.
Variables zero one : Num.
Variable sub : Num -> Num -> Num.
Variable ltb : Num -> Num -> bool.

(** The score the interface promises for a distance, [max(0, 1 - distance)],
    written with the numbers' own [<] and [-] and none of the service's
    code: [1 - distance] where that is above [0], and [0] elsewhere. *)
Definition spec_score (distance : Num) : Num :=
  if ltb zero (sub one distance) then sub one distance else zero.

(** Row [i] has a distance, and either no threshold is given or the
    promised score of that distance is not below the threshold. *)
Definition keeps (min_score : option Num) (distances : list Num) (i : nat)
    : bool :=
  match distances !! i with
  | Some d =>
      match min_score with
      | Some m => negb (ltb (spec_score d) m)
      | None => true
      end
  | None => false
  end.

(** The result [r] is built from row [i]: its text and metadata, and the
    promised score of its distance. *)
Definition from_row (documents : list (list N))
    (metadatas : list (gmap string pyval)) (distances : list Num)
    (i : nat) (r : Search.SearchResult Num) : Prop :=
  exists document metadata_dict distance,
    documents !! i = Some document
    /\ metadatas !! i = Some metadata_dict
    /\ distances !! i = Some distance
    /\ r = Search.make_result document (spec_score distance) metadata_dict
    /\ Search.score r
       = (if ltb zero (sub one distance) then sub one distance else zero).

(** What makes [<] and [1.0 - x] behave like an order on the numbers [ok]
    holds of (of floats, those that are not NaN): [0.0] is one of them and
    [1.0 - x] stays among them; on them [<] is irreflexive and asymmetric,
    [a < b] and [not (c < b)] give [a < c], and [1.0 - x] does not increase
    when [x] does not decrease. *)
Definition ordered_on (ok : Num -> Prop) : Prop :=
  ok zero
  /\ (forall a, ok a -> ok (sub one a))
  /\ (forall a, ok a -> ltb a a = false)
  /\ (forall a b, ok a -> ok b -> ltb a b = true -> ltb b a = false)
  /\ (forall a b c, ok a -> ok b -> ok c ->
        ltb a b = true -> ltb c b = false -> ltb a c = true)
  /\ (forall a b, ok a -> ok b ->
        ltb b a = false -> ltb (sub one a) (sub one b) = false).

(** [a <= b], that is [not (b < a)], and its converse. *)
Definition ascending (a b : Num) : Prop := ltb b a = false.
Definition descending (a b : Num) : Prop := ltb a b = false.

End Scores.

(** [TextSplitter()] with the default arguments. *)
Definition default_splitter : TextSplitter :=
  {| chunk_size := 1000; chunk_overlap := 200; min_chunk_size := 500 |}.

(** A small splitter to run by hand. *)
Definition small_splitter : TextSplitter :=
  {| chunk_size := 10; chunk_overlap := 2; min_chunk_size := 3 |}.

(** Two sentences; the first window ends at the boundary after the dot. *)
Definition two_sentences : list N := codepoints "aaaaaaaa. bbbbbbbbbbb".

(** A thousand letters, a thousand blanks, a thousand letters. *)
Definition text_with_gap : list N :=
  repeat 97%N 1000 ++ repeat 32%N 1000 ++ repeat 98%N 1000.

(** The first chunk of [two_sentences] under [small_splitter]. *)
Definition first_chunk : Chunk :=
  {| text := codepoints "aaaaaaaa.";
     chunk_index := 0;
     start_char := 0;
     end_char := 10;
     char_count := 9;
     metadata := None |}.

(** The second chunk of [two_sentences] under [small_splitter]. *)
Definition second_chunk : Chunk :=
  {| text := codepoints ". bbbbbbbb";
     chunk_index := 1;
     start_char := 8;
     end_char := 18;
     char_count := 10;
     metadata := None |}.

(** A metadata dictionary that has a [chunk_index] of its own. *)
Definition own_index : gmap string pyval := {[ "chunk_index" := PInt 7 ]}.

(** What [split_document] passes for a plain text file. *)
Definition file_metadata : gmap string pyval :=
  {[ "file_path" := PStr "notes.txt"; "file_name" := PStr "notes.txt";
     "file_type" := PStr ".txt"; "document_metadata" := PDict [] ]}.

(** The positions and sizes of a list of chunks. *)
Definition layout (chunks : list Chunk) : list (Z * Z * Z * Z) :=
  map (fun c => (chunk_index c, start_char c, end_char c, char_count c)) chunks.

End Props.

(** ** A sample installation

    One text file, a converter that returns it, an embedding model that
    returns one vector per text, and stores held in memory.  Vectors are
    [unit] and distances are integers here: no property below needs more. *)

Module Samples.
Import Py Splitter Props.

Definition notes : Document.Document :=
  {| Document.file_path := "notes.txt";
     Document.file_name := "notes.txt";
     Document.file_type := ".txt";
     Document.full_text := Some two_sentences;
     Document.tables := [];
     Document.images := [];
     Document.doc_metadata := [("file_size", PInt 21)] |}.

Definition path_exists (path : string) : bool := String.eqb path "notes.txt".

Definition process_document (path : string) : option Document.Document :=
  if String.eqb path "notes.txt" then Some notes else None.

Definition encode (texts : list (list N)) : result (list unit) :=
  Ok (map (fun _ => tt) texts).

Definition fresh_ids (n : nat) : list string :=
  map (fun i => "id-" +:+ pretty i) (seq 0 n).

Definition collection : Chroma.Collection (MemStore.Store unit Z) unit Z :=
  MemStore.collection 0.

Definition empty_store : MemStore.Store unit Z :=
  {| MemStore.rows := [];
     MemStore.lookup_fails := false;
     MemStore.count_fails := false |}.

(** The record of chunk [i] of document [id] at [path]. *)
Definition row (id path : string) (i : Z) : MemStore.Row unit Z :=
  {| MemStore.row_id := id +:+ "_chunk_" +:+ pretty i;
     MemStore.row_document := codepoints "text";
     MemStore.row_metadata :=
       {[ "document_id" := PStr id; "file_path" := PStr path;
          "chunk_index" := PInt i ]};
     MemStore.row_embedding := Some tt;
     MemStore.row_distance := 0 |}.

(** A store with two chunks of document [d1] and one of document [d2]. *)
Definition three_rows : MemStore.Store unit Z :=
  {| MemStore.rows := [row "d1" "a.txt" 0; row "d1" "a.txt" 1; row "d2" "b.txt" 0];
     MemStore.lookup_fails := false;
     MemStore.count_fails := false |}.

(** The same store when its lookups, or its counts, fail. *)
Definition lookup_broken (s : MemStore.Store unit Z) : MemStore.Store unit Z :=
  {| MemStore.rows := MemStore.rows s;
     MemStore.lookup_fails := true;
     MemStore.count_fails := MemStore.count_fails s |}.

Definition count_broken (s : MemStore.Store unit Z) : MemStore.Store unit Z :=
  {| MemStore.rows := MemStore.rows s;
     MemStore.lookup_fails := MemStore.lookup_fails s;
     MemStore.count_fails := true |}.

(** The number of records of a store, and of those a filter selects. *)
Definition live (s : MemStore.Store unit Z) : Z := len (MemStore.rows s).

Definition matching (w : gmap string pyval) (s : MemStore.Store unit Z) : Z :=
  len (filter (fun r => MemStore.satisfies (Some w) r = true) (MemStore.rows s)).

(** A store whose three records are at distances 1, 4 and 9 from any
    query (in tenths: the sample installation counts in integers, with 10
    for [1.0]). *)
Definition far_row (id : string) (d : Z) : MemStore.Row unit Z :=
  {| MemStore.row_id := id;
     MemStore.row_document := codepoints "text";
     MemStore.row_metadata := {[ "document_id" := PStr id ]};
     MemStore.row_embedding := Some tt;
     MemStore.row_distance := d |}.

Definition ranked_rows : MemStore.Store unit Z :=
  {| MemStore.rows := [far_row "near" 1; far_row "mid" 4; far_row "far" 9];
     MemStore.lookup_fails := false;
     MemStore.count_fails := false |}.

Definition encode_single (text : string) : result unit := Ok tt.

Definition search :=
  Search.search 0 10 1000 Z.sub Z.mul Z.ltb collection encode_single.

Definition sample_query : Search.SearchQuery Z :=
  {| Search.query := "words";
     Search.top_k := 10;
     Search.min_score := Some 5;
     Search.filter_metadata := None |}.

(** A store whose third record is at distance 1.5, further than 1.0 from
    any query, and a query without a threshold. *)
Definition distant_rows : MemStore.Store unit Z :=
  {| MemStore.rows := [far_row "near" 1; far_row "mid" 4; far_row "beyond" 15];
     MemStore.lookup_fails := false;
     MemStore.count_fails := false |}.

Definition open_query : Search.SearchQuery Z :=
  {| Search.query := "words";
     Search.top_k := 10;
     Search.min_score := None;
     Search.filter_metadata := None |}.

(** A cache of integers whose keys are the argument strings themselves. *)
Definition string_key (args : string) : string := args.

(** [set(1, "a")], [set(2, "b")], [get("a")], the latest call first. *)
Definition three_calls : list (LRUCache.call string Z) :=
  [LRUCache.CallGet string Z "a"; LRUCache.CallSet string Z 2 "b";
   LRUCache.CallSet string Z 1 "a"].

Definition index_document :=
  Indexing.index_document collection None fresh_ids path_exists
    process_document encode fifth small_splitter.

Definition delete_document :=
  Indexing.delete_document collection.

End Samples.

(** ** More sample values *)

Module MoreSamples.
Import Py Splitter Props.

(** A splitter whose windows have a tail of four characters. *)
Definition wide_splitter : TextSplitter :=
  {| chunk_size := 20; chunk_overlap := 4; min_chunk_size := 5 |}.

(** Sixteen letters, a sentence boundary, eleven letters: the first window
    of [wide_splitter] is cut at the boundary, two characters before its
    hard cutoff. *)
Definition long_sentence : list N :=
  codepoints "aaaaaaaaaaaaaaaa. bbbbbbbbbbb".


End MoreSamples.

(** ** The caching decorators of [src/utils/cache.py] *)

Module Decorators.

Section Wrappers.
(** [V] are the values the decorated function returns and [is_None v]
    tells whether [v] is [None].  The function runs in a world [W] of its
    own (a model, a database) that it may change; the world is threaded to
    tell a call of the function from a cached answer. *)
Variables V W : Type.
Variable is_None : V -> bool.

(** [cached is not None] on what [get] returned: a miss and a cached
    [None] are told apart by nothing. *)
Definition not_None (cached : option V) : option V :=
  match cached with
  | Some v => if is_None v then None else Some v
  | None => None
  end.

Section Embedding.
(** [Text] is the first argument and [Rest] what follows it. *)
Variables Text Rest : Type.
Variable _make_key : Text -> string.
Variable func : Text -> Rest -> W -> result V * W.

(** The [wrapper] that [cached_embedding(func)] returns, on the cache
    that [get_embedding_cache()] gives. *)
Definition cached_embedding (text : Text) (rest : Rest)
    (cache : LRUCache.LRUCache V) (w : W)
    : result V * LRUCache.LRUCache V * W :=
  let (cached, cache) := LRUCache.get Text V _make_key cache text in
  match not_None cached with
  | Some v => (Ok v, cache, w)
  | None =>
      match func text rest w with
      | (Raise e, w) => (Raise e, cache, w)
      | (Ok result, w) =>
          match LRUCache.set Text V _make_key cache result text with
          | (Raise e, cache) => (Raise e, cache, w)
          | (Ok _, cache) => (Ok result, cache, w)
          end
      end
  end.

End Embedding.

Section Query.
(** [A] are the values of the further arguments; the keyword arguments
    are the items of a dictionary, and [sorted] is the builtin on them. *)
Variables Query A : Type.
Variable sorted : list (string * A) -> list (string * A).
Variable _make_key : Query * list A * list (string * A) -> string.
Variable func : Query -> list A -> list (string * A) -> W -> result V * W.

(** The [wrapper] that [cached_query(func)] returns, on the cache that
    [get_query_cache()] gives. *)
Definition cached_query (query : Query) (args : list A)
    (kwargs : list (string * A)) (cache : LRUCache.LRUCache V) (w : W)
    : result V * LRUCache.LRUCache V * W :=
  let cache_key := (query, args, sorted kwargs) in
  let (cached, cache) :=
    LRUCache.get (Query * list A * list (string * A)) V _make_key cache
      cache_key in
  match not_None cached with
  | Some v => (Ok v, cache, w)
  | None =>
      match func query args kwargs w with
      | (Raise e, w) => (Raise e, cache, w)
      | (Ok result, w) =>
          match LRUCache.set (Query * list A * list (string * A)) V _make_key
                  cache result cache_key with
          | (Raise e, cache) => (Raise e, cache, w)
          | (Ok _, cache) => (Ok result, cache, w)
          end
      end
  end.

End Query.

End Wrappers.

End Decorators.


(** ** Sample values for the cache and its decorators *)

Module CacheSamples.

(** A model that counts how often it is run: the vector of a text is its
    length, and the empty text has none. *)
Definition count_calls (text : string) (normalize : bool) (calls : Z)
    : result (option Z) * Z :=
  (Ok (if String.eqb text "" then None
       else Some (Z.of_nat (String.length text))),
   calls + 1).

Definition is_None (v : option Z) : bool :=
  match v with None => true | Some _ => false end.

Definition cached_embedding :=
  Decorators.cached_embedding (option Z) Z is_None string bool
    Samples.string_key count_calls.

(** A search that fails. *)
Definition failing_search (query : string) (args : list Z)
    (kwargs : list (string * Z)) (calls : Z) : result (option Z) * Z :=
  (Raise (BackendError "search failed"), calls + 1).

Definition query_key (k : string * list Z * list (string * Z)) : string :=
  fst (fst k).

Definition cached_query :=
  Decorators.cached_query (option Z) Z is_None string Z (fun kw => kw)
    query_key failing_search.

End CacheSamples.

(** ** [index_directory] and the walk over a directory *)

Module Directory.
Import Py Splitter.

(** [SUPPORTED_EXTENSIONS] of [src/core/document_processor.py] *)
Definition SUPPORTED_EXTENSIONS : list string :=
  [".pdf"; ".docx"; ".doc"; ".pptx"; ".ppt"; ".xlsx"; ".xls"; ".txt"; ".md";
   ".html"; ".htm"; ".epub"; ".ipynb"; ".png"; ".jpg"; ".jpeg"; ".bmp";
   ".tiff"; ".gif"; ".webp"].

(** One element of the list that [index_directory] returns: the
    dictionary of [index_document], or the one built for a file whose
    indexing raised. *)
Inductive Entry : Type :=
  | Indexed (result : Indexing.IndexResult)
  | Failed (file_path : string) (message : string).

(** [r.get('success', False)] and [r['file_path']] *)
Definition entry_success (r : Entry) : bool :=
  match r with
  | Indexed result => Indexing.success result
  | Failed _ _ => false
  end.

Definition entry_file_path (r : Entry) : string :=
  match r with
  | Indexed result => Indexing.file_path result
  | Failed file_path _ => file_path
  end.

Section Service.
Context {Store Emb Num : Type}.
Variable collection : Chroma.Collection Store Emb Num.
Variable embedding_function : option (list N -> Emb).
Variable fresh_ids : nat -> list string.
Variable path_exists : string -> bool.
Variable process_document : string -> option Document.Document.
Variable encode : list (list N) -> result (list Emb).
Variable tail : Z -> Z.
Variable text_splitter : TextSplitter.
(** [self.converter_available] *)
Variable converter_available : bool.
(** [os.walk]: the files below a directory, each with the directory it is
    in, in the order of the walk; [os.path.join]; and
    [os.path.splitext(file)[1].lower()]. *)
Variable walk : string -> list (string * string).
Variable join : string -> string -> string.
Variable file_ext : string -> string.
(** [str(e)] of an exception. *)
Variable str : exn -> string.
(** [str(uuid.uuid4())] in the call of [index_document] for the document
    at position [n] of the list. *)
Variable uuid4 : nat -> string.

(** [DocumentProcessor.process_directory] *)
Definition process_directory (directory_path : string)
    : list Document.Document :=
  if negb converter_available then []
  else
    omap
      (fun entry : string * string =>
         let (root, file) := entry in
         if bool_decide (file_ext file ∈ SUPPORTED_EXTENSIONS)
         then process_document (join root file)
         else None)
      (walk directory_path).

(** The [for doc in processed_docs] loop from document [n] on; [results]
    is the list built so far. *)
Fixpoint index_each (fuel : nat) (overwrite : bool) (n : nat)
    (docs : list Document.Document) (results : list Entry)
    : Store -> option (list Entry * Store) :=
  fun s =>
    match docs with
    | [] => Some (results, s)
    | doc :: rest =>
        match Indexing.index_document collection embedding_function fresh_ids
                path_exists process_document encode tail text_splitter fuel
                (uuid4 n) (Document.file_path doc) overwrite s with
        | None => None
        | Some (Ok result, s') =>
            index_each fuel overwrite (S n) rest (results ++ [Indexed result]) s'
        | Some (Raise e, s') =>
            index_each fuel overwrite (S n) rest
              (results ++ [Failed (Document.file_path doc) (str e)]) s'
        end
    end.

(** [IndexingService.index_directory(directory_path, overwrite)] *)
Definition index_directory (fuel : nat) (directory_path : string)
    (overwrite : bool) : Store -> option (result (list Entry) * Store) :=
  fun s =>
    if negb (path_exists directory_path)
    then Some (Raise (FileNotFoundError
                        ("Directory not found: " +:+ directory_path)), s)
    else
      match process_directory directory_path with
      | [] => Some (Ok [], s)
      | processed_docs =>
          match index_each fuel overwrite 0 processed_docs [] s with
          | None => None
          | Some (results, s') => Some (Ok results, s')
          end
      end.

End Service.

End Directory.


(** ** Sample installations for indexing *)

Module IndexSamples.
Import Py Splitter Props.



(** The store a call has left. *)
Definition store_after {A : Type}
    (out : option (result A * MemStore.Store unit Z)) : MemStore.Store unit Z :=
  match out with
  | Some (_, s) => s
  | None => Samples.empty_store
  end.


(** A model that returns one vector too few. *)
Definition encode_short (texts : list (list N)) : result (list Z) :=
  Ok (map len (drop 1 texts)).

(** A text file that holds nothing but blanks. *)
Definition blank : Document.Document :=
  {| Document.file_path := "blank.txt";
     Document.file_name := "blank.txt";
     Document.file_type := ".txt";
     Document.full_text := Some (codepoints "   ");
     Document.tables := [];
     Document.images := [];
     Document.doc_metadata := [] |}.

(** A converter that knows the notes and the blank file. *)
Definition process_document (path : string) : option Document.Document :=
  if String.eqb path "notes.txt" then Some Samples.notes
  else if String.eqb path "blank.txt" then Some blank else None.

(** A directory with the notes, a file with an extension that is not
    supported, a picture that cannot be converted and the blank file. *)
Definition walk (directory_path : string) : list (string * string) :=
  [(directory_path, "notes.txt"); (directory_path, "notes.bak");
   (directory_path, "scan.png"); (directory_path, "blank.txt")].

Definition join (root file : string) : string :=
  if String.eqb root "." then file else root +:+ "/" +:+ file.

Definition file_ext (file : string) : string :=
  if String.eqb file "notes.txt" || String.eqb file "blank.txt" then ".txt"
  else if String.eqb file "scan.png" then ".png" else ".bak".

Definition str (e : exn) : string :=
  match e with
  | ValueError msg => msg
  | FileNotFoundError msg => msg
  | IndexError => "list index out of range"
  | KeyError key => key
  | BackendError msg => msg
  end.

Definition uuid4 (n : nat) : string := "doc-" +:+ pretty n.

Definition index_directory :=
  Directory.index_directory Samples.collection None Samples.fresh_ids
    (fun path => negb (String.eqb path "missing")) process_document
    Samples.encode fifth small_splitter true walk join file_ext str uuid4.

End IndexSamples.

(** ** [src/database/chroma_manager.py]: listing the collection *)

Module Listing.
Import Py.

(** The dictionary a [get] call of the collection returns, and the one
    that [get_all_documents] builds: identifiers, texts and metadata, one
    list each.  (ChromaDB returns the identifiers always and a list for
    every field asked for with [include].) *)
Record GetResult : Type := {
  g_ids : list string;
  g_documents : list (list N);
  g_metadatas : list (gmap string pyval)
}.

(** What a function of this part does: it returns, or raises one of the
    exceptions known so far, or raises [TypeError]. *)
Inductive outcome (A : Type) : Type :=
  | Returns (a : A)
  | Throws (e : exn)
  | ThrowsTypeError (msg : string).
Arguments Returns {A} a.
Arguments Throws {A} e.
Arguments ThrowsTypeError {A} msg.

(** Truth value of a metadata value. *)
Definition truth (v : pyval) : bool :=
  match v with
  | PNone => false
  | PBool b => b
  | PInt z => negb (z =? 0)
  | PStr s => negb (String.eqb s "")
  | PDict d => match d with [] => false | _ :: _ => true end
  end.

(** A value as a dictionary key: [True] and [1], [False] and [0] are one
    key; a dictionary cannot be a key. *)
Inductive dict_key : Type :=
  | KeyNone
  | KeyInt (z : Z)
  | KeyStr (s : string).

#[global] Instance dict_key_eq_dec : EqDecision dict_key.
Proof. solve_decision. Defined.

Definition hash_key (v : pyval) : option dict_key :=
  match v with
  | PNone => Some KeyNone
  | PBool b => Some (KeyInt (if b then 1 else 0))
  | PInt z => Some (KeyInt z)
  | PStr s => Some (KeyStr s)
  | PDict _ => None
  end.

(** One dictionary of the list that [get_unique_documents] returns. *)
Record DocumentInfo : Type := {
  document_id : pyval;
  file_path : pyval;
  file_name : pyval;
  file_type : pyval;
  chunks_count : Z;
  chunk_ids : list string
}.

(** [documents_map], in the order in which its keys were inserted. *)
Definition documents_map : Type := list (dict_key * DocumentInfo).

(** [documents_map[k] = f(documents_map[k])] for a key that is there. *)
Definition update_key (k : dict_key) (f : DocumentInfo -> DocumentInfo)
    (m : documents_map) : documents_map :=
  map (fun kd => if decide (fst kd = k) then (fst kd, f (snd kd)) else kd) m.

Definition count_chunk (d : DocumentInfo) : DocumentInfo :=
  {| document_id := document_id d; file_path := file_path d;
     file_name := file_name d; file_type := file_type d;
     chunks_count := chunks_count d + 1; chunk_ids := chunk_ids d |}.

Definition append_id (id : string) (d : DocumentInfo) : DocumentInfo :=
  {| document_id := document_id d; file_path := file_path d;
     file_name := file_name d; file_type := file_type d;
     chunks_count := chunks_count d; chunk_ids := chunk_ids d ++ [id] |}.

(** The body of the [for i, metadata in enumerate(metadatas)] loop. *)
Definition group_step (ids : list string) (i : nat)
    (metadata : gmap string pyval) (m : documents_map)
    : outcome documents_map :=
  let doc_id := default (PStr "") (metadata !! "document_id") in
  if negb (truth doc_id) then Returns m
  else
    match hash_key doc_id with
    | None => ThrowsTypeError "unhashable type: 'dict'"
    | Some k =>
        let m :=
          if bool_decide (k ∈ map fst m) then m
          else
            m ++ [(k, {| document_id := doc_id;
                         file_path := default (PStr "") (metadata !! "file_path");
                         file_name := default (PStr "") (metadata !! "file_name");
                         file_type := default (PStr "") (metadata !! "file_type");
                         chunks_count := 0;
                         chunk_ids := [] |})] in
        let m := update_key k count_chunk m in
        match ids !! i with
        | None => Throws IndexError
        | Some id => Returns (update_key k (append_id id) m)
        end
    end.

(** The loop from index [i] on. *)
Fixpoint group_from (ids : list string) (i : nat)
    (metadatas : list (gmap string pyval)) (m : documents_map)
    : outcome documents_map :=
  match metadatas with
  | [] => Returns m
  | metadata :: rest =>
      match group_step ids i metadata m with
      | Returns m' => group_from ids (S i) rest m'
      | Throws e => Throws e
      | ThrowsTypeError msg => ThrowsTypeError msg
      end
  end.

(** Truth value of an optional integer, and [offset and offset > 0]. *)
Definition nonzero (z : option Z) : bool :=
  match z with
  | Some v => negb (v =? 0)
  | None => false
  end.

Definition positive (z : option Z) : bool :=
  match z with
  | Some v => 0 <? v
  | None => false
  end.

(** [l[0] if l else []] and [l[lo:hi] if l else []] *)
Definition first_or_empty {A} (l : list (list A)) : list A :=
  match l with
  | x :: _ => x
  | [] => []
  end.

Definition sliced {A} (l : list A) (lo hi : Z) : list A :=
  match l with
  | [] => []
  | _ :: _ => slice l lo hi
  end.

Section Manager.
Context {Store Emb Num : Type}.
Variable collection : Chroma.Collection Store Emb Num.
(** [collection.get(limit=..., include=...)] *)
Variable coll_get : option Z -> list string -> Store -> result GetResult.

(** [ChromaManager.get_all_documents(limit, offset, where)] *)
Definition get_all_documents (limit offset : option Z)
    (where_ : option (gmap string pyval)) : Store -> result GetResult :=
  fun s =>
    if Splitter.truthy where_ then
      match Chroma.coll_count collection s with
      | Raise e => Raise e
      | Ok all_count =>
          let fetch_limit :=
            if nonzero limit then default 0 limit else all_count in
          let fetch_limit :=
            if nonzero offset && nonzero limit
            then default 0 offset + default 0 limit
            else fetch_limit in
          match Chroma.coll_query collection (Chroma.QueryTexts [""])
                  (if fetch_limit =? 0 then all_count else fetch_limit)
                  where_ ["metadatas"; "documents"] s with
          | Raise e => Raise e
          | Ok results =>
              let ids := first_or_empty (default [[]] (Chroma.ids results)) in
              let documents := first_or_empty (Chroma.documents results) in
              let metadatas := first_or_empty (Chroma.metadatas results) in
              if positive offset then
                let start := default 0 offset in
                let end_ :=
                  if nonzero limit then default 0 offset + default 0 limit
                  else len ids in
                Ok {| g_ids := slice ids start end_;
                      g_documents := sliced documents start end_;
                      g_metadatas := sliced metadatas start end_ |}
              else if nonzero limit && (default 0 limit <? len ids) then
                Ok {| g_ids := slice ids 0 (default 0 limit);
                      g_documents := sliced documents 0 (default 0 limit);
                      g_metadatas := sliced metadatas 0 (default 0 limit) |}
              else
                Ok {| g_ids := ids; g_documents := documents;
                      g_metadatas := metadatas |}
          end
      end
    else if nonzero limit || nonzero offset then
      let fetch_limit :=
        if nonzero offset && nonzero limit
        then Some (default 0 offset + default 0 limit)
        else if nonzero limit then limit else None in
      match coll_get fetch_limit ["metadatas"; "documents"] s with
      | Raise e => Raise e
      | Ok results =>
          if positive offset then
            let ids := g_ids results in
            let start := default 0 offset in
            let end_ :=
              if nonzero limit then default 0 offset + default 0 limit
              else len ids in
            Ok {| g_ids := slice ids start end_;
                  g_documents := sliced (g_documents results) start end_;
                  g_metadatas := sliced (g_metadatas results) start end_ |}
          else if nonzero limit
                  && match g_ids results with [] => false | _ :: _ => true end
          then
            Ok {| g_ids := slice (g_ids results) 0 (default 0 limit);
                  g_documents :=
                    sliced (g_documents results) 0 (default 0 limit);
                  g_metadatas :=
                    sliced (g_metadatas results) 0 (default 0 limit) |}
          else Ok results
      end
    else coll_get None ["metadatas"; "documents"] s.

(** [ChromaManager.get_unique_documents()] *)
Definition get_unique_documents : Store -> outcome (list DocumentInfo) :=
  fun s =>
    match coll_get None ["metadatas"] s with
    | Raise e => Throws e
    | Ok all_results =>
        match g_ids all_results with
        | [] => Returns []
        | _ :: _ =>
            match group_from (g_ids all_results) 0 (g_metadatas all_results)
                    [] with
            | Returns m => Returns (map snd m)
            | Throws e => Throws e
            | ThrowsTypeError msg => ThrowsTypeError msg
            end
        end
    end.

End Manager.

(** The key under which a record is grouped: that of its [document_id]
    when that is there and true. *)
Definition group_key (metadata : gmap string pyval) : option dict_key :=
  let doc_id := default (PStr "") (metadata !! "document_id") in
  if truth doc_id then hash_key doc_id else None.

(** [enumerate(l, i)] as a list. *)
Fixpoint enumerate_from {A} (i : nat) (l : list A) : list (nat * A) :=
  match l with
  | [] => []
  | x :: r => (i, x) :: enumerate_from (S i) r
  end.

(** The identifiers [ids[i]] of the records [i] grouped under [k], in the
    order of the records. *)
Definition ids_under (ids : list string) (k : dict_key)
    (records : list (nat * gmap string pyval)) : list string :=
  omap
    (fun r => if decide (group_key (snd r) = Some k) then ids !! fst r else None)
    records.

Definition group_ids (ids : list string)
    (metadatas : list (gmap string pyval)) (k : dict_key) : list string :=
  ids_under ids k (enumerate_from 0 metadatas).

(** What holds of [documents_map] when the records [seen] have been
    grouped: its keys differ; an entry holds a true [document_id] that
    has its key, the identifiers of the records seen under that key, of
    which there is one at least, and their number; and every record seen
    with a true [document_id] has an identifier and an entry. *)
Definition grouped (ids : list string)
    (seen : list (nat * gmap string pyval)) (m : documents_map) : Prop :=
  NoDup (map fst m)
  /\ (forall k d, (k, d) ∈ m ->
        hash_key (document_id d) = Some k
        /\ truth (document_id d) = true
        /\ chunk_ids d = ids_under ids k seen
        /\ chunks_count d = len (chunk_ids d)
        /\ chunk_ids d <> [])
  /\ (forall i metadata,
        (i, metadata) ∈ seen ->
        truth (default (PStr "") (metadata !! "document_id")) = true ->
        exists k, group_key metadata = Some k
                  /\ is_Some (ids !! i) /\ k ∈ map fst m).

End Listing.


(** ** A sample listing *)

Module ListingSamples.
Import Py.

(** [collection.get] on a store held in memory: the first [limit]
    records, or all. *)
Definition mem_get (limit : option Z) (include : list string)
    (s : MemStore.Store unit Z) : result Listing.GetResult :=
  let found :=
    match limit with
    | Some n => take (Z.to_nat n) (MemStore.rows s)
    | None => MemStore.rows s
    end in
  Ok {| Listing.g_ids := map MemStore.row_id found;
        Listing.g_documents := map MemStore.row_document found;
        Listing.g_metadatas := map MemStore.row_metadata found |}.

Definition get_all_documents :=
  Listing.get_all_documents Samples.collection mem_get.

Definition get_unique_documents :=
  Listing.get_unique_documents mem_get.

End ListingSamples.

(** ** [src/api/routes.py]: the routes for indexing and deleting *)

Module Routes.
Import Py Splitter.

(** What a route does: it answers with a response, or it raises an
    [HTTPException], which FastAPI turns into an answer with that
    status. *)
Inductive reply (A : Type) : Type :=
  | Respond (a : A)
  | HTTPException (status_code : Z) (detail : string).
Arguments Respond {A} a.
Arguments HTTPException {A} status_code detail.

(** What the [try] block of a route can raise: an exception of the
    service, or an [HTTPException] of the route's own, which is an
    [Exception] like any other. *)
Inductive thrown : Type :=
  | Service (e : exn)
  | Http (status_code : Z) (detail : string).

Inductive attempt (A : Type) : Type :=
  | Done (a : A)
  | Thrown (t : thrown).
Arguments Done {A} a.
Arguments Thrown {A} t.

(** [IndexResponse] and [DeleteResponse] of [src/database/models.py] *)
Record IndexResponse : Type := {
  success : bool;
  document_id : string;
  chunks_count : Z;
  file_path : string;
  message : string
}.

Record DeleteResponse : Type := {
  d_success : bool;
  deleted_count : Z;
  d_message : string
}.

Section Api.
Context {Store Emb Num : Type}.
(** The parts of the global [indexing_service]; [initialized] tells
    whether the global is set ([indexing_service is not None]). *)
Variable initialized : bool.
Variable collection : Chroma.Collection Store Emb Num.
Variable embedding_function : option (list N -> Emb).
Variable fresh_ids : nat -> list string.
Variable path_exists : string -> bool.
Variable process_document : string -> option Document.Document.
Variable encode : list (list N) -> result (list Emb).
Variable tail : Z -> Z.
Variable text_splitter : TextSplitter.
(** [str(e)] of what was raised. *)
Variable str : thrown -> string.

(** The [except] clauses of the [/index] route, in their order:
    [FileNotFoundError] gives 404, any other [Exception] gives 500. *)
Definition index_handlers {A} (a : attempt A) : reply A :=
  match a with
  | Done x => Respond x
  | Thrown (Service (FileNotFoundError msg)) =>
      HTTPException 404 (str (Service (FileNotFoundError msg)))
  | Thrown t => HTTPException 500 (str t)
  end.

(** The [try] block of the [/index] route. *)
Definition index_attempt (fuel : nat) (uuid : string) (file_path : string)
    (overwrite : bool) : Store -> option (attempt IndexResponse * Store) :=
  fun s =>
    if negb initialized
    then Some (Thrown (Http 503 "Indexing service not initialized"), s)
    else if negb (path_exists file_path)
    then Some (Thrown (Http 404 ("File not found: " +:+ file_path)), s)
    else
      match Indexing.index_document collection embedding_function fresh_ids
              path_exists process_document encode tail text_splitter fuel
              uuid file_path overwrite s with
      | None => None
      | Some (Raise e, s') => Some (Thrown (Service e), s')
      | Some (Ok result, s') =>
          Some (Done {| success := Indexing.success result;
                        document_id := Indexing.document_id result;
                        chunks_count := Indexing.chunks_count result;
                        file_path := Indexing.file_path result;
                        message := Indexing.message result |}, s')
      end.

(** [POST /index] with the request [IndexRequest(file_path, overwrite)];
    [uuid] is the identifier [uuid4()] gives in this call. *)
Definition index_document (fuel : nat) (uuid : string) (file_path : string)
    (overwrite : bool) : Store -> option (reply IndexResponse * Store) :=
  fun s =>
    match index_attempt fuel uuid file_path overwrite s with
    | None => None
    | Some (a, s') => Some (index_handlers a, s')
    end.

(** The [except] clauses of the [/delete] route, in their order:
    [ValueError] gives 404, any other [Exception] gives 500. *)
Definition delete_handlers {A} (a : attempt A) : reply A :=
  match a with
  | Done x => Respond x
  | Thrown (Service (ValueError msg)) =>
      HTTPException 404 (str (Service (ValueError msg)))
  | Thrown t => HTTPException 500 (str t)
  end.

(** The [try] block of the [/delete] route. *)
Definition delete_attempt (document_id file_path : option string)
    : Store -> attempt DeleteResponse * Store :=
  fun s =>
    if negb initialized
    then (Thrown (Http 503 "Indexing service not initialized"), s)
    else
      match Indexing.delete_document collection document_id file_path s with
      | (Raise e, s') => (Thrown (Service e), s')
      | (Ok result, s') =>
          (Done {| d_success := Indexing.d_success result;
                   deleted_count := Indexing.deleted_count result;
                   d_message := Indexing.d_message result |}, s')
      end.

(** [DELETE /delete] with the request
    [DeleteRequest(document_id, file_path)]. *)
Definition delete_document (document_id file_path : option string)
    : Store -> reply DeleteResponse * Store :=
  fun s =>
    let (a, s') := delete_attempt document_id file_path s in
    (delete_handlers a, s').

End Api.

End Routes.


(** ** A sample server *)

Module RouteSamples.
Import Py Splitter Props.

(** [str(e)]; an [HTTPException] prints its status and its detail. *)
Definition str (t : Routes.thrown) : string :=
  match t with
  | Routes.Service e => IndexSamples.str e
  | Routes.Http status_code detail => pretty status_code +:+ ": " +:+ detail
  end.

Definition index_document :=
  Routes.index_document true Samples.collection None Samples.fresh_ids
    Samples.path_exists Samples.process_document Samples.encode fifth
    small_splitter str.

Definition delete_document :=
  Routes.delete_document true Samples.collection str.

End RouteSamples.

(** ** [src/api/routes.py]: the route that lists the records *)

Module ListingRoutes.
Import Py Listing Routes.

(** One element of [documents] in the answer of [GET /db/documents]. *)
Record DocumentView : Type := {
  chunk_id : string;
  v_document_id : pyval;
  v_file_path : pyval;
  v_file_name : pyval;
  v_file_type : pyval;
  v_chunk_index : pyval;
  text_preview : list N;
  text_length : Z;
  v_metadata : gmap string pyval
}.

(** The dictionary [get_collection_info] returns. *)
Record CollectionInfo : Type := {
  name : string;
  count : Z;
  path : string
}.

(** The answer of [GET /db/documents]. *)
Record DocumentsResponse : Type := {
  total : Z;
  documents : list DocumentView;
  collection_info : CollectionInfo
}.

(** [l[i] if l else d]: an index outside a list that is not empty
    raises. *)
Definition item_or {A} (l : list A) (i : nat) (d : A) : option A :=
  match l with
  | [] => Some d
  | _ :: _ => l !! i
  end.

(** The dictionary appended for one record. *)
Definition view (chunk_id : string) (metadata : gmap string pyval)
    (text : list N) : DocumentView :=
  {| chunk_id := chunk_id;
     v_document_id := default (PStr "") (metadata !! "document_id");
     v_file_path := default (PStr "") (metadata !! "file_path");
     v_file_name := default (PStr "") (metadata !! "file_name");
     v_file_type := default (PStr "") (metadata !! "file_type");
     v_chunk_index := default (PInt 0) (metadata !! "chunk_index");
     text_preview := match text with [] => [] | _ :: _ => slice text 0 500 end;
     text_length := len text;
     v_metadata := metadata |}.

(** The [for i, chunk_id in enumerate(results['ids'])] loop from index
    [i] on; [documents] is the list built so far. *)
Fixpoint format_from (results : GetResult) (i : nat) (ids : list string)
    (documents : list DocumentView) : result (list DocumentView) :=
  match ids with
  | [] => Ok documents
  | chunk_id :: rest =>
      match item_or (g_metadatas results) i ∅ with
      | None => Raise IndexError
      | Some metadata =>
          match item_or (g_documents results) i [] with
          | None => Raise IndexError
          | Some text =>
              format_from results (S i) rest
                (documents ++ [view chunk_id metadata text])
          end
      end
  end.

Section Api.
Context {Store Emb Num : Type}.
(** [initialized] tells whether the global [chroma_manager] is set; the
    others are the parts of the manager. *)
Variable initialized : bool.
Variable collection : Chroma.Collection Store Emb Num.
Variable coll_get : option Z -> list string -> Store -> result GetResult.
Variable collection_name : string.
Variable persist_directory : string.
Variable str : thrown -> string.

(** [ChromaManager.get_documents_by_document_id(document_id)] *)
Definition get_documents_by_document_id (document_id : string)
    : Store -> result GetResult :=
  fun s =>
    match Chroma.coll_count collection s with
    | Raise e => Raise e
    | Ok all_count =>
        match Chroma.coll_query collection (Chroma.QueryTexts [""]) all_count
                (Some {[ "document_id" := PStr document_id ]})
                ["metadatas"; "documents"] s with
        | Raise e => Raise e
        | Ok results =>
            Ok {| g_ids := first_or_empty (default [[]] (Chroma.ids results));
                  g_documents := first_or_empty (Chroma.documents results);
                  g_metadatas := first_or_empty (Chroma.metadatas results) |}
        end
    end.

(** [ChromaManager.get_collection_info()] *)
Definition get_collection_info (s : Store) : CollectionInfo :=
  match Chroma.coll_count collection s with
  | Ok n => {| name := collection_name; count := n; path := persist_directory |}
  | Raise _ =>
      {| name := collection_name; count := 0; path := persist_directory |}
  end.

(** The [try] block of [GET /db/documents]. *)
Definition documents_attempt (limit offset : option Z)
    (document_id : option string) (s : Store) : attempt DocumentsResponse :=
  if negb initialized then Thrown (Http 503 "ChromaDB not initialized")
  else
    let fetched :=
      if Indexing.given document_id
      then get_documents_by_document_id (default "" document_id) s
      else Listing.get_all_documents collection coll_get limit offset None s in
    match fetched with
    | Raise e => Thrown (Service e)
    | Ok results =>
        match format_from results 0 (g_ids results) [] with
        | Raise e => Thrown (Service e)
        | Ok documents =>
            Done {| total := len (g_ids results);
                    documents := documents;
                    collection_info := get_collection_info s |}
        end
    end.

(** [GET /db/documents] with the parameters [limit], [offset] and
    [document_id]: every [Exception] of the [try] block gives 500. *)
Definition get_all_documents (limit offset : option Z)
    (document_id : option string) (s : Store) : reply DocumentsResponse :=
  match documents_attempt limit offset document_id s with
  | Done response => Respond response
  | Thrown t => HTTPException 500 (str t)
  end.

End Api.

End ListingRoutes.

(** ** A sample listing route *)

Module ListingRouteSamples.

Definition get_all_documents :=
  ListingRoutes.get_all_documents true Samples.collection
    ListingSamples.mem_get "documents" "./chroma_db" RouteSamples.str.

End ListingRouteSamples.

(* ===================================================================== *)
(** * Part II: properties *)
(* ===================================================================== *)

Local Set Warnings "-clear-no-such-hyp".

(** ** Strings, slices and matches *)

Module PyFacts.
Import Py Regex.

Lemma lstrip_length (s : list N) : (length (lstrip s) <= length s)%nat.
Proof.
  induction s as [|c r IH]; simpl; [lia|].
  destruct (isspace c); simpl; lia.
Qed.

Lemma strip_length (s : list N) : (length (strip s) <= length s)%nat.
Proof.
  unfold strip, rstrip. rewrite length_rev.
  etransitivity; [apply lstrip_length|].
  rewrite length_rev. apply lstrip_length.
Qed.

Lemma strip_len (s : list N) : len (strip s) <= len s.
Proof. unfold len. pose proof (strip_length s). lia. Qed.

Lemma len_nonneg {A} (s : list A) : 0 <= len s.
Proof. unfold len. lia. Qed.

Lemma slice_length_le {A} (s : list A) (a b : Z) :
  0 <= a -> 0 <= b -> (length (slice s a b) <= Z.to_nat (b - a))%nat.
Proof.
  intros Ha Hb. unfold slice, clamp_index.
  destruct (Z.ltb_spec a 0); [lia|]. destruct (Z.ltb_spec b 0); [lia|].
  rewrite length_take. lia.
Qed.

Lemma match_here_bounds (s : list N) (n : nat) :
  match_here s = Some n -> (1 <= n <= length s)%nat.
Proof.
  assert (Hspan : forall p r, (span_len p r <= length r)%nat).
  { intros p r. induction r as [|c r IH]; simpl; [lia|].
    destruct (p c); simpl; lia. }
  destruct s as [|c r]; simpl; [discriminate|].
  pose proof (Hspan isspace r). pose proof (Hspan is_newline r).
  repeat case_match; intros [= <-]; lia.
Qed.

Lemma finditer_from_bounds (s : list N) :
  forall pos skip,
    Forall (fun m => (pos <= fst m /\ fst m < snd m
                      /\ snd m <= pos + length s)%nat)
      (finditer_from pos skip s).
Proof.
  induction s as [|c r IH]; intros pos skip; cbn [finditer_from];
    [constructor|].
  destruct skip as [|k].
  - destruct (match_here (c :: r)) as [n|] eqn:Hm.
    + apply match_here_bounds in Hm. cbn [length] in *.
      constructor; [cbn [fst snd]; lia|].
      eapply Forall_impl; [apply IH|]. cbn beta. intros m. lia.
    + eapply Forall_impl; [apply IH|]. cbn beta. cbn [length]. intros m. lia.
  - eapply Forall_impl; [apply IH|]. cbn beta. cbn [length]. intros m. lia.
Qed.

Lemma finditer_last_bounds (s : list N) (m : nat * nat) :
  last (finditer s) = Some m -> (1 <= snd m <= length s)%nat.
Proof.
  intros Hl. pose proof (finditer_from_bounds s 0 0) as HF.
  rewrite Forall_forall in HF.
  assert (Hin : m ∈ finditer s) by (by eapply last_Some_elem_of).
  specialize (HF m Hin). lia.
Qed.

End PyFacts.

(** ** The splitter: progress and termination *)

Module SplitterFacts.
Import Py Regex Splitter PyFacts.

Section Progress.
Variable tail : Z -> Z.
Variable self : TextSplitter.
Variable txt : list N.
Variable md : option (gmap string pyval).

(** A window ends after its start, whatever the cursor. *)
Lemma window_end_gt (pos : Z) :
  1 <= chunk_size self -> pos < len txt -> pos < window_end tail self txt pos.
Proof.
  intros Hcs Hpos. unfold window_end.
  destruct (Z.ltb_spec (Z.min (pos + chunk_size self) (len txt)) (len txt));
    [|lia].
  destruct (last _) as [m|] eqn:Hl; [|lia].
  apply finditer_last_bounds in Hl. lia.
Qed.

(** A window that starts inside the text ends inside the text. *)
Lemma window_end_le (pos : Z) :
  1 <= chunk_size self -> 0 <= pos -> window_end tail self txt pos <= len txt.
Proof.
  intros Hcs Hpos. unfold window_end.
  destruct (Z.ltb_spec (Z.min (pos + chunk_size self) (len txt)) (len txt));
    [|lia].
  destruct (last _) as [m|] eqn:Hl; [|lia].
  apply finditer_last_bounds in Hl.
  set (e := Z.min (pos + chunk_size self) (len txt)) in *.
  set (a := Z.max pos (e - tail (chunk_size self))) in *.
  assert (He : 0 <= e <= len txt).
  { unfold e. pose proof (len_nonneg txt). lia. }
  pose proof (slice_length_le txt a e ltac:(lia) ltac:(lia)). lia.
Qed.

Lemma advance_gt (pos end_pos : Z) :
  pos < end_pos -> pos + 1 <= advance self pos end_pos.
Proof. intros H. unfold advance. case_match; lia. Qed.

Lemma advance_le (pos end_pos : Z) : advance self pos end_pos <= end_pos.
Proof.
  unfold advance.
  destruct (Z.leb_spec end_pos (Z.max (pos + 1) (end_pos - chunk_overlap self)));
    lia.
Qed.

Lemma loop_body_pos (st : loop_state) :
  current_pos (loop_body tail self txt md st)
  = advance self (current_pos st) (window_end tail self txt (current_pos st)).
Proof. reflexivity. Qed.

(** Each iteration moves the cursor forward by at least one character. *)
Lemma loop_body_progress (st : loop_state) :
  1 <= chunk_size self -> current_pos st < len txt ->
  current_pos st + 1 <= current_pos (loop_body tail self txt md st).
Proof.
  intros Hcs Hpos. rewrite loop_body_pos.
  apply advance_gt, window_end_gt; assumption.
Qed.

(** So the loop is left after at most [len txt - current_pos] iterations,
    and more fuel does not change what it returns. *)
Lemma split_loop_terminates (fuel : nat) :
  forall st,
    1 <= chunk_size self ->
    len txt - current_pos st <= Z.of_nat fuel ->
    exists chunks, split_loop tail self fuel txt md st = Some chunks.
Proof.
  induction fuel as [|fuel IH]; intros st Hcs Hfuel; cbn [split_loop].
  - destruct (Z.ltb_spec (current_pos st) (len txt)); [lia|eauto].
  - destruct (Z.ltb_spec (current_pos st) (len txt)); [|eauto].
    apply IH; [assumption|].
    pose proof (loop_body_progress st Hcs ltac:(assumption)). lia.
Qed.

Lemma split_loop_more_fuel (fuel : nat) :
  forall fuel' st chunks,
    split_loop tail self fuel txt md st = Some chunks ->
    (fuel <= fuel')%nat ->
    split_loop tail self fuel' txt md st = Some chunks.
Proof.
  induction fuel as [|fuel IH]; intros fuel' st chunks; cbn [split_loop].
  - destruct fuel'; cbn [split_loop];
      destruct (current_pos st <? len txt); congruence.
  - destruct fuel' as [|fuel']; [lia|]. cbn [split_loop].
    destruct (current_pos st <? len txt); [|congruence].
    intros H Hle. apply IH; [assumption|lia].
Qed.

End Progress.

(** C1.  For every text and every configuration with [chunk_size >= 1]:
    each iteration of the loop of [split_text] moves the cursor forward by
    at least one character, and [split_text] returns a list: there is one
    list of chunks that it returns with any fuel from the length of the
    text on (so the loop is left, and nothing in the function raises). *)
Theorem split_text_total (tail : Z -> Z) (self : TextSplitter)
    (txt : list N) (md : option (gmap string pyval)) :
  1 <= chunk_size self ->
  (forall (body : list N) (st : loop_state),
      current_pos st < len body ->
      current_pos st + 1 <= current_pos (loop_body tail self body md st))
  /\ exists chunks,
       forall fuel, (length txt <= fuel)%nat ->
         split_text tail self fuel txt md = Some chunks.
Proof.
  intros Hcs. split.
  - intros body st Hpos. by apply loop_body_progress.
  - unfold split_text.
    destruct (bool_decide (txt = []) || bool_decide (strip txt = []));
      [by eexists|].
    destruct (len (strip txt) <=? chunk_size self); [by eexists|].
    set (st0 := {| current_pos := 0; next_index := 0; chunks := [] |}).
    destruct (split_loop_terminates tail self (strip txt) md
                (length (strip txt)) st0 Hcs) as [chunks Hchunks].
    { unfold len. simpl. lia. }
    exists chunks. intros fuel Hfuel.
    eapply split_loop_more_fuel; [exact Hchunks|].
    pose proof (strip_length txt). lia.
Qed.

(** The theorem at a text of three windows. *)
Lemma split_text_total_witness :
  1 <= chunk_size {| chunk_size := 10; chunk_overlap := 2; min_chunk_size := 3 |}
  /\ exists chunks,
       forall fuel, (21 <= fuel)%nat ->
         split_text fifth
           {| chunk_size := 10; chunk_overlap := 2; min_chunk_size := 3 |}
           fuel (codepoints "aaaaaaaa. bbbbbbbbbbb") None = Some chunks.
Proof.
  split; [simpl; lia|].
  apply (split_text_total fifth
           {| chunk_size := 10; chunk_overlap := 2; min_chunk_size := 3 |}
           (codepoints "aaaaaaaa. bbbbbbbbbbb") None).
  simpl; lia.
Defined.

End SplitterFacts.

(** ** The splitter: what the chunks are *)

Module ChunkFacts.
Import Py Regex Splitter PyFacts SplitterFacts Props.

Lemma lstrip_idem (s : list N) : lstrip (lstrip s) = lstrip s.
Proof.
  induction s as [|c r IH]; [reflexivity|]. simpl.
  destruct (isspace c) eqn:Hc; [exact IH|]. simpl. by rewrite Hc.
Qed.

Lemma lstrip_snoc (l : list N) (c : N) :
  isspace c = false -> exists l', lstrip (l ++ [c]) = l' ++ [c].
Proof.
  intros Hc. induction l as [|x l IH]; simpl.
  - rewrite Hc. by exists [].
  - destruct (isspace x); [exact IH|]. by exists (x :: l).
Qed.

Lemma lstrip_rstrip (t : list N) :
  lstrip t = t -> lstrip (rstrip t) = rstrip t.
Proof.
  destruct t as [|c r]; [reflexivity|]. simpl.
  destruct (isspace c) eqn:Hc.
  - intros H. pose proof (lstrip_length r) as Hl. rewrite H in Hl.
    simpl in Hl. lia.
  - intros _. unfold rstrip. simpl.
    destruct (lstrip_snoc (rev r) c Hc) as [l' ->].
    rewrite rev_app_distr. simpl. by rewrite Hc.
Qed.

Lemma strip_idem (s : list N) : strip (strip s) = strip s.
Proof.
  unfold strip. rewrite lstrip_rstrip by apply lstrip_idem.
  unfold rstrip. by rewrite rev_involutive, lstrip_idem.
Qed.

Lemma lstrip_same_length (s : list N) :
  length (lstrip s) = length s -> lstrip s = s.
Proof.
  destruct s as [|c r]; [reflexivity|]. simpl.
  destruct (isspace c); [|reflexivity].
  intros H. pose proof (lstrip_length r). lia.
Qed.

(** Trimming keeps the length exactly when it removes nothing. *)
Lemma strip_same_length (s : list N) : len (strip s) = len s <-> strip s = s.
Proof.
  split; [|by intros ->].
  unfold len, strip, rstrip. rewrite length_rev. intros H.
  pose proof (lstrip_length s) as H1.
  pose proof (lstrip_length (rev (lstrip s))) as H2.
  rewrite length_rev in H2.
  assert (Hs : lstrip s = s) by (apply lstrip_same_length; lia).
  rewrite Hs in *.
  rewrite lstrip_same_length by (rewrite length_rev; lia).
  apply rev_involutive.
Qed.

Lemma slice_whole {A} (s : list A) : slice s 0 (len s) = s.
Proof.
  unfold slice, clamp_index, len.
  destruct (Z.ltb_spec 0 0); [lia|].
  destruct (Z.ltb_spec (Z.of_nat (length s)) 0); [lia|].
  replace (Z.to_nat (Z.min 0 (Z.of_nat (length s)))) with O by lia.
  replace (Z.to_nat _) with (length s) by lia.
  apply firstn_all.
Qed.

Lemma slice_len {A} (s : list A) (a b : Z) :
  0 <= a -> a <= b -> b <= len s -> len (slice s a b) = b - a.
Proof.
  intros Ha Hab Hb. unfold slice, clamp_index, len in *.
  destruct (Z.ltb_spec a 0); [lia|]. destruct (Z.ltb_spec b 0); [lia|].
  rewrite length_take, length_drop. lia.
Qed.

Section Loop.
Variable tail : Z -> Z.
Variable self : TextSplitter.
Variable txt : list N.
Variable md : option (gmap string pyval).

(** The rule for the [while] loop: what holds before the loop and is kept
    by every iteration holds of the state in which the loop is left. *)
Lemma split_loop_invariant (P : loop_state -> Prop) :
  (forall st, P st -> current_pos st < len txt ->
              P (loop_body tail self txt md st)) ->
  forall fuel st result,
    P st -> split_loop tail self fuel txt md st = Some result ->
    exists st', P st' /\ chunks st' = result /\ len txt <= current_pos st'.
Proof.
  intros Hstep. induction fuel as [|fuel IH]; intros st result HP;
    cbn [split_loop];
    destruct (Z.ltb_spec (current_pos st) (len txt));
    try discriminate.
  - intros [= <-]. eauto.
  - intros H'. eapply IH; [|exact H']. by apply Hstep.
  - intros [= <-]. eauto.
Qed.

(** If the hard cutoff is before the end of the text, so is the end of the
    window. *)
Lemma window_end_inside (pos : Z) :
  Z.min (pos + chunk_size self) (len txt) < len txt ->
  window_end tail self txt pos < len txt.
Proof.
  intros He. unfold window_end.
  destruct (Z.ltb_spec (Z.min (pos + chunk_size self) (len txt)) (len txt));
    [|lia].
  destruct (last _) as [m|] eqn:Hl; [|lia].
  apply finditer_last_bounds in Hl. revert Hl.
  set (e := Z.min (pos + chunk_size self) (len txt)) in *.
  set (a := Z.max pos (e - tail (chunk_size self))).
  unfold slice, clamp_index. rewrite length_take, length_drop.
  fold (len txt). unfold len in *.
  destruct (Z.ltb_spec a 0), (Z.ltb_spec e 0); lia.
Qed.

(** With [chunk_size <= 0] the cursor never reaches the end of the text:
    the loop is not left. *)
Lemma split_loop_stuck (fuel : nat) :
  forall st,
    chunk_size self <= 0 -> current_pos st < len txt ->
    split_loop tail self fuel txt md st = None.
Proof.
  induction fuel as [|fuel IH]; intros st Hcs Hpos; cbn [split_loop];
    destruct (Z.ltb_spec (current_pos st) (len txt)); try lia; [reflexivity|].
  apply IH; [assumption|]. rewrite loop_body_pos.
  pose proof (advance_le self (current_pos st)
                (window_end tail self txt (current_pos st))).
  pose proof (window_end_inside (current_pos st) ltac:(lia)). lia.
Qed.

End Loop.

End ChunkFacts.

Module ChunkInvariant.
Import Py Regex Splitter PyFacts SplitterFacts Props ChunkFacts.

Section Loop.
Variable tail : Z -> Z.
Variable self : TextSplitter.
Variable txt : list N.
Variable md : option (gmap string pyval).

(** With [chunk_size >= 1] every chunk is a non-empty window of the text,
    holds the trimmed text of that window and counts its characters. *)
Lemma loop_chunks_ok (fuel : nat) (result : list Chunk) :
  1 <= chunk_size self ->
  split_loop tail self fuel txt md
    {| current_pos := 0; next_index := 0; chunks := [] |} = Some result ->
  forall i c, result !! i = Some c -> chunk_ok txt i c.
Proof.
  intros Hcs Hrun.
  set (P := fun st : loop_state =>
              0 <= current_pos st /\ next_index st = len (chunks st)
              /\ forall i c, chunks st !! i = Some c -> chunk_ok txt i c).
  enough (Hstep : forall st, P st -> current_pos st < len txt ->
                             P (loop_body tail self txt md st)).
  { destruct (split_loop_invariant tail self txt md P Hstep fuel
                {| current_pos := 0; next_index := 0; chunks := [] |} result)
      as (st' & (_ & _ & Hst') & <- & _);
      [by repeat split|exact Hrun|exact Hst']. }
  intros st (Hpos & Hidx & Hall) Hlt. unfold P.
  pose proof (window_end_gt tail self txt (current_pos st) Hcs Hlt) as Hgt.
  pose proof (window_end_le tail self txt (current_pos st) Hcs Hpos) as Hle.
  split; [|split].
  - rewrite loop_body_pos.
    pose proof (advance_gt self _ _ Hgt). lia.
  - unfold loop_body. cbn [next_index chunks].
    destruct (_ || _); [|done].
    unfold len in *. rewrite length_app. simpl. lia.
  - unfold loop_body. cbn [chunks].
    destruct (_ || _); [|done].
    intros i c [[_ Hc]|[-> <-]]%lookup_snoc_Some; [by apply Hall|].
    unfold chunk_ok, make_chunk. cbn.
    repeat split; try lia; try reflexivity. exact Hidx.
Qed.

End Loop.

Lemma chunk_ok_count (txt : list N) (i : nat) (c : Chunk) :
  chunk_ok txt i c ->
  char_count c <= end_char c - start_char c
  /\ (char_count c = end_char c - start_char c
      <-> strip (slice txt (start_char c) (end_char c))
          = slice txt (start_char c) (end_char c)).
Proof.
  intros (H0 & Hlt & Hle & Ht & Hn & _). rewrite Hn, Ht.
  pose proof (slice_len txt (start_char c) (end_char c)
                H0 ltac:(lia) Hle) as Hs.
  rewrite <- Hs. split; [apply strip_len|apply strip_same_length].
Qed.

(** What [split_text] returns, path by path. *)
Lemma split_text_cases (tail : Z -> Z) (self : TextSplitter) (fuel : nat)
    (txt : list N) (md : option (gmap string pyval)) (result : list Chunk) :
  split_text tail self fuel txt md = Some result ->
  result = []
  \/ (strip txt <> [] /\ len (strip txt) <= chunk_size self
      /\ result = [whole_chunk md (strip txt)])
  \/ (1 <= chunk_size self /\ chunk_size self < len (strip txt)
      /\ split_loop tail self fuel (strip txt) md
           {| current_pos := 0; next_index := 0; chunks := [] |}
         = Some result).
Proof.
  unfold split_text.
  destruct (bool_decide (txt = [])) eqn:H1; [intros [= <-]; by left|].
  destruct (bool_decide (strip txt = [])) eqn:H2; [intros [= <-]; by left|].
  apply bool_decide_eq_false in H2. cbn [orb].
  destruct (Z.leb_spec (len (strip txt)) (chunk_size self)) as [Hle|Hgt].
  - intros [= <-]. right; left. done.
  - intros Hrun. right; right.
    destruct (Z.le_gt_cases 1 (chunk_size self)) as [Hcs|Hcs]; [done|].
    rewrite split_loop_stuck in Hrun; [discriminate|lia|].
    simpl. pose proof (len_nonneg (strip txt)).
    destruct (strip txt); [done|]. unfold len. simpl. lia.
Qed.

(** Every chunk of the returned list is well formed, on both paths. *)
Lemma split_text_chunk_ok (tail : Z -> Z) (self : TextSplitter) (fuel : nat)
    (txt : list N) (md : option (gmap string pyval)) (result : list Chunk)
    (i : nat) (c : Chunk) :
  split_text tail self fuel txt md = Some result ->
  result !! i = Some c -> chunk_ok (strip txt) i c.
Proof.
  intros Hrun Hc.
  apply split_text_cases in Hrun
    as [->|[(Hne & Hle & ->)|(Hcs & _ & Hloop)]].
  - done.
  - apply list_lookup_singleton_Some in Hc as [-> <-].
    unfold chunk_ok, whole_chunk. cbn.
    rewrite slice_whole, strip_idem.
    pose proof (len_nonneg (strip txt)).
    repeat split; try lia; try reflexivity.
    destruct (strip txt); [done|]. unfold len. simpl. lia.
  - by eapply loop_chunks_ok.
Qed.

(** C6, as the code has it.  Every chunk in the list that [split_text]
    returns starts before it ends, holds the trimmed text of the window
    [start_char .. end_char] of the trimmed input, has [char_count] equal to
    the length of that trimmed text, which is at most
    [end_char - start_char] and equal to it exactly when the window neither
    begins nor ends with whitespace, and has [chunk_index] equal to its
    position in the list (0, 1, 2, ...). *)
Theorem split_text_chunk_invariant (tail : Z -> Z) (self : TextSplitter)
    (fuel : nat) (txt : list N) (md : option (gmap string pyval))
    (result : list Chunk) (i : nat) (c : Chunk) :
  split_text tail self fuel txt md = Some result ->
  result !! i = Some c ->
  start_char c < end_char c
  /\ text c = strip (slice (strip txt) (start_char c) (end_char c))
  /\ char_count c = len (text c)
  /\ char_count c <= end_char c - start_char c
  /\ (char_count c = end_char c - start_char c
      <-> strip (slice (strip txt) (start_char c) (end_char c))
          = slice (strip txt) (start_char c) (end_char c))
  /\ chunk_index c = Z.of_nat i.
Proof.
  intros Hrun Hc.
  pose proof (split_text_chunk_ok tail self fuel txt md result i c Hrun Hc)
    as Hok.
  pose proof (chunk_ok_count _ _ _ Hok) as [Hle Heq].
  destruct Hok as (_ & Hlt & _ & Ht & Hn & Hi).
  repeat split; try assumption; apply Heq.
Qed.

(** The theorem at the first chunk of two sentences. *)
Lemma split_text_chunk_invariant_witness :
  let result := default [] (split_text fifth small_splitter 21 two_sentences None) in
  let c := first_chunk in
  split_text fifth small_splitter 21 two_sentences None = Some result
  /\ result !! 0%nat = Some c
  /\ start_char c < end_char c
  /\ text c = strip (slice (strip two_sentences) (start_char c) (end_char c))
  /\ char_count c = len (text c)
  /\ char_count c <= end_char c - start_char c
  /\ (char_count c = end_char c - start_char c
      <-> strip (slice (strip two_sentences) (start_char c) (end_char c))
          = slice (strip two_sentences) (start_char c) (end_char c))
  /\ chunk_index c = Z.of_nat 0.
Proof.
  intros result c.
  assert (Hrun : split_text fifth small_splitter 21 two_sentences None
                 = Some result) by (vm_compute; reflexivity).
  assert (Hc : result !! 0%nat = Some c) by (vm_compute; reflexivity).
  split; [exact Hrun|]. split; [exact Hc|].
  exact (split_text_chunk_invariant fifth small_splitter 21 two_sentences
           None result 0 c Hrun Hc).
Defined.

(** C6 as stated fails: the first chunk of [two_sentences] covers the ten
    characters 0..10 of the text but counts nine, because the blank after
    the dot belongs to the window and is trimmed from the chunk text. *)
Lemma char_count_counterexample :
  exists result c,
    split_text fifth small_splitter 21 two_sentences None = Some result
    /\ layout result = [(0, 0, 10, 9); (1, 8, 18, 10); (2, 16, 21, 5)]
    /\ result !! 0%nat = Some c
    /\ char_count c <> end_char c - start_char c.
Proof.
  eexists _, first_chunk.
  split; [vm_compute; reflexivity|].
  split; [vm_compute; reflexivity|].
  split; [vm_compute; reflexivity|].
  vm_compute. discriminate.
Qed.

End ChunkInvariant.

(** ** The splitter: overlap of consecutive chunks *)

Module Overlap.
Import Py Regex Splitter PyFacts SplitterFacts Props ChunkFacts ChunkInvariant.

Section Loop.
Variable tail : Z -> Z.
Variable self : TextSplitter.
Variable txt : list N.
Variable md : option (gmap string pyval).

Lemma loop_chunks_linked (fuel : nat) (result : list Chunk) :
  1 <= chunk_size self ->
  split_loop tail self fuel txt md
    {| current_pos := 0; next_index := 0; chunks := [] |} = Some result ->
  forall i c c',
    result !! i = Some c -> result !! S i = Some c' ->
    linked tail self txt c c'.
Proof.
  intros Hcs Hrun.
  set (P := fun st : loop_state =>
    next_index st = len (chunks st)
    /\ (forall i c c', chunks st !! i = Some c ->
                       chunks st !! S i = Some c' ->
                       linked tail self txt c c')
    /\ (forall c, last (chunks st) = Some c ->
          start_char c < current_pos st
          /\ (current_pos st <= end_char c
              \/ exists p, start_char c < p < current_pos st
                           /\ dropped tail self txt p))).
  enough (Hstep : forall st, P st -> current_pos st < len txt ->
                             P (loop_body tail self txt md st)).
  { destruct (split_loop_invariant tail self txt md P Hstep fuel
                {| current_pos := 0; next_index := 0; chunks := [] |} result)
      as (st' & (_ & Hst' & _) & <- & _); [|exact Hrun|exact Hst'].
    repeat split; intros; simplify_eq/=. }
  intros st (Hidx & Hpairs & Hlast) Hlt.
  pose proof (window_end_gt tail self txt (current_pos st) Hcs Hlt) as Hgt.
  pose proof (advance_gt self _ _ Hgt) as Hadv.
  pose proof (advance_le self (current_pos st)
                (window_end tail self txt (current_pos st))) as Hadv'.
  unfold P, loop_body. cbn [current_pos next_index chunks].
  destruct (Z.leb_spec (min_chunk_size self)
              (len (strip (slice txt (current_pos st)
                             (window_end tail self txt (current_pos st))))))
    as [Hkeep|Hdrop]; cbn [orb];
    [|destruct (Z.eqb_spec (next_index st) 0) as [Hfirst|Hlater]].
  1,2: split; [unfold len in *; rewrite length_app; simpl; lia|]; split.
  1,3: intros i c c' Hc [[Hi Hc']|[Hi <-]]%lookup_snoc_Some;
       [apply lookup_snoc_Some in Hc as [[_ Hc]|[-> _]]; [by eapply Hpairs|lia]
       |apply lookup_snoc_Some in Hc as [[_ Hc]|[-> _]]; [|lia];
        assert (Hl : last (chunks st) = Some c)
          by (rewrite last_lookup, <- Hi; exact Hc);
        destruct (Hlast c Hl) as [H1 H2]; split; [exact H1|exact H2]].
  1,2: intros c; rewrite last_snoc; intros [= <-]; cbn; split; [lia|left; lia].
  split; [exact Hidx|]. split; [exact Hpairs|].
  intros c Hl. destruct (Hlast c Hl) as [H1 _]. split; [lia|].
  right. exists (current_pos st). repeat split; [lia|lia|exact Hdrop].
Qed.

End Loop.

(** C7, as the code has it.  In the list that [split_text] returns, a chunk
    after the first starts later than its predecessor, and it starts at or
    before the end of its predecessor unless the loop dropped a window
    between the two (one whose trimmed text is shorter than
    [min_chunk_size]); with [min_chunk_size <= 0] no window is dropped and
    [start_char[i+1] <= end_char[i]] always holds. *)
Theorem split_text_overlap (tail : Z -> Z) (self : TextSplitter) (fuel : nat)
    (txt : list N) (md : option (gmap string pyval)) (result : list Chunk)
    (i : nat) (c c' : Chunk) :
  split_text tail self fuel txt md = Some result ->
  result !! i = Some c -> result !! S i = Some c' ->
  start_char c < start_char c'
  /\ (start_char c' <= end_char c
      \/ exists p, start_char c < p < start_char c'
                   /\ dropped tail self (strip txt) p)
  /\ (min_chunk_size self <= 0 -> start_char c' <= end_char c).
Proof.
  intros Hrun Hc Hc'.
  apply split_text_cases in Hrun as [->|[(_ & _ & ->)|(Hcs & _ & Hloop)]];
    [done|done|].
  destruct (loop_chunks_linked tail self (strip txt) md fuel result
              Hcs Hloop i c c' Hc Hc') as [H1 H2].
  split; [exact H1|]. split; [exact H2|].
  intros Hmin. destruct H2 as [H2|(p & _ & Hp)]; [exact H2|].
  unfold dropped in Hp.
  pose proof (len_nonneg
                (strip (slice (strip txt) p
                          (window_end tail self (strip txt) p)))).
  lia.
Qed.

(** The theorem at the first two chunks of two sentences. *)
Lemma split_text_overlap_witness :
  let result := default [] (split_text fifth small_splitter 21 two_sentences None) in
  let c := first_chunk in
  let c' := second_chunk in
  split_text fifth small_splitter 21 two_sentences None = Some result
  /\ result !! 0%nat = Some c
  /\ result !! 1%nat = Some c'
  /\ start_char c < start_char c'
  /\ (start_char c' <= end_char c
      \/ exists p, start_char c < p < start_char c'
                   /\ dropped fifth small_splitter (strip two_sentences) p)
  /\ (min_chunk_size small_splitter <= 0 -> start_char c' <= end_char c).
Proof.
  intros result c c'.
  assert (Hrun : split_text fifth small_splitter 21 two_sentences None
                 = Some result) by (vm_compute; reflexivity).
  assert (Hc : result !! 0%nat = Some c) by (vm_compute; reflexivity).
  assert (Hc' : result !! 1%nat = Some c') by (vm_compute; reflexivity).
  split; [exact Hrun|]. split; [exact Hc|]. split; [exact Hc'|].
  exact (split_text_overlap fifth small_splitter 21 two_sentences None
           result 0 c c' Hrun Hc Hc').
Defined.

(** C7 as stated fails with the default configuration: the window cut at
    800 holds 200 letters and 800 blanks, trims to 200 characters and is
    dropped, so the second chunk starts at 1600, after the end (1000) of
    the first. *)
Lemma overlap_counterexample :
  exists result c c',
    split_text fifth default_splitter 3000 text_with_gap None = Some result
    /\ layout result
       = [(0, 0, 1000, 1000); (1, 1600, 2600, 600); (2, 2400, 3000, 600)]
    /\ result !! 0%nat = Some c /\ result !! 1%nat = Some c'
    /\ ~ start_char c' <= end_char c.
Proof.
  eexists _, _, _.
  split; [vm_compute; reflexivity|].
  split; [vm_compute; reflexivity|].
  split; [reflexivity|]. split; [reflexivity|].
  cbn [start_char end_char]. lia.
Qed.

End Overlap.

(** ** The splitter: the metadata copy of a chunk *)

Module ChunkMetadata.
Import Py Regex Splitter PyFacts SplitterFacts Props ChunkFacts ChunkInvariant.

(** Every chunk of the loop carries what [make_chunk] gives it. *)
Lemma loop_chunks_metadata (tail : Z -> Z) (self : TextSplitter)
    (txt : list N) (md : option (gmap string pyval)) (fuel : nat)
    (result : list Chunk) :
  split_loop tail self fuel txt md
    {| current_pos := 0; next_index := 0; chunks := [] |} = Some result ->
  forall c, c ∈ result ->
    metadata c
    = if truthy md
      then (fun m => <["chunk_index" := PInt (chunk_index c)]> m) <$> md
      else None.
Proof.
  intros Hrun.
  set (P := fun st : loop_state =>
    forall c, c ∈ chunks st ->
      metadata c
      = if truthy md
        then (fun m => <["chunk_index" := PInt (chunk_index c)]> m) <$> md
        else None).
  enough (Hstep : forall st, P st -> current_pos st < len txt ->
                             P (loop_body tail self txt md st)).
  { destruct (split_loop_invariant tail self txt md P Hstep fuel
                {| current_pos := 0; next_index := 0; chunks := [] |} result)
      as (st' & Hst' & <- & _); [|exact Hrun|exact Hst'].
    intros c Hc. cbn in Hc. by apply elem_of_nil in Hc. }
  intros st HP _. unfold P, loop_body. cbn [chunks].
  destruct (_ || _); [|exact HP].
  intros c [Hc|Hc]%elem_of_app; [by apply HP|].
  apply list_elem_of_singleton in Hc as ->. reflexivity.
Qed.

(** C10, as the code has it.  When [metadata] is [None] or an empty
    dictionary no chunk carries a metadata copy.  When it is a non-empty
    dictionary [m], the single-chunk path (trimmed text of at most
    [chunk_size] characters) attaches [m] unchanged, so the copy has a
    [chunk_index] key only if [m] has one, and the multi-chunk path attaches
    [m] with [chunk_index] set to the index of the chunk, so the copy always
    has that key. *)
Theorem split_text_metadata (tail : Z -> Z) (self : TextSplitter)
    (fuel : nat) (txt : list N) (md : option (gmap string pyval))
    (result : list Chunk) :
  split_text tail self fuel txt md = Some result ->
  (truthy md = false -> forall c, c ∈ result -> metadata c = None)
  /\ (forall m, md = Some m -> m <> ∅ ->
        (len (strip txt) <= chunk_size self ->
         forall c, c ∈ result ->
           metadata c = Some m
           /\ (is_Some (m !! "chunk_index")
               <-> exists copy, metadata c = Some copy
                                /\ is_Some (copy !! "chunk_index")))
        /\ (chunk_size self < len (strip txt) ->
            forall c, c ∈ result ->
              metadata c = Some (<["chunk_index" := PInt (chunk_index c)]> m)
              /\ exists copy, metadata c = Some copy
                              /\ copy !! "chunk_index"
                                 = Some (PInt (chunk_index c)))).
Proof.
  intros Hrun.
  apply split_text_cases in Hrun as [->|[(_ & Hle & ->)|(_ & Hgt & Hloop)]].
  - split; [intros _ c Hc; by apply elem_of_nil in Hc|].
    intros m _ _.
    split; intros _ c Hc; by apply elem_of_nil in Hc.
  - split.
    + intros Hmd c ->%list_elem_of_singleton. cbn. by rewrite Hmd.
    + intros m -> Hm. split; [|lia].
      intros _ c ->%list_elem_of_singleton. cbn.
      rewrite bool_decide_eq_true_2 by exact Hm.
      split; [reflexivity|]. split.
      * intros Hk. by exists m.
      * by intros (copy & [= <-] & Hk).
  - pose proof (loop_chunks_metadata tail self (strip txt) md fuel result Hloop)
      as Hall.
    split.
    + intros Hmd c Hc. rewrite (Hall c Hc). by rewrite Hmd.
    + intros m -> Hm. split; [lia|].
      intros _ c Hc. rewrite (Hall c Hc). cbn.
      rewrite bool_decide_eq_true_2 by exact Hm. cbn.
      split; [reflexivity|]. eexists. split; [reflexivity|].
      apply lookup_insert_eq.
Qed.

(** The theorem on the metadata of a text file, for a short text (one
    chunk) and for two sentences (three chunks). *)
Lemma split_text_metadata_witness :
  let short := whole_chunk (Some file_metadata) (codepoints "hi") in
  let first :=
    make_chunk (Some file_metadata) (codepoints "aaaaaaaa.") 0 0 10 in
  let result :=
    default [] (split_text fifth small_splitter 21 two_sentences
                  (Some file_metadata)) in
  split_text fifth small_splitter 2 (codepoints "hi") (Some file_metadata)
  = Some [short]
  /\ metadata short = Some file_metadata
  /\ split_text fifth small_splitter 21 two_sentences (Some file_metadata)
     = Some result
  /\ result !! 0%nat = Some first
  /\ metadata first
     = Some (<["chunk_index" := PInt (chunk_index first)]> file_metadata).
Proof.
  intros short first result.
  assert (Hne : file_metadata <> ∅).
  { intros H. apply (f_equal (fun m : gmap string pyval => m !! "file_path")) in H.
    vm_compute in H. discriminate. }
  assert (Hshort : split_text fifth small_splitter 2 (codepoints "hi")
                     (Some file_metadata) = Some [short])
    by (vm_compute; reflexivity).
  assert (Hlong : split_text fifth small_splitter 21 two_sentences
                    (Some file_metadata) = Some result)
    by (vm_compute; reflexivity).
  assert (Hfirst : result !! 0%nat = Some first) by (vm_compute; reflexivity).
  split; [exact Hshort|]. split.
  - refine (proj1 (proj1 (proj2
      (split_text_metadata fifth small_splitter 2 (codepoints "hi")
         (Some file_metadata) [short] Hshort)
      file_metadata eq_refl Hne) _ short _)).
    + vm_compute. discriminate.
    + by left.
  - split; [exact Hlong|]. split; [exact Hfirst|].
    refine (proj1 (proj2 (proj2
      (split_text_metadata fifth small_splitter 21 two_sentences
         (Some file_metadata) result Hlong)
      file_metadata eq_refl Hne) _ first _)).
    + vm_compute. reflexivity.
    + eapply list_elem_of_lookup_2. exact Hfirst.
Defined.

(** C10 as stated fails on the single-chunk path when the caller's
    dictionary has a [chunk_index] key: the copy is the dictionary itself. *)
Lemma single_chunk_metadata_counterexample :
  exists c copy,
    split_text fifth default_splitter 2 (codepoints "hi") (Some own_index)
    = Some [c]
    /\ len (strip (codepoints "hi")) <= chunk_size default_splitter
    /\ metadata c = Some copy
    /\ copy !! "chunk_index" = Some (PInt 7).
Proof.
  eexists _, _.
  split; [vm_compute; reflexivity|].
  split; [vm_compute; discriminate|].
  split; [reflexivity|]. vm_compute. reflexivity.
Qed.

End ChunkMetadata.

(** ** Deleting a document *)

Module DeleteFacts.
Import Py Props.

(** Unfolds the plumbing of a computation applied to a store. *)
Ltac run_monad :=
  unfold bind, try_except, reading, writing, raise, ret, pure_result;
  cbn beta iota zeta.

Section Delete.
Context {Store Emb Num : Type}.
Variable collection : Chroma.Collection Store Emb Num.

(** [count] answers in every store, with the collection's count when there
    is one and with 0 otherwise, and leaves the store alone. *)
Lemma count_eq (s : Store) :
  Chroma.count collection s
  = (Ok (match Chroma.coll_count collection s with
         | Ok n => n
         | Raise _ => 0
         end), s).
Proof.
  unfold Chroma.count, try_except, reading, ret.
  by destruct (Chroma.coll_count collection s).
Qed.

(** [delete_document] with a selector: count, check and delete, count. *)
Lemma delete_document_eq (document_id file_path : option string) :
  Indexing.given document_id || Indexing.given file_path = true ->
  exists not_found,
    Indexing.delete_document collection document_id file_path
    = bind (Chroma.count collection) (fun count_before =>
        bind (Indexing.delete_where collection
                (selector document_id file_path) not_found count_before)
          (fun _ =>
             bind (Chroma.count collection) (fun count_after =>
               ret {| Indexing.d_success := true;
                      Indexing.deleted_count := count_before - count_after;
                      Indexing.d_message := "Document deleted from index" |}))).
Proof.
  intros Hsel. unfold Indexing.delete_document, selector.
  destruct (Indexing.given document_id); cbn [negb andb orb] in *.
  - by eexists.
  - rewrite Hsel. cbn [negb]. by eexists.
Qed.

End Delete.

(** C4, as the code has it.  [delete_document] requires at least one of
    [document_id] and [file_path]: with neither (each [None] or empty) it
    raises [ValueError] and leaves the store alone.  With [document_id]
    given, [file_path] is not looked at: the call does what it does with
    [document_id] alone, whether a [file_path] is given as well or not. *)
Theorem delete_document_selectors {Store Emb Num : Type}
    (collection : Chroma.Collection Store Emb Num)
    (document_id file_path : option string) (s : Store) :
  (Indexing.given document_id = false -> Indexing.given file_path = false ->
   Indexing.delete_document collection document_id file_path s
   = (Raise (ValueError "Must specify document_id or file_path"), s))
  /\ (Indexing.given document_id = true ->
      Indexing.delete_document collection document_id file_path s
      = Indexing.delete_document collection document_id None s).
Proof.
  unfold Indexing.delete_document. split.
  - intros -> ->. reflexivity.
  - intros ->. reflexivity.
Qed.

(** The theorem on a store with three records: no selector, and both. *)
Lemma delete_document_selectors_witness :
  Samples.delete_document None (Some "") Samples.three_rows
  = (Raise (ValueError "Must specify document_id or file_path"),
     Samples.three_rows)
  /\ Samples.delete_document (Some "d1") (Some "b.txt") Samples.three_rows
     = Samples.delete_document (Some "d1") None Samples.three_rows.
Proof.
  split.
  - exact (proj1 (delete_document_selectors Samples.collection None (Some "")
                    Samples.three_rows) eq_refl eq_refl).
  - exact (proj2 (delete_document_selectors Samples.collection (Some "d1")
                    (Some "b.txt") Samples.three_rows) eq_refl).
Defined.

(** C4 as stated fails when both selectors are given: the call does not
    raise, it deletes the two records of document [d1] and keeps the record
    stored under the given path, whether the existence lookup answers or
    fails. *)
Lemma both_selectors_counterexample :
  (exists r s',
      Samples.delete_document (Some "d1") (Some "b.txt") Samples.three_rows
      = (Ok r, s')
      /\ Indexing.deleted_count r = 2
      /\ map MemStore.row_id (MemStore.rows s') = ["d2_chunk_0"])
  /\ (exists r s',
        Samples.delete_document (Some "d1") (Some "b.txt")
          (Samples.lookup_broken Samples.three_rows) = (Ok r, s')
        /\ Indexing.deleted_count r = 2
        /\ map MemStore.row_id (MemStore.rows s') = ["d2_chunk_0"]).
Proof.
  split; eexists _, _; (split; [vm_compute; reflexivity|]);
    split; vm_compute; reflexivity.
Qed.

(** C5, as the code has it.  Around a deletion on which the collection
    behaves (see [healthy_at]: its count and its deletion succeed, and the
    existence lookup answers with the identifiers it found or fails with an
    error that is not a [ValueError]), [delete_document] with a selector
    raises [ValueError], the not-found error, when no stored record matches
    the selector, and when records match it returns with [deleted_count]
    equal to [count()] before the call minus [count()] after it, which is
    the number of matching records. *)
Theorem delete_document_outcome {Store Emb Num : Type}
    (collection : Chroma.Collection Store Emb Num)
    (live : Store -> Z) (matching : gmap string pyval -> Store -> Z)
    (document_id file_path : option string) (s : Store) :
  Indexing.given document_id || Indexing.given file_path = true ->
  healthy_at collection live matching (selector document_id file_path) s ->
  (matching (selector document_id file_path) s = 0 ->
   exists msg s',
     Indexing.delete_document collection document_id file_path s
     = (Raise (ValueError msg), s'))
  /\ (0 < matching (selector document_id file_path) s ->
      exists r s' before after,
        Indexing.delete_document collection document_id file_path s
        = (Ok r, s')
        /\ Chroma.count collection s = (Ok before, s)
        /\ Chroma.count collection s' = (Ok after, s')
        /\ Indexing.deleted_count r = before - after
        /\ Indexing.deleted_count r
           = matching (selector document_id file_path) s).
Proof.
  intros Hsel (Hm & Hc & (s' & Hd & Hc' & Hlive) & Hq).
  destruct (delete_document_eq collection document_id file_path Hsel)
    as [not_found ->].
  set (w := selector document_id file_path) in *.
  unfold Indexing.delete_where, Chroma.delete. run_monad.
  rewrite count_eq, Hc. cbn beta iota.
  destruct (Chroma.coll_query collection _ _ _ _ s) as [r|e].
  - (* the lookup answers *)
    destruct Hq as (first & Hids & Hlen).
    unfold Indexing.nothing_found. rewrite Hids.
    destruct first as [|id first]; cbn [length Nat.eqb].
    + (* nothing found *)
      assert (H0 : matching w s = 0).
      { unfold len in Hlen. cbn [length] in Hlen. lia. }
      split; [intros _; by eexists _, _|lia].
    + assert (H0 : 0 < matching w s).
      { unfold len in Hlen. cbn [length] in Hlen. lia. }
      split; [lia|]. intros Hpos. rewrite Hd. cbn beta iota.
      rewrite count_eq, Hc'.
      eexists _, s', _, _.
      rewrite ?count_eq, ?Hc, ?Hc'. repeat split; cbn; lia.
  - (* the lookup fails: delete, then compare the counts *)
    rewrite Hq, Hd. cbn beta iota. rewrite count_eq, Hc'. cbn beta iota.
    destruct (Z.eqb_spec (live s') (live s)) as [Heq|Hne].
    + split; [intros _; by eexists _, _|lia].
    + split; [lia|]. intros Hpos.
      rewrite count_eq, Hc'.
      eexists _, s', _, _.
      rewrite ?count_eq, ?Hc, ?Hc'. repeat split; cbn; lia.
Qed.

(** The theorem on the store with three records: an identifier that no
    record has, and a path that one record has while the lookup fails. *)
Lemma delete_document_outcome_witness :
  (exists msg s',
      Samples.delete_document (Some "zz") None Samples.three_rows
      = (Raise (ValueError msg), s'))
  /\ (exists r s' before after,
        Samples.delete_document None (Some "b.txt")
          (Samples.lookup_broken Samples.three_rows) = (Ok r, s')
        /\ Chroma.count Samples.collection
             (Samples.lookup_broken Samples.three_rows)
           = (Ok before, Samples.lookup_broken Samples.three_rows)
        /\ Chroma.count Samples.collection s' = (Ok after, s')
        /\ Indexing.deleted_count r = before - after
        /\ Indexing.deleted_count r = 1).
Proof.
  split.
  - refine (proj1 (delete_document_outcome Samples.collection Samples.live
                     Samples.matching (Some "zz") None Samples.three_rows
                     eq_refl _) _); [|vm_compute; reflexivity].
    split; [vm_compute; discriminate|]. split; [vm_compute; reflexivity|].
    split; [eexists; repeat split; vm_compute; reflexivity|].
    exists []. split; vm_compute; reflexivity.
  - refine (proj2 (delete_document_outcome Samples.collection Samples.live
                     Samples.matching None (Some "b.txt")
                     (Samples.lookup_broken Samples.three_rows)
                     eq_refl _) _); [|vm_compute; reflexivity].
    split; [vm_compute; discriminate|]. split; [vm_compute; reflexivity|].
    split; [eexists; repeat split; vm_compute; reflexivity|].
    vm_compute. reflexivity.
Defined.

(** C5 as stated fails when the existence lookup and the counts fail.  Two
    records of the store match the identifier [d1]; the lookup raises, so
    the deletion is made all the same and removes both; [count()] answers 0
    before and after it, and the call raises the not-found error. *)
Lemma deleted_yet_not_found_counterexample :
  Samples.matching (selector (Some "d1") None)
    (Samples.count_broken (Samples.lookup_broken Samples.three_rows)) = 2
  /\ exists s',
       Samples.delete_document (Some "d1") None
         (Samples.count_broken (Samples.lookup_broken Samples.three_rows))
       = (Raise (ValueError "Document with ID d1 not found in index"), s')
       /\ map MemStore.row_id (MemStore.rows s') = ["d2_chunk_0"].
Proof.
  split; [vm_compute; reflexivity|].
  eexists. split; vm_compute; reflexivity.
Qed.

(** C9.  [count()] never raises: in every store it returns an integer and
    leaves the store as it is; the integer is 0 when the count of the
    collection raises and the collection's count otherwise, so the answer
    for a store whose count fails is the answer for an empty store.  The
    fallback of [delete_document] compares such values: when the lookup
    fails, the deletion goes through and the count fails before and after
    it, the call raises the not-found [ValueError] whatever was deleted. *)
Theorem count_masks_failure {Store Emb Num : Type}
    (collection : Chroma.Collection Store Emb Num) (s : Store) :
  (exists n, Chroma.count collection s = (Ok n, s))
  /\ (forall e, Chroma.coll_count collection s = Raise e ->
                Chroma.count collection s = (Ok 0, s))
  /\ (forall n, Chroma.coll_count collection s = Ok n ->
                Chroma.count collection s = (Ok n, s))
  /\ (forall s2, Chroma.coll_count collection s = Ok 0 ->
                 raises (Chroma.coll_count collection s2) ->
                 fst (Chroma.count collection s2)
                 = fst (Chroma.count collection s))
  /\ (forall document_id file_path e s',
        Indexing.given document_id || Indexing.given file_path = true ->
        Chroma.coll_query collection (Chroma.QueryTexts [""]) 1
          (Some (selector document_id file_path)) ["metadatas"] s = Raise e ->
        is_ValueError e = false ->
        Chroma.coll_delete collection None
          (Some (selector document_id file_path)) s = Ok s' ->
        raises (Chroma.coll_count collection s) ->
        raises (Chroma.coll_count collection s') ->
        exists msg,
          Indexing.delete_document collection document_id file_path s
          = (Raise (ValueError msg), s')).
Proof.
  split; [rewrite count_eq; by eexists|].
  split; [intros e He; by rewrite count_eq, He|].
  split; [intros n Hn; by rewrite count_eq, Hn|].
  split.
  - intros s2 H0 H2. rewrite !count_eq, H0. cbn.
    destruct (Chroma.coll_count collection s2); [done|reflexivity].
  - intros document_id file_path e s' Hsel Hq He Hd Hc Hc'.
    destruct (delete_document_eq collection document_id file_path Hsel)
      as [not_found ->].
    unfold Indexing.delete_where, Chroma.delete. run_monad.
    rewrite count_eq, Hq, He, Hd. cbn beta iota. rewrite count_eq.
    destruct (Chroma.coll_count collection s); [done|].
    destruct (Chroma.coll_count collection s'); [done|].
    cbn. by eexists.
Qed.

(** The theorem on a store of three records whose counts and lookups fail:
    [count()] answers 0, and deleting by a path that one record has removes
    the record and reports that nothing was found. *)
Lemma count_masks_failure_witness :
  let s := Samples.count_broken (Samples.lookup_broken Samples.three_rows) in
  Chroma.count Samples.collection s = (Ok 0, s)
  /\ fst (Chroma.count Samples.collection s)
     = fst (Chroma.count Samples.collection Samples.empty_store)
  /\ exists msg s',
       Samples.delete_document None (Some "b.txt") s
       = (Raise (ValueError msg), s')
       /\ map MemStore.row_id (MemStore.rows s')
          = ["d1_chunk_0"; "d1_chunk_1"].
Proof.
  intros s.
  destruct (count_masks_failure Samples.collection s)
    as (_ & Hraise & _ & _ & Hdel).
  destruct (count_masks_failure Samples.collection Samples.empty_store)
    as (_ & _ & _ & Hsame & _).
  split; [exact (Hraise (BackendError "count failed") eq_refl)|].
  split; [exact (Hsame s eq_refl I)|].
  destruct (Hdel None (Some "b.txt") (BackendError "query failed")
              (Samples.count_broken (Samples.lookup_broken
                 {| MemStore.rows := [Samples.row "d1" "a.txt" 0;
                                      Samples.row "d1" "a.txt" 1];
                    MemStore.lookup_fails := false;
                    MemStore.count_fails := false |}))
              eq_refl eq_refl eq_refl ltac:(vm_compute; reflexivity) I I)
    as [msg Hmsg].
  exists msg. eexists. split; [exact Hmsg|]. vm_compute. reflexivity.
Defined.

End DeleteFacts.

(** ** Indexing a document *)

Module IndexFacts.
Import Py Splitter Props ChunkInvariant DeleteFacts.

Lemma chunk_id_inj (document_id : string) :
  Inj (=) (=) (Indexing.chunk_id document_id).
Proof.
  intros i j H. unfold Indexing.chunk_id, str_of_int in H.
  apply (inj (String.app document_id)) in H.
  apply (inj (String.app "_chunk_")) in H.
  apply (inj pretty) in H. lia.
Qed.

Lemma record_metadata_chunk_index (document_id : string)
    (document : Document.Document) (chunk : Chunk) :
  Indexing.record_metadata document_id document chunk !! "chunk_index"
  = Some (PInt (chunk_index chunk)).
Proof.
  assert (Hcopy : forall key doc_meta (m : gmap string pyval),
             key <> "chunk_index" ->
             Indexing.copy_key key doc_meta m !! "chunk_index"
             = m !! "chunk_index").
  { intros key doc_meta m Hkey. unfold Indexing.copy_key.
    destruct (doc_meta !! key); [|done]. by rewrite lookup_insert_ne. }
  unfold Indexing.record_metadata.
  destruct (truthy _); rewrite ?Hcopy by done; by simplify_map_eq.
Qed.

Section Index.
Context {Store Emb Num : Type}.
Variable collection : Chroma.Collection Store Emb Num.
Variable embedding_function : option (list N -> Emb).
Variable fresh_ids : nat -> list string.
Variable path_exists : string -> bool.
Variable process_document : string -> option Document.Document.
Variable encode : list (list N) -> result (list Emb).
Variable tail : Z -> Z.
Variable text_splitter : TextSplitter.

Lemma attach_embeddings_fst (chunks : list Chunk) (embeddings : list Emb) :
  forall i l,
    Indexing.attach_embeddings i chunks embeddings = Ok l ->
    map fst l = chunks.
Proof.
  induction chunks as [|c rest IH]; intros i l; cbn.
  - by intros [= <-].
  - destruct (embeddings !! i); [|discriminate].
    destruct (Indexing.attach_embeddings (S i) rest embeddings) eqn:Hrest;
      [|discriminate].
    intros [= <-]. cbn. f_equal. by eapply IH.
Qed.

Lemma encode_chunks_fst (chunks : list Chunk) (l : list (Chunk * Emb)) :
  Indexing.encode_chunks encode chunks = Ok l -> map fst l = chunks.
Proof.
  unfold Indexing.encode_chunks. destruct chunks as [|c rest].
  - by intros [= <-].
  - destruct (encode _); [|discriminate]. apply attach_embeddings_fst.
Qed.

(** What [add_documents] does with a batch made by [prepare]. *)
Lemma add_prepared (document_id : string) (document : Document.Document)
    (cwe : list (Chunk * Emb)) (s : Store) :
  cwe <> [] ->
  let batch := Indexing.prepare document_id document cwe in
  Chroma.add_documents collection embedding_function fresh_ids
    (Chroma.b_documents batch) (Chroma.b_metadatas batch)
    (Chroma.b_embeddings batch) (Some (Chroma.b_ids batch)) s
  = match Chroma.coll_add collection batch s with
    | Ok s' => (Ok (Chroma.b_ids batch), s')
    | Raise e => (Raise e, s)
    end.
Proof.
  intros Hne batch. destruct cwe as [|ce cwe']; [done|].
  unfold Chroma.add_documents, batch, Indexing.prepare.
  cbn [Chroma.b_documents Chroma.b_metadatas Chroma.b_embeddings
       Chroma.b_ids map default].
  unfold len, id. rewrite length_imap. cbn [length]. rewrite !length_map.
  rewrite Z.eqb_refl. cbn [negb orb]. run_monad.
  by destruct (Chroma.coll_add collection _ s).
Qed.

(** [index_chunks] once the chunks have their vectors: the optional
    deletion, then [collection.add] on the prepared batch. *)
Lemma index_chunks_eq (document_id file_path : string) (overwrite : bool)
    (document : Document.Document) (chunks : list Chunk)
    (cwe : list (Chunk * Emb)) (s : Store) :
  chunks <> [] ->
  Indexing.encode_chunks encode chunks = Ok cwe ->
  let res :=
    {| Indexing.success := true;
       Indexing.document_id := document_id;
       Indexing.chunks_count := len chunks;
       Indexing.file_path := file_path;
       Indexing.file_name := Document.file_name document;
       Indexing.message :=
         "Document successfully indexed: "
         +:+ str_of_int (len chunks) +:+ " chunks" |} in
    Indexing.index_chunks collection embedding_function fresh_ids encode
      document_id file_path overwrite document chunks s
    = match (if overwrite
             then Chroma.coll_delete collection None
                    (Some {[ "file_path" := PStr file_path ]}) s
             else Ok s) with
      | Raise e => (Raise e, s)
      | Ok s1 =>
          match Chroma.coll_add collection
                  (Indexing.prepare document_id document cwe) s1 with
          | Ok s' => (Ok res, s')
          | Raise e => (Raise e, s1)
          end
      end.
Proof.
  intros Hne Henc res. unfold res. clear res.
  assert (Hcwe : cwe <> []).
  { apply encode_chunks_fst in Henc. intros ->. by destruct chunks. }
  unfold Indexing.index_chunks. destruct chunks as [|c0 rest]; [done|].
  unfold Chroma.delete. run_monad. rewrite Henc.
  destruct overwrite.
  - destruct (Chroma.coll_delete collection _ _ s) as [s1|]; [|reflexivity].
    rewrite add_prepared by exact Hcwe.
    destruct (Chroma.coll_add collection _ s1); reflexivity.
  - rewrite add_prepared by exact Hcwe.
    destruct (Chroma.coll_add collection _ s); reflexivity.
Qed.

(** C8.  When [index_document] succeeds, the batch it hands to the
    collection holds one record per chunk of the document, in order; the
    chunk at position [i] has [chunk_index] equal to [i]; its identifier is
    ["{document_id}_chunk_{chunk_index}"] for that chunk's own
    [chunk_index], which is also the [chunk_index] stored in its metadata;
    and the identifiers of the batch are pairwise distinct. *)
Theorem index_document_chunk_ids (fuel : nat) (document_id file_path : string)
    (overwrite : bool) (s s' : Store) (res : Indexing.IndexResult) :
  Indexing.index_document collection embedding_function fresh_ids path_exists
    process_document encode tail text_splitter fuel document_id file_path
    overwrite s = Some (Ok res, s') ->
  exists document chunks batch s1,
    process_document file_path = Some document
    /\ SplitDocument.split_document tail text_splitter fuel document
       = Some chunks
    /\ Chroma.coll_add collection batch s1 = Ok s'
    /\ Chroma.b_documents batch = map text chunks
    /\ length (Chroma.b_ids batch) = length chunks
    /\ (forall i chunk,
          chunks !! i = Some chunk ->
          chunk_index chunk = Z.of_nat i
          /\ Chroma.b_ids batch !! i
             = Some (document_id +:+ "_chunk_"
                     +:+ str_of_int (chunk_index chunk))
          /\ exists md,
               Chroma.b_metadatas batch !! i = Some md
               /\ md !! "chunk_index" = Some (PInt (chunk_index chunk)))
    /\ NoDup (Chroma.b_ids batch).
Proof.
  unfold Indexing.index_document.
  destruct (path_exists file_path); [|discriminate]. cbn [negb].
  destruct (process_document file_path) as [document|]; [|discriminate].
  destruct (SplitDocument.split_document tail text_splitter fuel document)
    as [chunks|] eqn:Hsplit; [|discriminate].
  intros [= Hrun].
  destruct (Indexing.encode_chunks encode chunks) as [cwe|e] eqn:Henc.
  2:{ unfold Indexing.index_chunks in Hrun. revert Hrun.
      destruct chunks; [discriminate|]. run_monad. by rewrite Henc. }
  assert (Hne : chunks <> []).
  { intros ->. discriminate. }
  rewrite (index_chunks_eq document_id file_path overwrite document chunks
             cwe s Hne Henc) in Hrun.
  apply encode_chunks_fst in Henc.
  set (batch := Indexing.prepare document_id document cwe) in *.
  assert (Hstore : exists s1, Chroma.coll_add collection batch s1 = Ok s').
  { destruct (if overwrite then _ else _) as [s1|]; [|discriminate].
    exists s1. destruct (Chroma.coll_add collection batch s1);
      [|discriminate]. by injection Hrun as _ ->. }
  destruct Hstore as [s1 Hs1].
  exists document, chunks, batch, s1.
  split; [reflexivity|]. split; [exact Hsplit|]. split; [exact Hs1|].
  split; [cbn; by rewrite <- Henc, map_map|].
  split; [cbn; by rewrite length_imap, <- Henc, length_map|].
  split.
  - intros i chunk Hi.
    assert (Hidx : chunk_index chunk = Z.of_nat i).
    { unfold SplitDocument.split_document in Hsplit.
      destruct (Document.full_text document) as [txt|];
        [|injection Hsplit as <-; done].
      by destruct (split_text_chunk_ok _ _ _ _ _ _ _ _ Hsplit Hi)
        as (_ & _ & _ & _ & _ & ?). }
    rewrite <- Henc in Hi. rewrite list_lookup_fmap in Hi.
    destruct (cwe !! i) as [[c e]|] eqn:Hce; [|discriminate].
    cbn in Hi. injection Hi as ->.
    split; [exact Hidx|]. split.
    + cbn. rewrite list_lookup_imap, Hce. cbn.
      unfold Indexing.chunk_id. by rewrite Hidx.
    + eexists. split; [cbn; by rewrite list_lookup_fmap, Hce|].
      apply record_metadata_chunk_index.
  - cbn. apply NoDup_alt. intros i j id.
    rewrite !list_lookup_imap.
    destruct (cwe !! i), (cwe !! j); cbn; try discriminate.
    intros [= <-] [= H]. by apply chunk_id_inj in H.
Qed.

End Index.

(** The theorem on the sample installation: indexing the text file into an
    empty store stores three records. *)
Lemma index_document_chunk_ids_witness :
  exists res s',
    Samples.index_document 21 "doc-1" "notes.txt" false Samples.empty_store
    = Some (Ok res, s')
    /\ map MemStore.row_id (MemStore.rows s')
       = ["doc-1_chunk_0"; "doc-1_chunk_1"; "doc-1_chunk_2"]
    /\ exists document chunks batch s1,
         Samples.process_document "notes.txt" = Some document
         /\ SplitDocument.split_document fifth small_splitter 21 document
            = Some chunks
         /\ Chroma.coll_add Samples.collection batch s1 = Ok s'
         /\ Chroma.b_documents batch = map text chunks
         /\ length (Chroma.b_ids batch) = length chunks
         /\ (forall i chunk,
               chunks !! i = Some chunk ->
               chunk_index chunk = Z.of_nat i
               /\ Chroma.b_ids batch !! i
                  = Some ("doc-1" +:+ "_chunk_"
                          +:+ str_of_int (chunk_index chunk))
               /\ exists md,
                    Chroma.b_metadatas batch !! i = Some md
                    /\ md !! "chunk_index" = Some (PInt (chunk_index chunk)))
         /\ NoDup (Chroma.b_ids batch).
Proof.
  eexists _, _. split; [vm_compute; reflexivity|].
  split; [vm_compute; reflexivity|].
  eapply (index_document_chunk_ids Samples.collection None Samples.fresh_ids
           Samples.path_exists Samples.process_document Samples.encode
           fifth small_splitter 21 "doc-1" "notes.txt" false
           Samples.empty_store).
  vm_compute. reflexivity.
Defined.

End IndexFacts.

(** ** Searching *)

Module SearchFacts.
Import Py Props DeleteFacts.

Lemma seq_sorted (a n : nat) : StronglySorted lt (seq a n).
Proof.
  revert a. induction n as [|n IH]; intros a; cbn; constructor; [apply IH|].
  apply Forall_forall. intros x Hx%elem_of_seq. lia.
Qed.

Lemma filter_sorted {A} (R : A -> A -> Prop) (P : A -> Prop)
    `{!forall x, Decision (P x)} (l : list A) :
  StronglySorted R l -> StronglySorted R (filter P l).
Proof.
  induction 1 as [|x l Hl IH Hx]; [constructor|].
  rewrite filter_cons. destruct (decide (P x)); [|exact IH].
  constructor; [exact IH|].
  apply Forall_forall. intros y [_ Hy]%list_elem_of_filter.
  rewrite Forall_forall in Hx. by apply Hx.
Qed.

(** An order on one list carries over to a list related to it element by
    element. *)
Lemma sorted_transfer {A B} (R : A -> A -> Prop) (S : B -> B -> Prop)
    (P : A -> B -> Prop) (l : list A) (k : list B) :
  (forall a b x y, a ∈ l -> b ∈ l -> P a x -> P b y -> R a b -> S x y) ->
  Forall2 P l k -> StronglySorted R l -> StronglySorted S k.
Proof.
  intros HRS HF. induction HF as [|a x l k Hax HF IH]; intros Hs;
    [constructor|].
  apply StronglySorted_cons in Hs as [Ha Hs].
  constructor.
  - apply IH; [|exact Hs]. intros. eapply HRS; eauto; by right.
  - apply Forall_forall. intros y Hy.
    apply list_elem_of_lookup in Hy as [i Hi].
    destruct (Forall2_lookup_r _ _ _ _ _ HF Hi) as (b & Hb & Hby).
    rewrite Forall_forall in Ha.
    eapply HRS; [by left|right; by eapply list_elem_of_lookup_2|exact Hax
                |exact Hby|].
    apply Ha. by eapply list_elem_of_lookup_2.
Qed.

Section Search.
Context {Store Emb Num : Type}.
Variables zero one thousand : Num.
Variables sub mul : Num -> Num -> Num.
Variable ltb : Num -> Num -> bool.
Variable collection : Chroma.Collection Store Emb Num.
Variable encode_single : string -> result Emb.

Local Abbreviation score_of := (Search.score_of zero one sub ltb).
Local Abbreviation below := (Search.below ltb).
Local Abbreviation promised := (spec_score zero one sub ltb).

(** The score the service computes is the promised one, and so is the
    test of the loop: below the threshold, when there is one. *)
Lemma keeps_below (min_score : option Num) (distances : list Num) (i : nat)
    (d : Num) :
  distances !! i = Some d ->
  keeps zero one sub ltb min_score distances i
  = negb (below min_score (score_of d)).
Proof.
  intros Hd. unfold keeps, Search.below. rewrite Hd.
  change (score_of d) with (promised d). by destruct min_score.
Qed.

(** The loop adds, for the indices that pass the threshold and in their
    order, one result each. *)
Lemma collect_spec (min_score : option Num) (documents : list (list N))
    (metadatas : list (gmap string pyval)) (distances : list Num) :
  forall indices acc res,
    Search.collect zero one sub ltb min_score documents metadatas distances
      indices acc = Ok res ->
    exists new,
      res = acc ++ new
      /\ Forall2 (from_row zero one sub ltb documents metadatas distances)
           (filter (fun i => keeps zero one sub ltb min_score distances i = true)
              indices)
           new
      /\ (forall m, min_score = Some m ->
            Forall (fun r => ltb (Search.score r) m = false) new).
Proof.
  induction indices as [|i rest IH]; intros acc res; cbn [Search.collect].
  - intros [= <-]. exists []. rewrite app_nil_r.
    split; [done|]. split; [constructor|]. intros m _. constructor.
  - destruct (distances !! i) as [d|] eqn:Hd; [|discriminate].
    pose proof (keeps_below min_score distances i d Hd) as Hk.
    destruct (below min_score (score_of d)) eqn:Hb.
    + rewrite filter_cons_False by (rewrite Hk; discriminate).
      apply IH.
    + rewrite filter_cons_True by (by rewrite Hk).
      destruct (metadatas !! i) as [md|] eqn:Hmd; [|discriminate].
      destruct (documents !! i) as [doc|] eqn:Hdoc; [|discriminate].
      intros Hrest. apply IH in Hrest as (new & -> & HF & Hall).
      exists (Search.make_result doc (score_of d) md :: new).
      split; [by rewrite <- app_assoc|]. split.
      * constructor; [|exact HF]. by exists doc, md, d.
      * intros m ->. constructor; [exact Hb|by apply Hall].
Qed.

(** The loop returns when every index is inside the three lists. *)
Lemma collect_returns (min_score : option Num) (documents : list (list N))
    (metadatas : list (gmap string pyval)) (distances : list Num) :
  forall indices acc,
    Forall (fun i => (i < length documents /\ i < length metadatas
                      /\ i < length distances)%nat) indices ->
    exists res,
      Search.collect zero one sub ltb min_score documents metadatas distances
        indices acc = Ok res.
Proof.
  induction indices as [|i rest IH]; intros acc Hall; cbn [Search.collect].
  - by eexists.
  - apply Forall_cons in Hall as [(Hd & Hm & Hx) Hall].
    destruct (lookup_lt_is_Some_2 distances i Hx) as [d ->].
    destruct (lookup_lt_is_Some_2 metadatas i Hm) as [md ->].
    destruct (lookup_lt_is_Some_2 documents i Hd) as [doc ->].
    destruct (below min_score (score_of d)); by apply IH.
Qed.

(** [search] returns when the query is embedded, the collection answers,
    and the first lists of the reply are as long as its list of
    identifiers. *)
Lemma search_returns (q : Search.SearchQuery Num) (start_time end_time : Num)
    (s : Store) (emb : Emb) (reply : Chroma.QueryResult Num) :
  encode_single (Search.query q) = Ok emb ->
  Chroma.coll_query collection (Chroma.QueryEmbeddings [emb])
    (Search.top_k q)
    (if Splitter.truthy (Search.filter_metadata q)
     then Search.filter_metadata q else None)
    ["metadatas"; "documents"; "distances"] s = Ok reply ->
  (forall ids rest,
      Chroma.ids reply = Some (ids :: rest) ->
      exists documents metadatas distances,
        head (Chroma.documents reply) = Some documents
        /\ head (Chroma.metadatas reply) = Some metadatas
        /\ head (Chroma.distances reply) = Some distances
        /\ length documents = length ids
        /\ length metadatas = length ids
        /\ length distances = length ids) ->
  exists resp,
    Search.search zero one thousand sub mul ltb collection encode_single q
      start_time end_time s = (Ok resp, s).
Proof.
  intros He Hq Hlen. unfold Search.search, Chroma.search. cbn [default].
  run_monad. unfold id. rewrite He, Hq.
  enough (exists found,
             Search.process_results zero one sub ltb (Search.min_score q) reply
             = Ok found) as [found ->] by (by eexists).
  unfold Search.process_results.
  destruct (Chroma.ids reply) as [[|ids rest]|]; [by eexists| |by eexists].
  destruct (Hlen ids rest eq_refl)
    as (documents & metadatas & distances & Hd & Hm & Hx & Ld & Lm & Lx).
  destruct (Chroma.documents reply) as [|? ?]; [done|].
  destruct (Chroma.metadatas reply) as [|? ?]; [done|].
  destruct (Chroma.distances reply) as [|? ?]; [done|].
  cbn [head] in Hd, Hm, Hx. simplify_eq.
  apply collect_returns. apply Forall_forall. intros i Hi%elem_of_seq. lia.
Qed.

(** With an order on the numbers, a smaller distance gives a promised
    score that is not smaller. *)
Lemma spec_score_antitone (ok : Num -> Prop) (a b : Num) :
  ordered_on zero one sub ltb ok -> ok a -> ok b -> ascending ltb a b ->
  descending ltb (promised a) (promised b).
Proof.
  intros (H0 & Hcl & Hirr & Hasym & Htrans & Hsub) Ha Hb Hab.
  unfold descending, ascending, spec_score in *.
  pose proof (Hsub a b Ha Hb Hab) as H1.
  destruct (ltb zero (sub one a)) eqn:Ea, (ltb zero (sub one b)) eqn:Eb.
  - exact H1.
  - apply Hasym; auto.
  - rewrite (Htrans zero (sub one b) (sub one a)) in Ea; auto. discriminate.
  - by apply Hirr.
Qed.

(** C2.  When [search] returns, the collection was queried once and left
    as it was; the results are built, in the order of the reply, from
    exactly the rows whose score [max(0, 1 - distance)], that is
    [1 - distance] where that is above [0] and [0] elsewhere, is not below
    [min_score] (all rows when there is no [min_score]); each result
    carries that score of its own row's distance; no result has a score
    below [min_score]; [total_results] is their number; and when the
    distances of the reply are numbers that [<] orders (floats that are not
    NaN) and ascend, the scores of the results descend. *)
Theorem search_scores_and_order (q : Search.SearchQuery Num)
    (start_time end_time : Num) (s s' : Store)
    (resp : Search.SearchResponse Num) :
  Search.search zero one thousand sub mul ltb collection encode_single q
    start_time end_time s = (Ok resp, s') ->
  exists emb reply,
    encode_single (Search.query q) = Ok emb
    /\ Chroma.coll_query collection (Chroma.QueryEmbeddings [emb])
         (Search.top_k q)
         (if Splitter.truthy (Search.filter_metadata q)
          then Search.filter_metadata q else None)
         ["metadatas"; "documents"; "distances"] s = Ok reply
    /\ s' = s
    /\ Forall2
         (from_row zero one sub ltb (first_list (Chroma.documents reply))
            (first_list (Chroma.metadatas reply))
            (first_list (Chroma.distances reply)))
         (filter
            (fun i => keeps zero one sub ltb (Search.min_score q)
                        (first_list (Chroma.distances reply)) i = true)
            (seq 0 (length (reply_ids reply))))
         (Search.results resp)
    /\ (forall m, Search.min_score q = Some m ->
          Forall (fun r => ltb (Search.score r) m = false)
            (Search.results resp))
    /\ Search.total_results resp = len (Search.results resp)
    /\ (forall ok : Num -> Prop,
          ordered_on zero one sub ltb ok ->
          Forall ok
            (take (length (reply_ids reply))
               (first_list (Chroma.distances reply))) ->
          StronglySorted (ascending ltb)
            (take (length (reply_ids reply))
               (first_list (Chroma.distances reply))) ->
          StronglySorted
            (fun r r' => descending ltb (Search.score r) (Search.score r'))
            (Search.results resp)).
Proof.
  unfold Search.search, Chroma.search. cbn [default]. run_monad.
  destruct (encode_single (Search.query q)) as [emb|]; [|discriminate].
  destruct (Chroma.coll_query collection _ _ _ _ s) as [reply|] eqn:Hq;
    [|discriminate].
  destruct (Search.process_results zero one sub ltb (Search.min_score q) reply)
    as [found|] eqn:Hp; [|discriminate].
  intros [= <- <-]. exists emb, reply. cbn [Search.results Search.total_results].
  split; [reflexivity|]. split; [exact Hq|]. split; [reflexivity|].
  assert (HF : Forall2
            (from_row zero one sub ltb (first_list (Chroma.documents reply))
               (first_list (Chroma.metadatas reply))
               (first_list (Chroma.distances reply)))
            (filter
               (fun i => keeps zero one sub ltb (Search.min_score q)
                           (first_list (Chroma.distances reply)) i = true)
               (seq 0 (length (reply_ids reply))))
            found
          /\ (forall m, Search.min_score q = Some m ->
                Forall (fun r => ltb (Search.score r) m = false) found)).
  { unfold Search.process_results, reply_ids, first_list in *.
    destruct (Chroma.ids reply) as [[|ids ?]|];
      [injection Hp as <-; split; [constructor|intros; constructor]| |
       injection Hp as <-; split; [constructor|intros; constructor]].
    destruct (Chroma.documents reply) as [|documents ?]; [discriminate|].
    destruct (Chroma.metadatas reply) as [|metadatas ?]; [discriminate|].
    destruct (Chroma.distances reply) as [|distances ?]; [discriminate|].
    apply collect_spec in Hp as (new & -> & H1 & H2). by split. }
  destruct HF as [HF Hbelow].
  split; [exact HF|]. split; [exact Hbelow|]. split; [reflexivity|].
  intros ok Hord Hok Hasc.
  eapply sorted_transfer;
    [|exact HF|apply filter_sorted, seq_sorted].
  intros i j r r' Hi Hj (doc & md & d & _ & _ & Hd & -> & _)
    (doc' & md' & d' & _ & _ & Hd' & -> & _) Hij.
  cbn [Search.score Search.make_result].
  apply list_elem_of_filter in Hi as [_ Hi%elem_of_seq].
  apply list_elem_of_filter in Hj as [_ Hj%elem_of_seq].
  assert (Hin : take (length (reply_ids reply))
                  (first_list (Chroma.distances reply)) !! i = Some d)
    by (by rewrite lookup_take_lt by lia).
  assert (Hin' : take (length (reply_ids reply))
                   (first_list (Chroma.distances reply)) !! j = Some d')
    by (by rewrite lookup_take_lt by lia).
  rewrite Forall_forall in Hok.
  apply (spec_score_antitone ok); [exact Hord| | |].
  - apply Hok. by eapply list_elem_of_lookup_2.
  - apply Hok. by eapply list_elem_of_lookup_2.
  - assert (Hsplit : take (length (reply_ids reply))
                       (first_list (Chroma.distances reply))
                     = take (S i) (take (length (reply_ids reply))
                                     (first_list (Chroma.distances reply)))
                       ++ drop (S i) (take (length (reply_ids reply))
                                        (first_list (Chroma.distances reply))))
      by (by rewrite take_drop).
    rewrite Hsplit in Hasc.
    eapply StronglySorted_app_1_elem_of; [exact Hasc| |].
    + apply list_elem_of_lookup. exists i.
      rewrite lookup_take_lt by lia. exact Hin.
    + apply list_elem_of_lookup. exists (j - S i)%nat.
      rewrite lookup_drop. replace (S i + (j - S i))%nat with j by lia.
      exact Hin'.
Qed.

End Search.

(** The theorem on two stores.  The first ranks three records at distances
    0.1, 0.4 and 0.9 (in tenths) and is searched with [min_score] 0.5: the
    scores are 0.9, 0.6 and 0.1, and the third record is dropped.  The
    second ranks them at 0.1, 0.4 and 1.5 and is searched without a
    threshold: the third score is 0, not -0.5. *)
Lemma search_scores_and_order_witness :
  (exists resp,
      Samples.search Samples.sample_query 0 3 Samples.ranked_rows
      = (Ok resp, Samples.ranked_rows)
      /\ map Search.score (Search.results resp) = [9; 6]
      /\ Search.total_results resp = 2
      /\ Forall (fun r => Z.ltb (Search.score r) 5 = false)
           (Search.results resp)
      /\ StronglySorted
           (fun r r' => descending Z.ltb (Search.score r) (Search.score r'))
           (Search.results resp))
  /\ (exists resp,
        Samples.search Samples.open_query 0 3 Samples.distant_rows
        = (Ok resp, Samples.distant_rows)
        /\ map Search.score (Search.results resp) = [9; 6; 0]
        /\ Forall2
             (fun d r =>
                Search.score r = (if Z.ltb 0 (10 - d) then 10 - d else 0))
             [1; 4; 15] (Search.results resp)
        /\ StronglySorted
             (fun r r' => descending Z.ltb (Search.score r) (Search.score r'))
             (Search.results resp)).
Proof.
  assert (Hord : ordered_on 0 10 Z.sub Z.ltb (fun _ => True))
    by (unfold ordered_on; repeat split; intros; lia).
  split.
  - eexists. split; [vm_compute; reflexivity|].
    split; [vm_compute; reflexivity|]. split; [vm_compute; reflexivity|].
    edestruct (search_scores_and_order 0 10 1000 Z.sub Z.mul Z.ltb
                 Samples.collection Samples.encode_single Samples.sample_query
                 0 3 Samples.ranked_rows)
      as (emb & reply & _ & Hq & _ & _ & Hbelow & _ & Hsorted);
      [vm_compute; reflexivity|].
    split; [exact (Hbelow 5 eq_refl)|].
    apply (Hsorted (fun _ => True) Hord).
    + apply Forall_forall. done.
    + vm_compute in Hq. injection Hq as <-. vm_compute.
      repeat constructor.
  - eexists. split; [vm_compute; reflexivity|].
    split; [vm_compute; reflexivity|].
    edestruct (search_scores_and_order 0 10 1000 Z.sub Z.mul Z.ltb
                 Samples.collection Samples.encode_single Samples.open_query
                 0 3 Samples.distant_rows)
      as (emb & reply & _ & Hq & _ & _ & _ & _ & Hsorted);
      [vm_compute; reflexivity|].
    split; [vm_compute; repeat constructor|].
    apply (Hsorted (fun _ => True) Hord).
    + apply Forall_forall. done.
    + vm_compute in Hq. injection Hq as <-. vm_compute.
      repeat constructor.
Defined.

End SearchFacts.

(** ** The cache *)

Module CacheFacts.
Import LRUCache.

Lemma list_remove_subseteq (x : string) (l : list string) :
  forall y, y ∈ list_remove x l -> y ∈ l.
Proof.
  induction l as [|z l IH]; intros y; cbn; [done|].
  destruct (decide (z = x)); rewrite !elem_of_cons; naive_solver.
Qed.

Lemma list_remove_elem_of (x : string) (l : list string) (y : string) :
  NoDup l -> y ∈ list_remove x l <-> y ∈ l /\ y <> x.
Proof.
  induction l as [|z l IH]; cbn; intros Hnd.
  - rewrite elem_of_nil. naive_solver.
  - apply NoDup_cons in Hnd as [Hz Hnd]. specialize (IH Hnd).
    destruct (decide (z = x)) as [->|Hzx]; rewrite !elem_of_cons.
    + split; [intros Hy; split; [by right|by intros ->]|naive_solver].
    + rewrite IH. naive_solver.
Qed.

Lemma list_remove_NoDup (x : string) (l : list string) :
  NoDup l -> NoDup (list_remove x l).
Proof.
  induction l as [|z l IH]; cbn; intros Hnd; [constructor|].
  apply NoDup_cons in Hnd as [Hz Hnd].
  destruct (decide (z = x)); [exact Hnd|].
  apply NoDup_cons. split; [|by apply IH].
  intros Hin. by apply Hz, (list_remove_subseteq x).
Qed.

Lemma list_remove_sorted (R : string -> string -> Prop) (x : string)
    (l : list string) :
  StronglySorted R l -> StronglySorted R (list_remove x l).
Proof.
  induction 1 as [|z l Hl IH Hz]; cbn; [constructor|].
  destruct (decide (z = x)); [exact Hl|].
  constructor; [exact IH|].
  rewrite Forall_forall in *. intros y Hy.
  by apply Hz, (list_remove_subseteq x).
Qed.

Lemma sorted_impl (R R' : string -> string -> Prop) (l : list string) :
  (forall a b, a ∈ l -> b ∈ l -> R a b -> R' a b) ->
  StronglySorted R l -> StronglySorted R' l.
Proof.
  intros HR Hs. induction Hs as [|z l Hl IH Hz]; [constructor|].
  constructor.
  - apply IH. intros a b Ha Hb. apply HR; by right.
  - rewrite Forall_forall in *. intros y Hy.
    apply HR; [by left|by right|by apply Hz].
Qed.

Section Cache.
Variables Args V : Type.
Variable _make_key : Args -> string.

Local Abbreviation LRUCache := (LRUCache V).
Local Abbreviation call := (call Args V).
Local Abbreviation idle := (idle Args V _make_key).
Local Abbreviation after := (after Args V _make_key).

(** The list without [key], which [bump] puts [key] behind. *)
Lemma bump_eq (key : string) (order : list string) :
  NoDup order ->
  exists rest,
    bump key order = rest ++ [key]
    /\ NoDup rest /\ (key ∉ rest)
    /\ (forall y, y ∈ rest <-> y ∈ order /\ y <> key)
    /\ (forall R, StronglySorted R order -> StronglySorted R rest).
Proof.
  intros Hnd. unfold bump. case_bool_decide as Hin.
  - exists (list_remove key order). split; [reflexivity|].
    split; [by apply list_remove_NoDup|].
    split; [rewrite list_remove_elem_of by done; naive_solver|].
    split; [intros y; by apply list_remove_elem_of|].
    intros R. apply list_remove_sorted.
  - exists order. split; [reflexivity|]. split; [done|]. split; [done|].
    split; [intros y; naive_solver|done].
Qed.

(** The calls that use a key make it the most recent and age the others. *)
Lemma idle_cons (c : call) (h : list call) (k : string) :
  idle (c :: h) k
  = if bool_decide (key_of Args V _make_key c = Some k) then O
    else S (idle h k).
Proof. reflexivity. Qed.

(** Ageing every key of a list by one call keeps their order. *)
Lemma aged_sorted (c : call) (h : list call) (l : list string) :
  (forall a, a ∈ l -> key_of Args V _make_key c <> Some a) ->
  StronglySorted (fun a b => (idle h b < idle h a)%nat) l ->
  StronglySorted (fun a b => (idle (c :: h) b < idle (c :: h) a)%nat) l.
Proof.
  intros Hl. apply sorted_impl. intros a b Ha Hb Hab.
  rewrite !idle_cons.
  rewrite !bool_decide_eq_false_2 by (by apply Hl). lia.
Qed.

(** After a call that uses [key], the bumped list is ordered by recency
    again. *)
Lemma bump_sorted (c : call) (h : list call) (key : string)
    (order : list string) :
  key_of Args V _make_key c = Some key -> NoDup order ->
  StronglySorted (fun a b => (idle h b < idle h a)%nat) order ->
  StronglySorted (fun a b => (idle (c :: h) b < idle (c :: h) a)%nat)
    (bump key order).
Proof.
  intros Hkey Hnd Hs.
  destruct (bump_eq key order Hnd) as (rest & -> & _ & Hk & Hrest & Hsorted).
  apply StronglySorted_app. split; [|split].
  - intros a b Ha ->%list_elem_of_singleton. rewrite !idle_cons.
    rewrite bool_decide_eq_true_2 by done.
    rewrite bool_decide_eq_false_2; [lia|].
    rewrite Hkey. intros [= ->]. done.
  - apply aged_sorted; [|by apply Hsorted].
    intros a Ha. rewrite Hkey. intros [= ->]. done.
  - repeat constructor.
Qed.

(** What holds of the cache after any history of calls: the access list
    has no duplicates, lists exactly the cached keys, and is ordered from
    the least to the most recently used; and a cache made for at least one
    entry never holds more than [maxsize]. *)
Lemma after_invariant (m : Z) (h : list call) :
  let c := after m h in
  maxsize V c = m
  /\ NoDup (access_order V c)
  /\ (forall k, k ∈ access_order V c <-> is_Some (cache V c !! k))
  /\ StronglySorted (fun a b => (idle h b < idle h a)%nat) (access_order V c)
  /\ (1 <= m -> size V c <= m).
Proof.
  induction h as [|c h IH]; cbn zeta.
  { cbn. repeat split; try constructor; try done.
    - by intros ?%elem_of_nil.
    - intros [? H]. by rewrite lookup_empty in H.
    - intros ?. unfold size. cbn. rewrite map_size_empty. lia. }
  destruct IH as (Hm & Hnd & Hkeys & Hs & Hsz).
  cbn [LRUCache.after]. set (self := after m h) in *.
  destruct c as [args|value args|]; cbn [step].
  - (* get *)
    unfold get. destruct (cache V self !! _make_key args) as [v|] eqn:Hk;
      cbn [snd maxsize cache access_order].
    + destruct (bump_eq (_make_key args) (access_order V self) Hnd)
        as (rest & Hb & Hnd' & Hk' & Hrest & _).
      split; [done|]. split.
      { rewrite Hb. apply NoDup_app. split; [done|]. split; [|constructor; [|constructor]; by intros ?%elem_of_nil].
        intros y Hy ->%list_elem_of_singleton. done. }
      split.
      { intros k. rewrite Hb, elem_of_app, list_elem_of_singleton, Hrest, Hkeys.
        split; [intros [[? _]| ->]; [done|by eexists]|].
        intros Hsome. destruct (decide (k = _make_key args)); [by right|by left]. }
      split; [by apply bump_sorted|].
      intros H1. by apply Hsz.
    + split; [done|]. split; [done|]. split; [done|].
      split; [|done].
      apply aged_sorted; [|done].
      intros a Ha%Hkeys. cbn. intros [= Heq]. rewrite Heq, Hk in *.
      by destruct Ha.
  - (* set *)
    unfold set.
    destruct ((maxsize V self <=? Z.of_nat (base.size (cache V self)))
              && bool_decide (cache V self !! _make_key args = None))
      eqn:Hfull.
    + apply andb_true_iff in Hfull as [Hcap Hnew].
      apply Z.leb_le in Hcap. apply bool_decide_eq_true in Hnew.
      destruct (access_order V self) as [|oldest rest] eqn:Ho;
        cbn [snd maxsize cache access_order].
      { rewrite Ho. repeat split; try done; try constructor.
        - by intros ?%Hkeys.
        - intros ?%Hkeys. by apply elem_of_nil in H. }
      assert (Hold : is_Some (cache V self !! oldest))
        by (apply Hkeys; by left).
      destruct Hold as [vo Hvo]. rewrite Hvo.
      cbn [snd maxsize cache access_order].
      apply NoDup_cons in Hnd as [Hold Hnd].
      apply StronglySorted_cons in Hs as [Hforall Hs].
      assert (Hkr : _make_key args ∉ rest).
      { intros Hin. assert (Hin' : _make_key args ∈ oldest :: rest) by (by right).
        apply Hkeys in Hin'. rewrite Hnew in Hin'. by destruct Hin'. }
      destruct (bump_eq (_make_key args) rest Hnd)
        as (rest' & Hb & Hnd' & Hk' & Hrest & _).
      split; [done|]. split.
      { rewrite Hb. apply NoDup_app. split; [done|].
        split; [|constructor; [|constructor]; by intros ?%elem_of_nil].
        intros y Hy ->%list_elem_of_singleton. done. }
      split.
      { intros k. rewrite Hb, elem_of_app, list_elem_of_singleton, Hrest.
        rewrite lookup_insert_is_Some, lookup_delete_is_Some.
        rewrite <- Hkeys, elem_of_cons.
        split.
        - intros [[Hk _]| ->]; [|by left].
          right. split; [by intros <-|]. split; [by intros <-|by right].
        - intros [<-|(Hne & Hne' & [->|Hin])]; [by right|done|by left]. }
      split; [by apply bump_sorted|].
      intros H1. specialize (Hsz H1). unfold size in *.
      cbn [cache]. rewrite map_size_insert_None
        by (rewrite lookup_delete_ne; [done|by intros ->; rewrite Hvo in Hnew]).
      rewrite map_size_delete_Some by done.
      assert (base.size (cache V self) <> 0%nat).
      { intros H0. apply map_size_empty_iff in H0. rewrite H0 in Hvo.
        by rewrite lookup_empty in Hvo. }
      lia.
    + cbn [snd maxsize cache access_order].
      destruct (bump_eq (_make_key args) (access_order V self) Hnd)
        as (rest & Hb & Hnd' & Hk' & Hrest & _).
      split; [done|]. split.
      { rewrite Hb. apply NoDup_app. split; [done|].
        split; [|constructor; [|constructor]; by intros ?%elem_of_nil].
        intros y Hy ->%list_elem_of_singleton. done. }
      split.
      { intros k. rewrite Hb, elem_of_app, list_elem_of_singleton, Hrest.
        rewrite lookup_insert_is_Some, Hkeys.
        split; [intros [[? ?]| ->]; [by right|by left]|].
        intros [<-|[? ?]]; [by right|by left]. }
      split; [by apply bump_sorted|].
      intros H1. specialize (Hsz H1). unfold size in *. cbn [cache].
      apply andb_false_iff in Hfull as [Hcap|Hnew].
      * apply Z.leb_gt in Hcap. rewrite Hm in Hcap.
        destruct (cache V self !! _make_key args) eqn:Hk.
        -- rewrite map_size_insert_Some by done. lia.
        -- rewrite map_size_insert_None by done. lia.
      * apply bool_decide_eq_false in Hnew.
        rewrite map_size_insert_Some; [done|].
        by destruct (cache V self !! _make_key args).
  - (* clear *)
    unfold clear. cbn [maxsize cache access_order].
    repeat split; try constructor; try done.
    + by intros ?%elem_of_nil.
    + intros [? H]. by rewrite lookup_empty in H.
    + intros ?. unfold size. cbn [cache]. rewrite map_size_empty. lia.
Qed.

(** A cache made with [maxsize <= 0] never holds anything. *)
Lemma after_no_capacity (m : Z) (h : list call) :
  m <= 0 ->
  cache V (after m h) = ∅ /\ access_order V (after m h) = []
  /\ maxsize V (after m h) = m.
Proof.
  intros Hm. induction h as [|c h (Hc & Ho & Hmax)]; [done|].
  cbn [LRUCache.after]. destruct c as [args|value args|]; cbn [step].
  - unfold get. rewrite Hc, lookup_empty. done.
  - unfold set. rewrite Hc, Ho, Hmax, lookup_empty, map_size_empty.
    rewrite (proj2 (Z.leb_le m (Z.of_nat 0))) by lia.
    rewrite bool_decide_eq_true_2 by done. cbn [andb snd]. done.
  - unfold clear. cbn. done.
Qed.

Lemma bump_last (key : string) (order : list string) :
  last (bump key order) = Some key.
Proof. unfold bump. apply last_snoc. Qed.

(** C3.  With three arguments whose keys differ and [maxsize = 2], after
    [set(v1, a)], [set(v2, b)], [get(a)], [set(v3, c)] (none of which
    raises) [get(b)] misses, [get(a)] and [get(c)] hit and [size()] is 2.
    In general, after any history of calls on a cache: a [set] of a new
    key at capacity, when the cache holds an entry, succeeds, removes the
    one cached key that was used least recently (every other cached key
    was used by a later [get] or [set]) and then inserts the new entry, the
    size staying the same; with [maxsize >= 1] a cache at capacity does
    hold an entry, and with [maxsize <= 0] the cache stays empty and [set]
    raises [IndexError]; a [set] of a cached key succeeds, replaces the
    value, evicts nothing and makes the key the most recently used; a [get]
    of a cached key returns its value and makes the key the most recently
    used; and the size stays between 0 and [maxsize]. *)
Theorem lru_cache_spec :
  (forall (a b c : Args) (v1 v2 v3 : V),
      _make_key a <> _make_key b -> _make_key a <> _make_key c ->
      _make_key b <> _make_key c ->
      let c0 := init V 2 in
      let c1 := snd (set Args V _make_key c0 v1 a) in
      let c2 := snd (set Args V _make_key c1 v2 b) in
      let c3 := snd (get Args V _make_key c2 a) in
      let c4 := snd (set Args V _make_key c3 v3 c) in
      fst (set Args V _make_key c0 v1 a) = Ok tt
      /\ fst (set Args V _make_key c1 v2 b) = Ok tt
      /\ fst (get Args V _make_key c2 a) = Some v1
      /\ fst (set Args V _make_key c3 v3 c) = Ok tt
      /\ fst (get Args V _make_key c4 b) = None
      /\ fst (get Args V _make_key c4 a) = Some v1
      /\ fst (get Args V _make_key c4 c) = Some v3
      /\ size V c4 = 2)
  /\ (forall (m : Z) (h : list call) (value : V) (args : Args),
        let self := after m h in
        let key := _make_key args in
        (m <= size V self -> cache V self !! key = None ->
         cache V self <> ∅ ->
         exists oldest self',
           is_Some (cache V self !! oldest)
           /\ (forall k, is_Some (cache V self !! k) -> k <> oldest ->
                         (idle h k < idle h oldest)%nat)
           /\ set Args V _make_key self value args = (Ok tt, self')
           /\ cache V self' = <[key := value]> (delete oldest (cache V self))
           /\ size V self' = size V self)
        /\ (1 <= m -> m <= size V self -> cache V self <> ∅)
        /\ (m <= 0 ->
            cache V self = ∅
            /\ set Args V _make_key self value args = (Raise IndexError, self))
        /\ (is_Some (cache V self !! key) ->
            exists self',
              set Args V _make_key self value args = (Ok tt, self')
              /\ cache V self' = <[key := value]> (cache V self)
              /\ size V self' = size V self
              /\ last (access_order V self') = Some key)
        /\ (forall v, cache V self !! key = Some v ->
            exists self',
              get Args V _make_key self args = (Some v, self')
              /\ cache V self' = cache V self
              /\ last (access_order V self') = Some key)
        /\ 0 <= size V self <= Z.max 0 m).
Proof.
  split.
  - intros a b c v1 v2 v3 Hab Hac Hbc. lazy zeta.
    set (ka := _make_key a) in *. set (kb := _make_key b) in *.
    set (kc := _make_key c) in *.
    assert (H1 : set Args V _make_key (init V 2) v1 a
                 = (Ok tt, {| maxsize := 2; cache := {[ ka := v1 ]};
                              access_order := [ka] |})).
    { unfold set, init, bump. cbn [maxsize cache access_order].
      rewrite map_size_empty. cbn. by rewrite insert_empty. }
    rewrite H1. cbn [fst snd].
    assert (H2 : set Args V _make_key
                   {| maxsize := 2; cache := {[ ka := v1 ]};
                      access_order := [ka] |} v2 b
                 = (Ok tt, {| maxsize := 2;
                              cache := <[ kb := v2 ]> {[ ka := v1 ]};
                              access_order := [ka; kb] |})).
    { unfold set, bump. cbn [maxsize cache access_order]. fold kb.
      rewrite map_size_singleton.
      change (2 <=? Z.of_nat 1) with false. cbn [andb].
      rewrite bool_decide_eq_false_2
        by (rewrite list_elem_of_singleton; congruence).
      reflexivity. }
    rewrite H2. cbn [fst snd].
    assert (H3 : get Args V _make_key
                   {| maxsize := 2; cache := <[ kb := v2 ]> {[ ka := v1 ]};
                      access_order := [ka; kb] |} a
                 = (Some v1, {| maxsize := 2;
                                cache := <[ kb := v2 ]> {[ ka := v1 ]};
                                access_order := [kb; ka] |})).
    { unfold get, bump. cbn [maxsize cache access_order]. fold ka.
      rewrite lookup_insert_ne by done. rewrite lookup_singleton_eq.
      rewrite bool_decide_eq_true_2 by (by left).
      cbn [list_remove]. by rewrite decide_True by done. }
    rewrite H3. cbn [fst snd].
    assert (Hsize : base.size (<[ kb := v2 ]> ({[ ka := v1 ]} : gmap string V))
                    = 2%nat).
    { rewrite map_size_insert_None by (by rewrite lookup_singleton_ne).
      by rewrite map_size_singleton. }
    assert (H4 : set Args V _make_key
                   {| maxsize := 2; cache := <[ kb := v2 ]> {[ ka := v1 ]};
                      access_order := [kb; ka] |} v3 c
                 = (Ok tt, {| maxsize := 2;
                              cache := <[ kc := v3 ]>
                                         (delete kb (<[ kb := v2 ]> {[ ka := v1 ]}));
                              access_order := [ka; kc] |})).
    { unfold set, bump. cbn [maxsize cache access_order]. fold kc.
      rewrite Hsize. change (2 <=? Z.of_nat 2) with true. cbn [andb].
      rewrite bool_decide_eq_true_2
        by (rewrite lookup_insert_ne by done; by rewrite lookup_singleton_ne).
      rewrite lookup_insert_eq.
      rewrite bool_decide_eq_false_2
        by (rewrite list_elem_of_singleton; congruence).
      reflexivity. }
    rewrite H4. cbn [fst snd].
    repeat split.
    + unfold get. cbn [cache]. fold kb.
      rewrite lookup_insert_ne by done. by rewrite lookup_delete_eq.
    + unfold get. cbn [cache]. fold ka.
      rewrite lookup_insert_ne by done. rewrite lookup_delete_ne by done.
      rewrite lookup_insert_ne by done. by rewrite lookup_singleton_eq.
    + unfold get. cbn [cache]. fold kc. by rewrite lookup_insert_eq.
    + unfold size. cbn [cache].
      rewrite map_size_insert_None
        by (rewrite lookup_delete_ne by done;
            rewrite lookup_insert_ne by done; by rewrite lookup_singleton_ne).
      rewrite map_size_delete_Some by (by rewrite lookup_insert_eq).
      by rewrite Hsize.
  - intros m h value args self key.
    destruct (after_invariant m h) as (Hm & Hnd & Hkeys & Hs & Hsz).
    fold self in Hm, Hnd, Hkeys, Hs, Hsz.
    split; [|split; [|split; [|split; [|split]]]].
    + intros Hcap Hnew Hne. unfold set. fold key.
      rewrite Hm. unfold size in Hcap.
      rewrite (proj2 (Z.leb_le _ _) Hcap).
      rewrite bool_decide_eq_true_2 by done. cbn [andb].
      destruct (access_order V self) as [|oldest rest] eqn:Ho.
      { exfalso. apply map_choose in Hne as (k & v & Hk).
        assert (Hin : k ∈ ([] : list string)) by (apply Hkeys; by eexists).
        by apply elem_of_nil in Hin. }
      assert (Hold : is_Some (cache V self !! oldest))
        by (apply Hkeys; by left).
      destruct Hold as [vo Hvo]. rewrite Hvo.
      eexists oldest, _. split; [by eexists|]. split; [|split; [reflexivity|]].
      * intros k Hk Hneq. apply Hkeys in Hk.
        apply elem_of_cons in Hk as [->|Hk]; [done|].
        apply StronglySorted_cons in Hs as [Hall _].
        rewrite Forall_forall in Hall. by apply Hall.
      * cbn [cache]. split; [reflexivity|].
        unfold size. cbn [cache].
        rewrite map_size_insert_None
          by (rewrite lookup_delete_ne; [done|intros ->; by rewrite Hvo in Hnew]).
        rewrite map_size_delete_Some by done.
        assert (base.size (cache V self) <> 0%nat).
        { intros H0. apply map_size_empty_iff in H0. rewrite H0 in Hvo.
          by rewrite lookup_empty in Hvo. }
        lia.
    + intros H1 Hcap. apply map_size_non_empty_iff. unfold size in Hcap. lia.
    + intros H0. destruct (after_no_capacity m h H0) as (Hc & Ho & _).
      fold self in Hc, Ho. split; [exact Hc|].
      unfold set. rewrite Hm, Hc, Ho, lookup_empty, map_size_empty.
      rewrite (proj2 (Z.leb_le m (Z.of_nat 0))) by lia.
      by rewrite bool_decide_eq_true_2 by done.
    + intros [v Hv]. unfold set. fold key.
      rewrite (bool_decide_eq_false_2 (cache V self !! key = None))
        by (by rewrite Hv).
      rewrite andb_false_r.
      eexists. split; [reflexivity|]. cbn [cache access_order].
      split; [reflexivity|]. split; [|apply bump_last].
      unfold size. cbn [cache]. by rewrite map_size_insert_Some.
    + intros v Hv. unfold get. fold key. rewrite Hv.
      eexists. split; [reflexivity|]. cbn [cache access_order].
      split; [reflexivity|apply bump_last].
    + destruct (Z.le_gt_cases 1 m) as [H1|H0].
      * specialize (Hsz H1). unfold size in *. lia.
      * destruct (after_no_capacity m h ltac:(lia)) as (Hc & _).
        fold self in Hc. unfold size. rewrite Hc, map_size_empty. lia.
Qed.

End Cache.

(** The theorem on a cache of integers keyed by strings. *)
Lemma lru_cache_spec_witness :
  let c4 :=
    after string Z Samples.string_key 2
      (CallSet string Z 3 "c" :: Samples.three_calls) in
  let c3 := after string Z Samples.string_key 2 Samples.three_calls in
  fst (get string Z Samples.string_key c4 "b") = None
  /\ fst (get string Z Samples.string_key c4 "a") = Some 1
  /\ fst (get string Z Samples.string_key c4 "c") = Some 3
  /\ size Z c4 = 2
  /\ exists oldest self',
       is_Some (cache Z c3 !! oldest)
       /\ (forall k, is_Some (cache Z c3 !! k) -> k <> oldest ->
                     (idle string Z Samples.string_key Samples.three_calls k
                      < idle string Z Samples.string_key Samples.three_calls
                          oldest)%nat)
       /\ set string Z Samples.string_key c3 3 "c" = (Ok tt, self')
       /\ cache Z self' = <["c" := 3]> (delete oldest (cache Z c3))
       /\ size Z self' = size Z c3.
Proof.
  intros c4 c3.
  destruct (lru_cache_spec string Z Samples.string_key) as [Hscenario Hgeneral].
  destruct (Hscenario "a" "b" "c" 1 2 3) as (_ & _ & _ & _ & Hb & Ha & Hc & Hsize);
    [discriminate|discriminate|discriminate|].
  split; [exact Hb|]. split; [exact Ha|]. split; [exact Hc|].
  split; [exact Hsize|].
  destruct (Hgeneral 2 Samples.three_calls 3 "c") as (Hevict & _).
  apply Hevict; [vm_compute; discriminate|vm_compute; reflexivity|].
  intros Hempty.
  apply (f_equal (fun m : gmap string Z => m !! "a")) in Hempty.
  vm_compute in Hempty. discriminate.
Defined.

End CacheFacts.

(** ** The splitter: where the chunks lie *)

Module WindowFacts.
Import Py Regex Splitter PyFacts SplitterFacts Props ChunkFacts ChunkInvariant.

(** A trimmed text does not begin with whitespace. *)
Lemma strip_head (s : list N) (c : N) (r : list N) :
  strip s = c :: r -> isspace c = false.
Proof.
  intros Hs.
  assert (Hl : lstrip (strip s) = strip s).
  { unfold strip. apply lstrip_rstrip, lstrip_idem. }
  rewrite Hs in Hl. simpl in Hl.
  destruct (isspace c); [|reflexivity].
  pose proof (lstrip_length r) as Hlen. rewrite Hl in Hlen. simpl in Hlen. lia.
Qed.

(** Trimming a text that begins with a letter leaves something. *)
Lemma strip_cons_nonspace (c : N) (l : list N) :
  isspace c = false -> strip (c :: l) <> [].
Proof.
  intros Hc. unfold strip. simpl. rewrite Hc. unfold rstrip. simpl.
  destruct (lstrip_snoc (rev l) c Hc) as [l' ->].
  rewrite rev_app_distr. simpl. discriminate.
Qed.

(** Trimming a text that ends with whitespace makes it shorter. *)
Lemma strip_snoc_space (l : list N) (c : N) :
  isspace c = true -> (length (strip (l ++ [c])) < length (l ++ [c]))%nat.
Proof.
  intros Hc.
  assert (Hl : lstrip (l ++ [c]) = []
               \/ exists u, lstrip (l ++ [c]) = u ++ [c]
                            /\ (length u <= length l)%nat).
  { induction l as [|x l IH]; simpl.
    - rewrite Hc. by left.
    - destruct (isspace x).
      + destruct IH as [IH|(u & IH & Hu)]; [by left|].
        right. exists u. split; [done|lia].
      + right. by exists (x :: l). }
  rewrite length_app. simpl. unfold strip, rstrip. rewrite length_rev.
  destruct Hl as [->|(u & -> & Hu)]; [simpl; lia|].
  rewrite rev_app_distr. simpl. rewrite Hc.
  pose proof (lstrip_length (rev u)) as H. rewrite length_rev in H. lia.
Qed.

(** A greedy repetition that consumed something ends on a character of
    its class. *)
Lemma span_len_last (p : N -> bool) (s : list N) (k : nat) :
  span_len p s = S k -> exists c, s !! k = Some c /\ p c = true.
Proof.
  revert k. induction s as [|c r IH]; intros k; simpl; [discriminate|].
  destruct (p c) eqn:Hc; [|discriminate].
  intros [= Hk]. destruct k as [|k]; [by exists c|].
  simpl. by apply IH.
Qed.

(** Every alternative of the boundary pattern ends in whitespace. *)
Lemma match_here_space (s : list N) (n : nat) :
  match_here s = Some n ->
  exists c, s !! (n - 1)%nat = Some c /\ isspace c = true.
Proof.
  assert (Hnl : forall c, is_newline c = true -> isspace c = true).
  { intros c Hc. unfold is_newline in Hc. apply N.eqb_eq in Hc. by subst. }
  assert (Hspan : forall p c r,
            negb (Nat.eqb (span_len p r) 0) = true ->
            (forall x, p x = true -> isspace x = true) ->
            exists x, (c :: r) !! (span_len p r - 0)%nat = Some x
                      /\ isspace x = true).
  { intros p c r Hk Hp. apply negb_true_iff, Nat.eqb_neq in Hk.
    destruct (span_len p r) as [|k] eqn:Hs; [done|].
    apply span_len_last in Hs as (x & Hx & Hpx).
    exists x. rewrite Nat.sub_0_r. auto. }
  destruct s as [|c r]; simpl; [discriminate|].
  destruct (is_terminal c && _) eqn:H1.
  { intros [= <-]. apply andb_true_iff in H1 as [_ H1]. simpl.
    by apply Hspan. }
  destruct (is_dot c && _) eqn:H2.
  { intros [= <-]. apply andb_true_iff in H2 as [_ H2]. simpl.
    by apply Hspan. }
  destruct (is_newline c && _) eqn:H3; [|discriminate].
  intros [= <-]. apply andb_true_iff in H3 as [_ H3]. simpl.
  by apply Hspan.
Qed.

Lemma finditer_from_space (s : list N) :
  forall pos skip,
    Forall (fun m => (pos < snd m)%nat
                     /\ exists c, s !! (snd m - 1 - pos)%nat = Some c
                                  /\ isspace c = true)
      (finditer_from pos skip s).
Proof.
  induction s as [|c r IH]; intros pos skip; cbn [finditer_from];
    [constructor|].
  assert (Hrest : forall k,
            Forall (fun m => (pos < snd m)%nat
                             /\ exists x, (c :: r) !! (snd m - 1 - pos)%nat = Some x
                                          /\ isspace x = true)
              (finditer_from (S pos) k r)).
  { intros k. eapply Forall_impl; [apply (IH (S pos) k)|]. cbn beta.
    intros m (Hm & x & Hx & Hp). split; [lia|]. exists x. split; [|done].
    replace (snd m - 1 - pos)%nat with (S (snd m - 1 - S pos)) by lia.
    exact Hx. }
  destruct skip as [|k]; [|apply Hrest].
  destruct (match_here (c :: r)) as [n|] eqn:Hm; [|apply Hrest].
  constructor; [|apply Hrest].
  pose proof (match_here_bounds _ _ Hm) as Hn.
  apply match_here_space in Hm as (x & Hx & Hp).
  cbn [snd]. split; [lia|]. exists x. split; [|done].
  by replace (pos + n - 1 - pos)%nat with (n - 1)%nat by lia.
Qed.

Section Windows.
Variable tail : Z -> Z.
Variable self : TextSplitter.
Variable txt : list N.
Variable md : option (gmap string pyval).

(** A window is at most [chunk_size] wide. *)
Lemma window_end_width (pos : Z) :
  1 <= chunk_size self -> 0 <= pos ->
  window_end tail self txt pos <= pos + chunk_size self.
Proof.
  intros Hcs Hpos. unfold window_end.
  destruct (Z.ltb_spec (Z.min (pos + chunk_size self) (len txt)) (len txt));
    [|lia].
  destruct (last _) as [m|] eqn:Hl; [|lia].
  apply finditer_last_bounds in Hl.
  set (e := Z.min (pos + chunk_size self) (len txt)) in *.
  set (a := Z.max pos (e - tail (chunk_size self))) in *.
  assert (He : 0 <= e <= pos + chunk_size self).
  { unfold e. pose proof (len_nonneg txt). lia. }
  pose proof (slice_length_le txt a e ltac:(lia) ltac:(lia)). lia.
Qed.

(** A window that was cut before the hard cutoff ends right after a
    whitespace character. *)
Lemma window_end_space (pos : Z) :
  0 <= pos ->
  window_end tail self txt pos < len txt ->
  window_end tail self txt pos < pos + chunk_size self ->
  exists c, txt !! Z.to_nat (window_end tail self txt pos - 1) = Some c
            /\ isspace c = true.
Proof.
  intros Hpos. unfold window_end.
  destruct (Z.ltb_spec (Z.min (pos + chunk_size self) (len txt)) (len txt));
    [|lia].
  set (e := Z.min (pos + chunk_size self) (len txt)) in *.
  set (a := Z.max pos (e - tail (chunk_size self))) in *.
  destruct (last _) as [m|] eqn:Hl; [|lia].
  intros _ _.
  pose proof (finditer_last_bounds _ _ Hl) as Hb.
  apply last_Some_elem_of in Hl.
  pose proof (finditer_from_space (slice txt a e) 0 0) as HF.
  rewrite Forall_forall in HF. destruct (HF m Hl) as (_ & c & Hc & Hp).
  exists c. split; [|done].
  unfold slice, clamp_index in Hc.
  destruct (Z.ltb_spec a 0); [lia|].
  apply lookup_take_Some in Hc as [Hc _].
  rewrite lookup_drop in Hc.
  pose proof (lookup_lt_Some _ _ _ Hc) as Hlt.
  rewrite <- Hc. f_equal. unfold len in *. lia.
Qed.

(** The chunks of the loop are windows cut at cursors inside the text, and
    all but the first are at least [min_chunk_size] long. *)
Lemma loop_chunks_windows (fuel : nat) (result : list Chunk) :
  1 <= chunk_size self ->
  split_loop tail self fuel txt md
    {| current_pos := 0; next_index := 0; chunks := [] |} = Some result ->
  forall i c, result !! i = Some c ->
    exists pos,
      0 <= pos < len txt
      /\ c = make_chunk md (strip (slice txt pos (window_end tail self txt pos)))
               (Z.of_nat i) pos (window_end tail self txt pos)
      /\ (i <> O -> min_chunk_size self <= char_count c).
Proof.
  intros Hcs Hrun.
  set (P := fun st : loop_state =>
              0 <= current_pos st /\ next_index st = len (chunks st)
              /\ forall i c, chunks st !! i = Some c ->
                   exists pos,
                     0 <= pos < len txt
                     /\ c = make_chunk md
                              (strip (slice txt pos (window_end tail self txt pos)))
                              (Z.of_nat i) pos (window_end tail self txt pos)
                     /\ (i <> O -> min_chunk_size self <= char_count c)).
  enough (Hstep : forall st, P st -> current_pos st < len txt ->
                             P (loop_body tail self txt md st)).
  { destruct (split_loop_invariant tail self txt md P Hstep fuel
                {| current_pos := 0; next_index := 0; chunks := [] |} result)
      as (st' & (_ & _ & Hst') & <- & _);
      [by repeat split|exact Hrun|exact Hst']. }
  intros st (Hpos & Hidx & Hall) Hlt. unfold P.
  pose proof (window_end_gt tail self txt (current_pos st) Hcs Hlt) as Hgt.
  split; [|split].
  - rewrite loop_body_pos.
    pose proof (advance_gt self _ _ Hgt). lia.
  - unfold loop_body. cbn [next_index chunks].
    destruct (_ || _); [|done].
    unfold len in *. rewrite length_app. simpl. lia.
  - unfold loop_body. cbn [chunks].
    destruct (_ || _) eqn:Hemit; [|done].
    intros i c [[_ Hc]|[-> <-]]%lookup_snoc_Some; [by apply Hall|].
    exists (current_pos st). split; [lia|]. split.
    + f_equal. exact Hidx.
    + intros Hi. cbn [char_count make_chunk].
      apply orb_true_iff in Hemit as [Hm|Hz]; [lia|].
      apply Z.eqb_eq in Hz. unfold len in Hidx. lia.
Qed.

(** The windows and the dropped windows cover the text up to some point
    the cursor has not passed. *)
Lemma loop_chunks_cover (fuel : nat) (result : list Chunk) :
  1 <= chunk_size self ->
  split_loop tail self fuel txt md
    {| current_pos := 0; next_index := 0; chunks := [] |} = Some result ->
  forall p, 0 <= p < len txt ->
    (exists c, c ∈ result /\ start_char c <= p < end_char c)
    \/ (exists q, 0 <= q <= p /\ p < window_end tail self txt q
                  /\ dropped tail self txt q).
Proof.
  intros Hcs Hrun.
  set (P := fun st : loop_state =>
              0 <= current_pos st
              /\ exists reach,
                   current_pos st <= reach
                   /\ forall p, 0 <= p < reach ->
                        (exists c, c ∈ chunks st /\ start_char c <= p < end_char c)
                        \/ (exists q, 0 <= q <= p
                                      /\ p < window_end tail self txt q
                                      /\ dropped tail self txt q)).
  enough (Hstep : forall st, P st -> current_pos st < len txt ->
                             P (loop_body tail self txt md st)).
  { destruct (split_loop_invariant tail self txt md P Hstep fuel
                {| current_pos := 0; next_index := 0; chunks := [] |} result)
      as (st' & (_ & reach & Hreach & Hcov) & <- & Hend).
    - split; [simpl; lia|]. exists 0. split; [simpl; lia|]. intros p. lia.
    - exact Hrun.
    - intros p Hp. apply Hcov. lia. }
  intros st (Hpos & reach & Hreach & Hcov) Hlt. unfold P.
  pose proof (window_end_gt tail self txt (current_pos st) Hcs Hlt) as Hgt.
  pose proof (advance_gt self _ _ Hgt) as Hadv.
  pose proof (advance_le self (current_pos st)
                (window_end tail self txt (current_pos st))) as Hadv'.
  split; [rewrite loop_body_pos; lia|].
  exists (Z.max reach (window_end tail self txt (current_pos st))).
  split; [rewrite loop_body_pos; lia|].
  intros p Hp. unfold loop_body. cbn [chunks].
  destruct (Z.lt_ge_cases p reach) as [Hold|Hnew].
  - destruct (Hcov p ltac:(lia)) as [(c & Hc & Hin)|Hd]; [|by right].
    left. exists c. split; [|done].
    destruct (_ || _); [|done]. apply elem_of_app. by left.
  - destruct (_ || _) eqn:Hemit.
    + left. eexists. split; [apply elem_of_app; right; by left|].
      cbn [start_char end_char make_chunk]. lia.
    + right. exists (current_pos st). split; [lia|]. split; [lia|].
      apply orb_false_iff in Hemit as [Hm _].
      unfold dropped. lia.
Qed.

(** The first chunk starts the text, and it is not blank when the text
    begins with a letter. *)
Lemma loop_chunks_first (fuel : nat) (result : list Chunk) :
  1 <= chunk_size self -> 0 < len txt ->
  split_loop tail self fuel txt md
    {| current_pos := 0; next_index := 0; chunks := [] |} = Some result ->
  result <> []
  /\ forall c, head result = Some c ->
       start_char c = 0 /\ chunk_index c = 0
       /\ ((exists x r, txt = x :: r /\ isspace x = false) -> text c <> []).
Proof.
  intros Hcs Hlen Hrun.
  set (P := fun st : loop_state =>
              (chunks st = [] -> current_pos st = 0 /\ next_index st = 0)
              /\ forall c, head (chunks st) = Some c ->
                   start_char c = 0 /\ chunk_index c = 0
                   /\ ((exists x r, txt = x :: r /\ isspace x = false) ->
                       text c <> [])).
  enough (Hstep : forall st, P st -> current_pos st < len txt ->
                             P (loop_body tail self txt md st)).
  { destruct (split_loop_invariant tail self txt md P Hstep fuel
                {| current_pos := 0; next_index := 0; chunks := [] |} result)
      as (st' & (Hnil & Hhead) & <- & Hend);
      [by split|exact Hrun|].
    split; [|exact Hhead].
    intros Hc. destruct (Hnil Hc) as [H0 _]. lia. }
  intros st (Hnil & Hhead) Hlt. unfold P, loop_body. cbn [chunks current_pos next_index].
  destruct (chunks st) as [|c0 rest] eqn:Hch.
  - destruct (Hnil eq_refl) as [Hp Hn]. rewrite Hp, Hn in *.
    cbn [Z.eqb orb]. rewrite orb_true_r. split; [done|].
    intros c [= <-]. cbn [start_char chunk_index text make_chunk].
    split; [done|]. split; [done|].
    intros (x & r & -> & Hx).
    pose proof (window_end_gt tail self (x :: r) 0 Hcs Hlt) as Hgt.
    unfold slice, clamp_index.
    destruct (Z.ltb_spec 0 0); [lia|].
    destruct (Z.ltb_spec (window_end tail self (x :: r) 0) 0); [lia|].
    replace (Z.to_nat (Z.min 0 (len (x :: r)))) with O by lia.
    cbn [drop].
    destruct (Z.to_nat _) as [|k] eqn:Hk.
    + unfold len in *. simpl length in *. lia.
    + cbn [take]. by apply strip_cons_nonspace.
  - split; [destruct (_ || _); [destruct rest|]; done|].
    destruct (_ || _); cbn [head app]; intros c [= <-]; by apply Hhead.
Qed.

End Windows.

End WindowFacts.

(** ** The splitter: what the returned chunks cover *)

Module CoverageFacts.
Import Py Regex Splitter PyFacts SplitterFacts Props ChunkFacts ChunkInvariant.
Import WindowFacts MoreSamples.

(** The three paths of [split_text], with what each says of the text. *)
Lemma split_text_paths (tail : Z -> Z) (self : TextSplitter) (fuel : nat)
    (txt : list N) (md : option (gmap string pyval)) (result : list Chunk) :
  split_text tail self fuel txt md = Some result ->
  (strip txt = [] /\ result = [])
  \/ (strip txt <> [] /\ len (strip txt) <= chunk_size self
      /\ result = [whole_chunk md (strip txt)])
  \/ (strip txt <> [] /\ 1 <= chunk_size self
      /\ chunk_size self < len (strip txt)
      /\ split_loop tail self fuel (strip txt) md
           {| current_pos := 0; next_index := 0; chunks := [] |}
         = Some result).
Proof.
  intros Hrun. destruct (decide (strip txt = [])) as [He|Hne].
  - left. split; [done|]. unfold split_text in Hrun.
    rewrite (bool_decide_eq_true_2 _ He), orb_true_r in Hrun. congruence.
  - right.
    destruct (split_text_cases tail self fuel txt md result Hrun)
      as [->|[H|(Hcs & Hlen & Hloop)]]; [|by left|by right].
    exfalso. unfold split_text in Hrun.
    destruct (bool_decide (txt = [])) eqn:H1.
    { apply bool_decide_eq_true in H1. by subst. }
    rewrite (bool_decide_eq_false_2 _ Hne) in Hrun. cbn [orb] in Hrun.
    destruct (Z.leb_spec (len (strip txt)) (chunk_size self)); [done|].
    destruct (Z.le_gt_cases 1 (chunk_size self)) as [Hcs|Hcs].
    + assert (Hpos : 0 < len (strip txt)).
      { destruct (strip txt); [done|]. unfold len. simpl. lia. }
      by destruct (loop_chunks_first tail self (strip txt) md fuel [] Hcs
                     Hpos Hrun) as [Hres _].
    + rewrite split_loop_stuck in Hrun; [discriminate|lia|].
      simpl. destruct (strip txt); [done|]. unfold len. simpl. lia.
Qed.

Lemma slice_last {A} (s : list A) (a b : Z) :
  0 <= a -> a < b -> b <= len s ->
  last (slice s a b) = s !! Z.to_nat (b - 1).
Proof.
  intros Ha Hab Hb. rewrite last_lookup.
  pose proof (slice_len s a b Ha ltac:(lia) Hb) as Hlen.
  unfold len in Hlen. replace (length (slice s a b)) with (Z.to_nat (b - a)) by lia.
  unfold slice, clamp_index, len in *.
  destruct (Z.ltb_spec a 0); [lia|]. destruct (Z.ltb_spec b 0); [lia|].
  rewrite lookup_take_lt by lia. rewrite lookup_drop. f_equal. lia.
Qed.

(** X1.  A text that is not blank gives at least one chunk; the first chunk
    starts the trimmed text, has index 0 and is not empty. *)
Theorem split_text_first_chunk (tail : Z -> Z) (self : TextSplitter)
    (fuel : nat) (txt : list N) (md : option (gmap string pyval))
    (result : list Chunk) :
  split_text tail self fuel txt md = Some result ->
  (result = [] <-> strip txt = [])
  /\ forall c, head result = Some c ->
       start_char c = 0 /\ chunk_index c = 0
       /\ text c <> [] /\ 1 <= char_count c.
Proof.
  intros Hrun.
  assert (Hcount : forall c i, result !! i = Some c -> text c <> [] ->
                               1 <= char_count c).
  { intros c i Hc Hne.
    destruct (split_text_chunk_ok tail self fuel txt md result i c Hrun Hc)
      as (_ & _ & _ & _ & -> & _).
    destruct (text c); [done|]. unfold len. simpl. lia. }
  destruct (split_text_paths tail self fuel txt md result Hrun)
    as [[He ->]|[(Hne & Hle & ->)|(Hne & Hcs & Hlen & Hloop)]].
  - split; [done|]. intros c [=].
  - split; [split; [done|by intros ?]|].
    intros c [= <-]. cbn [start_char chunk_index text whole_chunk char_count].
    repeat split; try done.
    destruct (strip txt); [done|]. unfold len. simpl. lia.
  - assert (Hpos : 0 < len (strip txt)) by lia.
    destruct (loop_chunks_first tail self (strip txt) md fuel result Hcs Hpos Hloop)
      as [Hres Hhead].
    split; [split; [done|by intros ?]|].
    intros c Hc. destruct (Hhead c Hc) as (Hs & Hi & Ht).
    assert (Htext : text c <> []).
    { apply Ht. destruct (strip txt) as [|x r] eqn:Hx; [done|].
      exists x, r. split; [done|]. by eapply strip_head. }
    repeat split; try done.
    apply (Hcount c O); [|done]. by rewrite <- head_lookup.
Qed.

(** The theorem at a text of three windows. *)
Lemma split_text_first_chunk_witness :
  let result := default [] (split_text fifth small_splitter 21 two_sentences None) in
  split_text fifth small_splitter 21 two_sentences None = Some result
  /\ (result = [] <-> strip two_sentences = [])
  /\ forall c, head result = Some c ->
       start_char c = 0 /\ chunk_index c = 0
       /\ text c <> [] /\ 1 <= char_count c.
Proof.
  intros result.
  assert (Hrun : split_text fifth small_splitter 21 two_sentences None
                 = Some result) by (vm_compute; reflexivity).
  split; [exact Hrun|].
  exact (split_text_first_chunk fifth small_splitter 21 two_sentences None
           result Hrun).
Defined.

(** X2.  Every chunk lies inside the trimmed text and spans at most
    [chunk_size] characters of it, so it holds at most [chunk_size]
    characters; every chunk but the first holds at least
    [min_chunk_size]. *)
Theorem split_text_chunk_sizes (tail : Z -> Z) (self : TextSplitter)
    (fuel : nat) (txt : list N) (md : option (gmap string pyval))
    (result : list Chunk) (i : nat) (c : Chunk) :
  split_text tail self fuel txt md = Some result ->
  result !! i = Some c ->
  0 <= start_char c
  /\ end_char c <= len (strip txt)
  /\ end_char c - start_char c <= chunk_size self
  /\ char_count c <= chunk_size self
  /\ (i <> O -> min_chunk_size self <= char_count c).
Proof.
  intros Hrun Hc.
  pose proof (split_text_chunk_ok tail self fuel txt md result i c Hrun Hc)
    as Hok.
  destruct (chunk_ok_count _ _ _ Hok) as [Hcount _].
  destruct Hok as (H0 & Hlt & Hle & _).
  enough (Hwidth : end_char c - start_char c <= chunk_size self
                   /\ (i <> O -> min_chunk_size self <= char_count c)).
  { destruct Hwidth. repeat split; try done. lia. }
  destruct (split_text_paths tail self fuel txt md result Hrun)
    as [[He ->]|[(Hne & Hlen & ->)|(Hne & Hcs & Hlen & Hloop)]].
  - done.
  - apply list_lookup_singleton_Some in Hc as [-> <-].
    cbn [start_char end_char whole_chunk]. split; [lia|done].
  - destruct (loop_chunks_windows tail self (strip txt) md fuel result Hcs
                Hloop i c Hc) as (pos & Hpos & Heq & Hmin).
    split; [|exact Hmin]. rewrite Heq. cbn [start_char end_char make_chunk].
    pose proof (window_end_width tail self (strip txt) pos Hcs ltac:(lia)). lia.
Qed.

(** The theorem at the second chunk of two sentences. *)
Lemma split_text_chunk_sizes_witness :
  let result := default [] (split_text fifth small_splitter 21 two_sentences None) in
  let c := second_chunk in
  split_text fifth small_splitter 21 two_sentences None = Some result
  /\ result !! 1%nat = Some c
  /\ 0 <= start_char c
  /\ end_char c <= len (strip two_sentences)
  /\ end_char c - start_char c <= chunk_size small_splitter
  /\ char_count c <= chunk_size small_splitter
  /\ (1%nat <> O -> min_chunk_size small_splitter <= char_count c).
Proof.
  intros result c.
  assert (Hrun : split_text fifth small_splitter 21 two_sentences None
                 = Some result) by (vm_compute; reflexivity).
  assert (Hc : result !! 1%nat = Some c) by (vm_compute; reflexivity).
  split; [exact Hrun|]. split; [exact Hc|].
  exact (split_text_chunk_sizes fifth small_splitter 21 two_sentences None
           result 1 c Hrun Hc).
Defined.

(** X3.  A chunk whose window ends before the text does spans more than
    [chunk_size - int(chunk_size * 0.2)] characters when the tail is
    positive, and [chunk_size] otherwise.  When it spans fewer than
    [chunk_size], it was cut at a sentence boundary: the character before
    its end is whitespace, and its text is shorter than its window. *)
Theorem split_text_boundary_cut (tail : Z -> Z) (self : TextSplitter)
    (fuel : nat) (txt : list N) (md : option (gmap string pyval))
    (result : list Chunk) (c : Chunk) :
  split_text tail self fuel txt md = Some result ->
  c ∈ result ->
  end_char c < len (strip txt) ->
  chunk_size self - Z.max 0 (tail (chunk_size self))
  <= end_char c - start_char c
  /\ (0 < tail (chunk_size self) ->
      chunk_size self - tail (chunk_size self) < end_char c - start_char c)
  /\ (end_char c - start_char c < chunk_size self ->
      (exists x, strip txt !! Z.to_nat (end_char c - 1) = Some x
                 /\ isspace x = true)
      /\ char_count c < end_char c - start_char c).
Proof.
  intros Hrun Hin Hend.
  apply list_elem_of_lookup_1 in Hin as [i Hc].
  destruct (split_text_paths tail self fuel txt md result Hrun)
    as [[He ->]|[(Hne & Hlen & ->)|(Hne & Hcs & Hlen & Hloop)]].
  - done.
  - apply list_lookup_singleton_Some in Hc as [-> <-].
    cbn [end_char whole_chunk] in Hend. lia.
  - destruct (loop_chunks_windows tail self (strip txt) md fuel result Hcs
                Hloop i c Hc) as (pos & Hpos & Heq & _).
    rewrite Heq in *. cbn [start_char end_char char_count make_chunk] in *.
    pose proof (window_end_gt tail self (strip txt) pos Hcs ltac:(lia)) as Hgt.
    assert (Hlow : pos + chunk_size self - Z.max 0 (tail (chunk_size self)) + 
                   (if 0 <? tail (chunk_size self) then 1 else 0)
                   <= window_end tail self (strip txt) pos).
    { revert Hend. unfold window_end.
      destruct (Z.ltb_spec (Z.min (pos + chunk_size self) (len (strip txt)))
                  (len (strip txt))); [|lia].
      destruct (last _) as [m|] eqn:Hl.
      - apply finditer_last_bounds in Hl.
        destruct (Z.ltb_spec 0 (tail (chunk_size self))); lia.
      - destruct (Z.ltb_spec 0 (tail (chunk_size self))); lia. }
    split; [destruct (0 <? tail (chunk_size self)); lia|].
    split; [intros Ht; destruct (Z.ltb_spec 0 (tail (chunk_size self))); lia|].
    intros Hcut.
    destruct (window_end_space tail self (strip txt) pos ltac:(lia) Hend
                ltac:(lia)) as (x & Hx & Hsp).
    split; [by exists x|].
    pose proof (slice_last (strip txt) pos
                  (window_end tail self (strip txt) pos)
                  ltac:(lia) Hgt ltac:(lia)) as Hlast.
    rewrite Hx in Hlast. apply last_Some in Hlast as [l' Hl'].
    pose proof (slice_len (strip txt) pos
                  (window_end tail self (strip txt) pos)
                  ltac:(lia) ltac:(lia) ltac:(lia)) as Hlen'.
    rewrite Hl' in *.
    pose proof (strip_snoc_space l' x Hsp). unfold len in *. lia.
Qed.

(** The theorem at a window cut two characters before its hard cutoff. *)
Lemma split_text_boundary_cut_witness :
  let result := default [] (split_text fifth wide_splitter 29 long_sentence None) in
  let c := make_chunk None (codepoints "aaaaaaaaaaaaaaaa.") 0 0 18 in
  split_text fifth wide_splitter 29 long_sentence None = Some result
  /\ c ∈ result
  /\ end_char c < len (strip long_sentence)
  /\ chunk_size wide_splitter - Z.max 0 (fifth (chunk_size wide_splitter))
     <= end_char c - start_char c
  /\ (exists x, strip long_sentence !! Z.to_nat (end_char c - 1) = Some x
                /\ isspace x = true)
  /\ char_count c < end_char c - start_char c.
Proof.
  intros result c.
  assert (Hrun : split_text fifth wide_splitter 29 long_sentence None
                 = Some result) by (vm_compute; reflexivity).
  assert (Hc : c ∈ result).
  { apply (list_elem_of_lookup_2 _ O). vm_compute. reflexivity. }
  assert (Hend : end_char c < len (strip long_sentence))
    by (vm_compute; reflexivity).
  split; [exact Hrun|]. split; [exact Hc|]. split; [exact Hend|].
  destruct (split_text_boundary_cut fifth wide_splitter 29 long_sentence None
              result c Hrun Hc Hend) as (Hlow & _ & Hcut).
  split; [exact Hlow|].
  apply Hcut. vm_compute. reflexivity.
Defined.

(** X4.  Every character of the trimmed text lies in the window of a returned
    chunk or in a window that was dropped as too short; with
    [min_chunk_size <= 0] nothing is dropped, so the chunks cover the
    text. *)
Theorem split_text_coverage (tail : Z -> Z) (self : TextSplitter)
    (fuel : nat) (txt : list N) (md : option (gmap string pyval))
    (result : list Chunk) (p : Z) :
  split_text tail self fuel txt md = Some result ->
  0 <= p < len (strip txt) ->
  ((exists c, c ∈ result /\ start_char c <= p < end_char c)
   \/ (exists q, 0 <= q <= p /\ p < window_end tail self (strip txt) q
                 /\ dropped tail self (strip txt) q))
  /\ (min_chunk_size self <= 0 ->
      exists c, c ∈ result /\ start_char c <= p < end_char c).
Proof.
  intros Hrun Hp.
  assert (Hcov : (exists c, c ∈ result /\ start_char c <= p < end_char c)
                 \/ (exists q, 0 <= q <= p
                               /\ p < window_end tail self (strip txt) q
                               /\ dropped tail self (strip txt) q)).
  { destruct (split_text_paths tail self fuel txt md result Hrun)
      as [[He ->]|[(Hne & Hlen & ->)|(Hne & Hcs & Hlen & Hloop)]].
    - rewrite He in Hp. unfold len in Hp. simpl in Hp. lia.
    - left. eexists. split; [by left|].
      cbn [start_char end_char whole_chunk]. lia.
    - by eapply loop_chunks_cover. }
  split; [exact Hcov|].
  intros Hmin. destruct Hcov as [Hc|(q & _ & _ & Hd)]; [exact Hc|].
  unfold dropped in Hd.
  pose proof (len_nonneg
                (strip (slice (strip txt) q
                          (window_end tail self (strip txt) q)))). lia.
Qed.

(** The theorem at character 12 of two sentences, which the second chunk
    covers. *)
Lemma split_text_coverage_witness :
  let result := default [] (split_text fifth small_splitter 21 two_sentences None) in
  split_text fifth small_splitter 21 two_sentences None = Some result
  /\ 0 <= 12 < len (strip two_sentences)
  /\ ((exists c, c ∈ result /\ start_char c <= 12 < end_char c)
      \/ (exists q, 0 <= q <= 12
                    /\ 12 < window_end fifth small_splitter (strip two_sentences) q
                    /\ dropped fifth small_splitter (strip two_sentences) q)).
Proof.
  intros result.
  assert (Hrun : split_text fifth small_splitter 21 two_sentences None
                 = Some result) by (vm_compute; reflexivity).
  assert (Hp : 0 <= 12 < len (strip two_sentences))
    by (split; [lia|vm_compute; reflexivity]).
  split; [exact Hrun|]. split; [exact Hp|].
  exact (proj1 (split_text_coverage fifth small_splitter 21 two_sentences None
                  result 12 Hrun Hp)).
Defined.

End CoverageFacts.

(** ** The splitter: how far the cursor moves *)

Module StrideFacts.
Import Py Regex Splitter PyFacts SplitterFacts Props ChunkFacts ChunkInvariant.
Import WindowFacts CoverageFacts.

(** Where the cursor goes after a window from [pos] to [end_pos]. *)
Lemma advance_cases (self : TextSplitter) (pos end_pos : Z) :
  pos < end_pos ->
  (chunk_overlap self <= 0 -> advance self pos end_pos = end_pos)
  /\ (0 <= chunk_overlap self < end_pos - pos ->
      advance self pos end_pos = end_pos - chunk_overlap self)
  /\ (end_pos - pos <= chunk_overlap self ->
      advance self pos end_pos = pos + 1).
Proof.
  intros Hlt. unfold advance.
  destruct (Z.leb_spec end_pos
              (Z.max (pos + 1) (end_pos - chunk_overlap self))); lia.
Qed.

Section Loop.
Variable tail : Z -> Z.
Variable self : TextSplitter.
Variable txt : list N.
Variable md : option (gmap string pyval).

(** Each chunk starts where the cursor went after its predecessor, unless
    a window was dropped between the two; and there are no more chunks
    than the cursor has passed characters. *)
Lemma loop_chunks_stride (fuel : nat) (result : list Chunk) :
  1 <= chunk_size self ->
  split_loop tail self fuel txt md
    {| current_pos := 0; next_index := 0; chunks := [] |} = Some result ->
  len result <= len txt
  /\ forall i c c',
       result !! i = Some c -> result !! S i = Some c' ->
       start_char c' = advance self (start_char c) (end_char c)
       \/ exists p, start_char c < p < start_char c'
                    /\ dropped tail self txt p.
Proof.
  intros Hcs Hrun.
  set (P := fun st : loop_state =>
    0 <= current_pos st
    /\ len (chunks st) <= current_pos st
    /\ (current_pos st <= len txt \/ chunks st = [])
    /\ (forall i c c', chunks st !! i = Some c ->
                       chunks st !! S i = Some c' ->
                       start_char c' = advance self (start_char c) (end_char c)
                       \/ exists p, start_char c < p < start_char c'
                                    /\ dropped tail self txt p)
    /\ (forall c, last (chunks st) = Some c ->
          start_char c < current_pos st
          /\ (current_pos st = advance self (start_char c) (end_char c)
              \/ exists p, start_char c < p < current_pos st
                           /\ dropped tail self txt p))).
  enough (Hstep : forall st, P st -> current_pos st < len txt ->
                             P (loop_body tail self txt md st)).
  { destruct (split_loop_invariant tail self txt md P Hstep fuel
                {| current_pos := 0; next_index := 0; chunks := [] |} result)
      as (st' & (_ & Hnum & Hin & Hst' & _) & <- & Hend); [|exact Hrun|].
    - split; [cbn; lia|]. split; [unfold len; cbn; lia|].
      split; [by right|]. split; [by intros i c c' ?|by intros c ?].
    - split; [|exact Hst'].
      destruct Hin as [Hin| ->]; [lia|]. unfold len. cbn. lia. }
  intros st (Hpos & Hnum & _ & Hpairs & Hlast) Hlt.
  pose proof (window_end_gt tail self txt (current_pos st) Hcs Hlt) as Hgt.
  pose proof (window_end_le tail self txt (current_pos st) Hcs Hpos) as Hle.
  pose proof (advance_gt self _ _ Hgt) as Hadv.
  pose proof (advance_le self (current_pos st)
                (window_end tail self txt (current_pos st))) as Hadv'.
  unfold P, loop_body. cbn [current_pos next_index chunks].
  split; [lia|].
  destruct (_ || _) eqn:Hemit.
  - split; [unfold len in *; rewrite length_app; simpl; lia|].
    split; [left; lia|]. split.
    + intros i c c' Hc [[Hi Hc']|[Hi <-]]%lookup_snoc_Some.
      * apply lookup_snoc_Some in Hc as [[_ Hc]|[-> _]];
          [by eapply Hpairs|lia].
      * apply lookup_snoc_Some in Hc as [[_ Hc]|[-> _]]; [|lia].
        assert (Hl : last (chunks st) = Some c)
          by (rewrite last_lookup, <- Hi; exact Hc).
        destruct (Hlast c Hl) as [_ H2]. exact H2.
    + intros c. rewrite last_snoc. intros [= <-]. cbn. split; [lia|by left].
  - split; [lia|]. split; [left; lia|]. split; [exact Hpairs|].
    intros c Hl. destruct (Hlast c Hl) as [H1 _]. split; [lia|].
    right. exists (current_pos st).
    apply orb_false_iff in Hemit as [Hm _]. apply Z.leb_gt in Hm.
    repeat split; [lia|lia|exact Hm].
Qed.

End Loop.

(** X5.  In the list that [split_text] returns, a chunk starts where the
    cursor went after its predecessor, unless a window was dropped
    between the two (never, with [min_chunk_size <= 0]).  After a chunk
    that spans [w] characters the cursor goes back from the end of the
    chunk by [chunk_overlap] when [0 <= chunk_overlap < w], stays at the
    end of the chunk when [chunk_overlap <= 0], and moves one character
    past the start of the chunk when [chunk_overlap >= w]. *)
Theorem split_text_stride (tail : Z -> Z) (self : TextSplitter) (fuel : nat)
    (txt : list N) (md : option (gmap string pyval)) (result : list Chunk)
    (i : nat) (c c' : Chunk) :
  split_text tail self fuel txt md = Some result ->
  result !! i = Some c -> result !! S i = Some c' ->
  (start_char c' = advance self (start_char c) (end_char c)
   \/ exists p, start_char c < p < start_char c'
                /\ dropped tail self (strip txt) p)
  /\ (min_chunk_size self <= 0 ->
      start_char c' = advance self (start_char c) (end_char c))
  /\ (chunk_overlap self <= 0 ->
      advance self (start_char c) (end_char c) = end_char c)
  /\ (0 <= chunk_overlap self < end_char c - start_char c ->
      advance self (start_char c) (end_char c)
      = end_char c - chunk_overlap self)
  /\ (end_char c - start_char c <= chunk_overlap self ->
      advance self (start_char c) (end_char c) = start_char c + 1).
Proof.
  intros Hrun Hc Hc'.
  destruct (split_text_chunk_ok tail self fuel txt md result i c Hrun Hc)
    as (_ & Hlt & _).
  destruct (advance_cases self (start_char c) (end_char c) Hlt)
    as (H1 & H2 & H3).
  enough (Hs : start_char c' = advance self (start_char c) (end_char c)
               \/ exists p, start_char c < p < start_char c'
                            /\ dropped tail self (strip txt) p).
  { split; [exact Hs|]. split; [|by repeat split].
    intros Hmin. destruct Hs as [Hs|(p & _ & Hp)]; [exact Hs|].
    unfold dropped in Hp.
    pose proof (len_nonneg
                  (strip (slice (strip txt) p
                            (window_end tail self (strip txt) p)))).
    lia. }
  destruct (split_text_paths tail self fuel txt md result Hrun)
    as [[_ ->]|[(_ & _ & ->)|(_ & Hcs & _ & Hloop)]]; [done|done|].
  by eapply (proj2 (loop_chunks_stride tail self (strip txt) md fuel result
                      Hcs Hloop)).
Qed.

(** The theorem at the first two chunks of two sentences: the second
    starts two characters before the first ends. *)
Lemma split_text_stride_witness :
  let result := default [] (split_text fifth small_splitter 21 two_sentences None) in
  let c := first_chunk in
  let c' := second_chunk in
  split_text fifth small_splitter 21 two_sentences None = Some result
  /\ result !! 0%nat = Some c
  /\ result !! 1%nat = Some c'
  /\ (start_char c' = advance small_splitter (start_char c) (end_char c)
      \/ exists p, start_char c < p < start_char c'
                   /\ dropped fifth small_splitter (strip two_sentences) p)
  /\ advance small_splitter (start_char c) (end_char c)
     = end_char c - chunk_overlap small_splitter.
Proof.
  intros result c c'.
  assert (Hrun : split_text fifth small_splitter 21 two_sentences None
                 = Some result) by (vm_compute; reflexivity).
  assert (Hc : result !! 0%nat = Some c) by (vm_compute; reflexivity).
  assert (Hc' : result !! 1%nat = Some c') by (vm_compute; reflexivity).
  split; [exact Hrun|]. split; [exact Hc|]. split; [exact Hc'|].
  destruct (split_text_stride fifth small_splitter 21 two_sentences None
              result 0 c c' Hrun Hc Hc') as (H1 & _ & _ & H2 & _).
  split; [exact H1|]. apply H2. vm_compute. split; [discriminate|reflexivity].
Defined.

(** X6.  [split_text] never returns more chunks than the trimmed text has
    characters. *)
Theorem split_text_chunk_count (tail : Z -> Z) (self : TextSplitter)
    (fuel : nat) (txt : list N) (md : option (gmap string pyval))
    (result : list Chunk) :
  split_text tail self fuel txt md = Some result ->
  len result <= len (strip txt).
Proof.
  intros Hrun.
  destruct (split_text_paths tail self fuel txt md result Hrun)
    as [[_ ->]|[(Hne & _ & ->)|(_ & Hcs & _ & Hloop)]].
  - apply len_nonneg.
  - unfold len. destruct (strip txt); [done|]. cbn. lia.
  - by apply (proj1 (loop_chunks_stride tail self (strip txt) md fuel result
                       Hcs Hloop)).
Qed.

(** The theorem at two sentences: three chunks of 21 characters. *)
Lemma split_text_chunk_count_witness :
  let result := default [] (split_text fifth small_splitter 21 two_sentences None) in
  split_text fifth small_splitter 21 two_sentences None = Some result
  /\ len result = 3
  /\ len result <= len (strip two_sentences).
Proof.
  intros result.
  assert (Hrun : split_text fifth small_splitter 21 two_sentences None
                 = Some result) by (vm_compute; reflexivity).
  split; [exact Hrun|]. split; [vm_compute; reflexivity|].
  exact (split_text_chunk_count fifth small_splitter 21 two_sentences None
           result Hrun).
Defined.

End StrideFacts.

(** ** [split_document]: the file a chunk comes from *)

Module DocumentFacts.
Import Py Splitter Props ChunkFacts ChunkInvariant ChunkMetadata.
Import CoverageFacts MoreSamples.




End DocumentFacts.

(** ** The cache: what a caller can rely on *)

Module CacheMore.
Import LRUCache CacheFacts.

Section Cache.
Variables Args V : Type.
Variable _make_key : Args -> string.

Local Abbreviation LRUCache := (LRUCache V).
Local Abbreviation call := (call Args V).
Local Abbreviation after := (after Args V _make_key).
Local Abbreviation set := (set Args V _make_key).
Local Abbreviation get := (get Args V _make_key).

(** A [set] that returned has stored the value under its key and left
    every other key alone, but for the key at the front of
    [access_order] when the cache was full and the key new. *)
Lemma set_Ok_cache (self self' : LRUCache) (value : V) (args : Args) :
  set self value args = (Ok tt, self') ->
  cache V self' !! _make_key args = Some value
  /\ forall k, k <> _make_key args ->
       cache V self' !! k = cache V self !! k
       \/ (cache V self' !! k = None
           /\ head (access_order V self) = Some k
           /\ maxsize V self <= size V self
           /\ cache V self !! _make_key args = None).
Proof.
  unfold LRUCache.set.
  destruct ((maxsize V self <=? Z.of_nat (base.size (cache V self)))
            && bool_decide (cache V self !! _make_key args = None))
    eqn:Hfull.
  - apply andb_true_iff in Hfull as [Hcap Hnew].
    apply Z.leb_le in Hcap. apply bool_decide_eq_true in Hnew.
    destruct (access_order V self) as [|oldest rest]; [discriminate|].
    destruct (cache V self !! oldest) eqn:Hold; [|discriminate].
    intros [= <-]. cbn [cache]. split; [by rewrite lookup_insert_eq|].
    intros k Hk. rewrite lookup_insert_ne by done.
    destruct (decide (k = oldest)) as [->|Hne].
    + right. rewrite lookup_delete_eq. done.
    + left. by rewrite lookup_delete_ne.
  - intros [= <-]. cbn [cache]. split; [by rewrite lookup_insert_eq|].
    intros k Hk. left. by rewrite lookup_insert_ne.
Qed.

(** On a cache made for at least one entry, [set] returns. *)
Lemma set_succeeds (m : Z) (h : list call) (value : V) (args : Args) :
  1 <= m -> fst (set (after m h) value args) = Ok tt.
Proof.
  intros Hm.
  destruct (after_invariant Args V _make_key m h) as (Hmax & _ & Hkeys & _).
  cbn zeta in *. set (self := after m h) in *.
  unfold LRUCache.set.
  destruct ((maxsize V self <=? Z.of_nat (base.size (cache V self)))
            && bool_decide (cache V self !! _make_key args = None))
    eqn:Hfull; [|done].
  apply andb_true_iff in Hfull as [Hcap _]. apply Z.leb_le in Hcap.
  destruct (access_order V self) as [|oldest rest] eqn:Ho.
  - exfalso. assert (Hne : base.size (cache V self) <> 0%nat) by lia.
    apply map_size_non_empty_iff, map_choose in Hne as (k & v & Hk).
    assert (Hin : k ∈ @nil string) by (apply Hkeys; by eexists).
    by apply elem_of_nil in Hin.
  - assert (Hold : is_Some (cache V self !! oldest))
      by (apply Hkeys; by left).
    by destruct Hold as [vo ->].
Qed.

(** X8.  [set] on a cache object returns when [maxsize >= 1] and raises
    [IndexError] when [maxsize <= 0], whatever was done with the cache
    before; it never raises [KeyError]. *)
Theorem cache_set_outcome (m : Z) (h : list call) (value : V) (args : Args) :
  fst (set (after m h) value args)
  = if 1 <=? m then Ok tt else Raise IndexError.
Proof.
  destruct (Z.leb_spec 1 m) as [Hm|Hm]; [by apply set_succeeds|].
  destruct (after_no_capacity Args V _make_key m h ltac:(lia))
    as (Hc & Ho & Hmax).
  unfold LRUCache.set. rewrite Hc, Ho, Hmax, lookup_empty, map_size_empty.
  rewrite (proj2 (Z.leb_le m (Z.of_nat 0))) by lia.
  by rewrite bool_decide_eq_true_2.
Qed.

(** X9.  After any history of calls [access_order] lists the cached keys, each
    once: it is as long as the cache is large, and a key is in it exactly
    when the key is cached. *)
Theorem access_order_agrees (m : Z) (h : list call) :
  let self := after m h in
  NoDup (access_order V self)
  /\ (forall k, k ∈ access_order V self <-> is_Some (cache V self !! k))
  /\ Z.of_nat (length (access_order V self)) = size V self
  /\ maxsize V self = m.
Proof.
  destruct (after_invariant Args V _make_key m h) as (Hmax & Hnd & Hkeys & _).
  cbn zeta in *. set (self := after m h) in *.
  repeat split; try done; try (by apply Hkeys).
  unfold size. f_equal.
  rewrite <- size_dom, <- (size_list_to_set (C := gset string)) by done.
  f_equal. apply set_eq. intros k.
  by rewrite elem_of_list_to_set, elem_of_dom, Hkeys.
Qed.


(** X11.  [clear()] forgets the history: what the cache does afterwards is what
    a new cache of the same [maxsize] does. *)
Theorem clear_forgets (m : Z) (before later : list call) :
  after m (later ++ CallClear Args V :: before) = after m later.
Proof.
  induction later as [|c later IH]; cbn [app LRUCache.after].
  - destruct (after_invariant Args V _make_key m before) as (Hmax & _).
    cbn zeta in Hmax. unfold step, clear, init. by rewrite Hmax.
  - by rewrite IH.
Qed.

End Cache.


End CacheMore.

(** ** The decorators: when the decorated function runs *)

Module DecoratorFacts.
Import LRUCache CacheFacts CacheMore Decorators.

Section Wrappers.
Variables V W : Type.
Variable is_None : V -> bool.

Lemma get_cache {Args : Type} (_make_key : Args -> string)
    (c : LRUCache V) (a : Args) :
  cache V (snd (get Args V _make_key c a)) = cache V c
  /\ fst (get Args V _make_key c a) = cache V c !! _make_key a.
Proof. unfold get. by destruct (cache V c !! _make_key a). Qed.

Section Embedding.
Variables Text Rest : Type.
Variable _make_key : Text -> string.
Variable func : Text -> Rest -> W -> result V * W.

(** X12.  Once [cached_embedding] has returned a value other than [None] for a
    text, the next call for that text (or for one with the same key)
    returns the same value without running the function, whatever further
    arguments it is given: they are no part of the key. *)
Theorem cached_embedding_memo (text text' : Text) (rest rest' : Rest)
    (cache0 cache1 : LRUCache V) (w0 w1 w2 : W) (v : V) :
  cached_embedding V W is_None Text Rest _make_key func text rest cache0 w0
  = (Ok v, cache1, w1) ->
  is_None v = false ->
  _make_key text' = _make_key text ->
  exists cache2,
    cached_embedding V W is_None Text Rest _make_key func text' rest' cache1 w2
    = (Ok v, cache2, w2)
    /\ cache V cache2 = cache V cache1.
Proof.
  intros Hrun Hv Hkey.
  assert (Hstored : cache V cache1 !! _make_key text = Some v).
  { revert Hrun. unfold cached_embedding.
    destruct (get Text V _make_key cache0 text) as [cached c] eqn:Hget.
    pose proof (get_cache _make_key cache0 text) as [Hc Hf].
    rewrite Hget in Hc, Hf. cbn [fst snd] in Hc, Hf.
    destruct (not_None V is_None cached) as [v0|] eqn:Hhit.
    - intros [= -> -> ->]. rewrite Hc, <- Hf.
      unfold not_None in Hhit. destruct cached as [x|]; [|done].
      by destruct (is_None x); simplify_eq.
    - destruct (func text rest w0) as [[result|e] w]; [|discriminate].
      destruct (set Text V _make_key c result text) as [[[]|e] c'] eqn:Hset;
        [|discriminate].
      intros [= -> -> ->].
      by destruct (set_Ok_cache Text V _make_key c cache1 v text Hset). }
  unfold cached_embedding.
  pose proof (get_cache _make_key cache1 text') as [Hc Hf].
  destruct (get Text V _make_key cache1 text') as [cached c].
  cbn [fst snd] in Hc, Hf. rewrite Hkey, Hstored in Hf. subst cached.
  cbn [not_None]. rewrite Hv. by exists c.
Qed.

End Embedding.

Section Query.
Variables Query A : Type.
Variable sorted : list (string * A) -> list (string * A).
Variable _make_key : Query * list A * list (string * A) -> string.
Variable func : Query -> list A -> list (string * A) -> W -> result V * W.

(** X13.  When nothing other than [None] is cached for its arguments,
    [cached_query] runs the function.  If the function raises, the
    exception is passed on and nothing is stored.  If it returns, the
    result is stored and returned, provided the cache can [set]; a
    result that is [None] is stored but never served: the next call runs
    the function again. *)
Theorem cached_query_miss (query : Query) (args : list A)
    (kwargs : list (string * A)) (cache0 : LRUCache V) (w0 : W) :
  let key := _make_key (query, args, sorted kwargs) in
  not_None V is_None (cache V cache0 !! key) = None ->
  (forall e w1,
      func query args kwargs w0 = (Raise e, w1) ->
      exists cache1,
        cached_query V W is_None Query A sorted _make_key func query args
          kwargs cache0 w0 = (Raise e, cache1, w1)
        /\ cache V cache1 = cache V cache0)
  /\ (forall v w1 cache1,
        func query args kwargs w0 = (Ok v, w1) ->
        set (Query * list A * list (string * A)) V _make_key
          (snd (get (Query * list A * list (string * A)) V _make_key cache0
                  (query, args, sorted kwargs)))
          v (query, args, sorted kwargs) = (Ok tt, cache1) ->
        cached_query V W is_None Query A sorted _make_key func query args
          kwargs cache0 w0 = (Ok v, cache1, w1)
        /\ cache V cache1 !! key = Some v
        /\ (is_None v = true ->
            forall w2,
              snd (cached_query V W is_None Query A sorted _make_key func
                     query args kwargs cache1 w2)
              = snd (func query args kwargs w2))).
Proof.
  intros key Hmiss.
  pose proof (get_cache _make_key cache0 (query, args, sorted kwargs))
    as [Hc Hf].
  assert (Hrun : forall c w,
            not_None V is_None (cache V c !! key) = None ->
            cached_query V W is_None Query A sorted _make_key func query args
              kwargs c w
            = match func query args kwargs w with
              | (Raise e, w') =>
                  (Raise e,
                   snd (get _ V _make_key c (query, args, sorted kwargs)), w')
              | (Ok result, w') =>
                  match set _ V _make_key
                          (snd (get _ V _make_key c (query, args, sorted kwargs)))
                          result (query, args, sorted kwargs) with
                  | (Raise e, c') => (Raise e, c', w')
                  | (Ok _, c') => (Ok result, c', w')
                  end
              end).
  { intros c w Hm. unfold cached_query.
    pose proof (get_cache _make_key c (query, args, sorted kwargs))
      as [_ Hf'].
    destruct (get _ V _make_key c (query, args, sorted kwargs))
      as [cached c'].
    cbn [fst snd] in *. fold key in Hf'. rewrite Hf', Hm.
    destruct (func query args kwargs w) as [[result|e] w']; [|done].
    by destruct (set _ V _make_key c' result (query, args, sorted kwargs))
      as [[[]|e] c'']. }
  split.
  - intros e w1 Hfunc. eexists. rewrite (Hrun _ _ Hmiss), Hfunc.
    split; [reflexivity|exact Hc].
  - intros v w1 cache1 Hfunc Hset.
    rewrite (Hrun _ _ Hmiss), Hfunc, Hset.
    destruct (set_Ok_cache _ V _make_key _ cache1 v _ Hset) as [Hkey _].
    split; [done|]. split; [exact Hkey|].
    intros Hv w2. rewrite Hrun.
    + destruct (func query args kwargs w2) as [[result|e] w']; [|done].
      by destruct (set _ V _make_key _ result (query, args, sorted kwargs))
        as [[[]|e] c''].
    + fold key in Hkey. rewrite Hkey. cbn [not_None]. by rewrite Hv.
Qed.

End Query.

End Wrappers.

(** The model is run once for two calls on the same text, the second of
    which asks for another normalisation. *)
Lemma cached_embedding_memo_witness :
  let cache0 := init (option Z) 256 in
  let cache1 :=
    snd (set string (option Z) Samples.string_key cache0 (Some 5) "hello") in
  CacheSamples.cached_embedding "hello" true cache0 0 = (Ok (Some 5), cache1, 1)
  /\ exists cache2,
       CacheSamples.cached_embedding "hello" false cache1 1
       = (Ok (Some 5), cache2, 1)
       /\ cache (option Z) cache2 = cache (option Z) cache1.
Proof.
  intros cache0 cache1.
  assert (Hrun : CacheSamples.cached_embedding "hello" true cache0 0
                 = (Ok (Some 5), cache1, 1)) by (vm_compute; reflexivity).
  split; [exact Hrun|].
  exact (cached_embedding_memo (option Z) Z CacheSamples.is_None string bool
           Samples.string_key CacheSamples.count_calls "hello" "hello"
           true false cache0 cache1 0 1 1 (Some 5) Hrun eq_refl eq_refl).
Defined.

(** A search that fails leaves the query cache empty. *)
Lemma cached_query_miss_witness :
  let cache0 := init (option Z) 128 in
  exists cache1,
    CacheSamples.cached_query "words" [5] [("min_score", 1)] cache0 0
    = (Raise (BackendError "search failed"), cache1, 1)
    /\ cache (option Z) cache1 = cache (option Z) cache0.
Proof.
  intros cache0.
  exact (proj1 (cached_query_miss (option Z) Z CacheSamples.is_None string Z
                  (fun kw => kw) CacheSamples.query_key
                  CacheSamples.failing_search "words" [5] [("min_score", 1)]
                  cache0 0 eq_refl)
           (BackendError "search failed") 1 eq_refl).
Defined.

End DecoratorFacts.

(** ** Indexing: what reaches the store, and when *)

Module IndexingMore.
Import Py Splitter Props ChunkInvariant DeleteFacts IndexFacts.
Import WindowFacts CoverageFacts.

Lemma record_metadata_lookup (document_id : string)
    (document : Document.Document) (chunk : Chunk) :
  let md := Indexing.record_metadata document_id document chunk in
  md !! "document_id" = Some (PStr document_id)
  /\ md !! "file_path" = Some (PStr (Document.file_path document))
  /\ md !! "file_name" = Some (PStr (Document.file_name document))
  /\ md !! "file_type" = Some (PStr (Document.file_type document))
  /\ md !! "start_char" = Some (PInt (start_char chunk))
  /\ md !! "end_char" = Some (PInt (end_char chunk))
  /\ md !! "char_count" = Some (PInt (char_count chunk)).
Proof.
  assert (Hcopy : forall key k doc_meta (m : gmap string pyval),
             key <> k ->
             Indexing.copy_key key doc_meta m !! k = m !! k).
  { intros key k doc_meta m Hkey. unfold Indexing.copy_key.
    destruct (doc_meta !! key); [|done]. by rewrite lookup_insert_ne. }
  cbn zeta. unfold Indexing.record_metadata.
  destruct (truthy _); rewrite ?Hcopy by done; repeat split;
    by simplify_map_eq.
Qed.

Section Index.
Context {Store Emb Num : Type}.
Variable collection : Chroma.Collection Store Emb Num.
Variable embedding_function : option (list N -> Emb).
Variable fresh_ids : nat -> list string.
Variable path_exists : string -> bool.
Variable process_document : string -> option Document.Document.
Variable encode : list (list N) -> result (list Emb).
Variable tail : Z -> Z.
Variable text_splitter : TextSplitter.

Local Abbreviation index_document :=
  (Indexing.index_document collection embedding_function fresh_ids
     path_exists process_document encode tail text_splitter).

Lemma attach_embeddings_zip (chunks : list Chunk) (embeddings : list Emb) :
  forall i,
    Indexing.attach_embeddings i chunks embeddings
    = if decide (chunks = [] \/ (i + length chunks <= length embeddings)%nat)
      then Ok (zip chunks (drop i embeddings))
      else Raise IndexError.
Proof.
  induction chunks as [|c rest IH]; intros i; cbn [Indexing.attach_embeddings].
  - rewrite decide_True by (by left). done.
  - destruct (embeddings !! i) as [e|] eqn:He.
    + pose proof (lookup_lt_Some _ _ _ He) as Hlt.
      rewrite IH. rewrite (drop_S _ _ _ He). cbn [zip zip_with length].
      destruct (decide (rest = [] \/ _)) as [H|H].
      * rewrite decide_True; [done|]. right.
        destruct H as [->|H]; cbn [length]; lia.
      * rewrite decide_False; [done|]. intros [?|?]; [done|].
        apply H. right. lia.
    + apply lookup_ge_None in He.
      rewrite decide_False; [done|]. intros [?|?]; [done|].
      cbn [length] in *. lia.
Qed.

(** X14.  [encode_chunks] gives chunk [i] the vector [i] of what the model
    returns for the chunk texts, and raises [IndexError] when the model
    returns fewer vectors than there are chunks; vectors beyond the last
    chunk are ignored.  An error of the model is passed on. *)
Theorem encode_chunks_pairs (chunks : list Chunk) :
  chunks <> [] ->
  (forall e, encode (map text chunks) = Raise e ->
             Indexing.encode_chunks encode chunks = Raise e)
  /\ (forall embeddings,
        encode (map text chunks) = Ok embeddings ->
        Indexing.encode_chunks encode chunks
        = if decide (length chunks <= length embeddings)%nat
          then Ok (zip chunks embeddings)
          else Raise IndexError).
Proof.
  intros Hne. unfold Indexing.encode_chunks.
  destruct chunks as [|c rest]; [done|]. split.
  - by intros e ->.
  - intros embeddings ->. rewrite attach_embeddings_zip. rewrite drop_0.
    destruct (decide (length (c :: rest) <= length embeddings)%nat).
    + rewrite decide_True; [done|]. by right.
    + rewrite decide_False; [done|]. by intros [?|?].
Qed.

(** The outcome of [index_document] when the chunks could not be given
    their vectors. *)
Lemma index_chunks_unencoded (document_id file_path : string)
    (overwrite : bool) (document : Document.Document) (chunks : list Chunk)
    (e : exn) (s : Store) :
  chunks <> [] ->
  Indexing.encode_chunks encode chunks = Raise e ->
  Indexing.index_chunks collection embedding_function fresh_ids encode
    document_id file_path overwrite document chunks s = (Raise e, s).
Proof.
  intros Hne Henc. unfold Indexing.index_chunks.
  destruct chunks; [done|]. run_monad. by rewrite Henc.
Qed.


(** X16.  When [index_document] succeeds, the document was converted and split
    into at least one chunk, every chunk got a vector, the records of the
    path were deleted first if [overwrite] was set, and one batch was
    added.  Every record of the batch carries the identifier minted in
    this call and the path, name and type of the converted document;
    record [i] carries the offsets and the character count of chunk [i].
    The answer reports the identifier and the number of chunks. *)
Theorem index_document_record (fuel : nat) (document_id file_path : string)
    (overwrite : bool) (s s' : Store) (res : Indexing.IndexResult) :
  index_document fuel document_id file_path overwrite s = Some (Ok res, s') ->
  exists document chunks cwe s1,
    path_exists file_path = true
    /\ process_document file_path = Some document
    /\ SplitDocument.split_document tail text_splitter fuel document
       = Some chunks
    /\ chunks <> []
    /\ Indexing.encode_chunks encode chunks = Ok cwe
    /\ (if overwrite
        then Chroma.coll_delete collection None
               (Some {[ "file_path" := PStr file_path ]}) s = Ok s1
        else s1 = s)
    /\ Chroma.coll_add collection
         (Indexing.prepare document_id document cwe) s1 = Ok s'
    /\ Indexing.success res = true
    /\ Indexing.document_id res = document_id
    /\ Indexing.file_path res = file_path
    /\ Indexing.chunks_count res = len chunks
    /\ length (Chroma.b_metadatas (Indexing.prepare document_id document cwe))
       = length chunks
    /\ forall i chunk,
         chunks !! i = Some chunk ->
         exists md,
           Chroma.b_metadatas (Indexing.prepare document_id document cwe) !! i
           = Some md
           /\ md !! "document_id" = Some (PStr document_id)
           /\ md !! "file_path" = Some (PStr (Document.file_path document))
           /\ md !! "file_name" = Some (PStr (Document.file_name document))
           /\ md !! "file_type" = Some (PStr (Document.file_type document))
           /\ md !! "start_char" = Some (PInt (start_char chunk))
           /\ md !! "end_char" = Some (PInt (end_char chunk))
           /\ md !! "char_count" = Some (PInt (char_count chunk)).
Proof.
  unfold Indexing.index_document.
  destruct (path_exists file_path); [|discriminate]. cbn [negb].
  destruct (process_document file_path) as [document|]; [|discriminate].
  destruct (SplitDocument.split_document tail text_splitter fuel document)
    as [chunks|] eqn:Hsplit; [|discriminate].
  intros [= Hrun].
  assert (Hne : chunks <> []) by (intros ->; discriminate).
  destruct (Indexing.encode_chunks encode chunks) as [cwe|e] eqn:Henc.
  2: { by rewrite (index_chunks_unencoded _ _ _ _ _ e s Hne Henc) in Hrun. }
  rewrite (index_chunks_eq collection embedding_function fresh_ids encode
             document_id file_path overwrite document chunks cwe s Hne Henc)
    in Hrun.
  pose proof (encode_chunks_fst encode chunks cwe Henc) as Hfst.
  assert (Hstore : exists s1,
             (if overwrite
              then Chroma.coll_delete collection None
                     (Some {[ "file_path" := PStr file_path ]}) s = Ok s1
              else s1 = s)
             /\ Chroma.coll_add collection
                  (Indexing.prepare document_id document cwe) s1 = Ok s'
             /\ res = {| Indexing.success := true;
                         Indexing.document_id := document_id;
                         Indexing.chunks_count := len chunks;
                         Indexing.file_path := file_path;
                         Indexing.file_name := Document.file_name document;
                         Indexing.message :=
                           "Document successfully indexed: "
                           +:+ str_of_int (len chunks) +:+ " chunks" |}).
  { destruct overwrite.
    - destruct (Chroma.coll_delete collection _ _ s) as [s1|]; [|discriminate].
      exists s1. destruct (Chroma.coll_add collection _ s1); [|discriminate].
      by injection Hrun as <- <-.
    - exists s. destruct (Chroma.coll_add collection _ s); [|discriminate].
      by injection Hrun as <- <-. }
  destruct Hstore as (s1 & Hdel & Hadd & ->).
  exists document, chunks, cwe, s1.
  repeat (split; [done|]).
  split; [cbn; by rewrite length_map, <- Hfst, length_map|].
  intros i chunk Hi. rewrite <- Hfst, list_lookup_fmap in Hi.
  destruct (cwe !! i) as [[c e]|] eqn:Hce; [|discriminate].
  cbn in Hi. injection Hi as ->.
  eexists. split; [cbn; by rewrite list_lookup_fmap, Hce|].
  apply record_metadata_lookup.
Qed.

(** What the answer of a successful [index_document] says. *)
Lemma index_document_answer (fuel : nat) (document_id file_path : string)
    (overwrite : bool) (s s' : Store) (res : Indexing.IndexResult) :
  index_document fuel document_id file_path overwrite s = Some (Ok res, s') ->
  Indexing.success res = true
  /\ Indexing.document_id res = document_id
  /\ Indexing.file_path res = file_path.
Proof.
  unfold Indexing.index_document.
  destruct (path_exists file_path); [|discriminate]. cbn [negb].
  destruct (process_document file_path) as [document|]; [|discriminate].
  destruct (SplitDocument.split_document tail text_splitter fuel document)
    as [chunks|] eqn:Hsplit; [|discriminate].
  intros [= Hrun].
  assert (Hne : chunks <> []) by (intros ->; discriminate).
  destruct (Indexing.encode_chunks encode chunks) as [cwe|e] eqn:Henc.
  2: { by rewrite (index_chunks_unencoded _ _ _ _ _ e s Hne Henc) in Hrun. }
  rewrite (index_chunks_eq collection embedding_function fresh_ids encode
             document_id file_path overwrite document chunks cwe s Hne Henc)
    in Hrun.
  destruct (if overwrite then _ else _) as [s1|]; [|discriminate].
  destruct (Chroma.coll_add collection _ s1); [|discriminate].
  by injection Hrun as <- _.
Qed.

(** With [chunk_size >= 1] and fuel for the text, [index_document]
    returns or raises. *)
Lemma index_document_returns (fuel : nat) (document_id file_path : string)
    (overwrite : bool) (s : Store) :
  1 <= chunk_size text_splitter ->
  (forall document txt,
      process_document file_path = Some document ->
      Document.full_text document = Some txt -> (length txt <= fuel)%nat) ->
  exists out, index_document fuel document_id file_path overwrite s = Some out.
Proof.
  intros Hcs Hfuel. unfold Indexing.index_document.
  destruct (path_exists file_path); cbn [negb]; [|by eexists].
  destruct (process_document file_path) as [document|]; [|by eexists].
  specialize (Hfuel document).
  unfold SplitDocument.split_document.
  destruct (Document.full_text document) as [txt|]; [|by eexists].
  specialize (Hfuel txt eq_refl eq_refl).
  unfold split_text.
  destruct (bool_decide (txt = []) || bool_decide (strip txt = []));
    [by eexists|].
  destruct (len (strip txt) <=? chunk_size text_splitter); [by eexists|].
  destruct (SplitterFacts.split_loop_terminates tail text_splitter (strip txt)
              (Some (SplitDocument.chunk_metadata document))
              (length (strip txt))
              {| current_pos := 0; next_index := 0; chunks := [] |} Hcs)
    as [chunks Hchunks].
  { unfold len. simpl. lia. }
  rewrite (SplitterFacts.split_loop_more_fuel _ _ _ _ _ fuel _ _ Hchunks).
  - by eexists.
  - pose proof (PyFacts.strip_length txt). lia.
Qed.

End Index.

Section Batch.
Context {Store Emb Num : Type}.
Variable collection : Chroma.Collection Store Emb Num.
Variable embedding_function : option (list N -> Emb).
Variable fresh_ids : nat -> list string.
Variable path_exists : string -> bool.
Variable process_document : string -> option Document.Document.
Variable encode : list (list N) -> result (list Emb).
Variable tail : Z -> Z.
Variable text_splitter : TextSplitter.
Variable converter_available : bool.
Variable walk : string -> list (string * string).
Variable join : string -> string -> string.
Variable file_ext : string -> string.
Variable str : exn -> string.
Variable uuid4 : nat -> string.

Local Abbreviation index_each :=
  (Directory.index_each collection embedding_function fresh_ids path_exists
     process_document encode tail text_splitter str uuid4).
Local Abbreviation index_directory :=
  (Directory.index_directory collection embedding_function fresh_ids
     path_exists process_document encode tail text_splitter
     converter_available walk join file_ext str uuid4).
Local Abbreviation process_directory :=
  (Directory.process_directory process_document converter_available walk
     join file_ext).

Lemma index_each_spec (fuel : nat) (overwrite : bool)
    (docs : list Document.Document) :
  forall n results s out s',
    index_each fuel overwrite n docs results s = Some (out, s') ->
    exists new,
      out = results ++ new
      /\ map Directory.entry_file_path new = map Document.file_path docs
      /\ forall i res,
           new !! i = Some (Directory.Indexed res) ->
           Indexing.success res = true
           /\ Indexing.document_id res = uuid4 (n + i).
Proof.
  induction docs as [|doc rest IH]; intros n results s out s';
    cbn [Directory.index_each].
  - intros [= <- <-]. exists []. rewrite app_nil_r. by repeat split.
  - destruct (Indexing.index_document _ _ _ _ _ _ _ _ _ _ _ _ s)
      as [[[res|e] s1]|] eqn:Hdoc; [| |discriminate].
    + intros Hrest. destruct (IH _ _ _ _ _ Hrest) as (new & -> & Hpaths & Hok).
      destruct (index_document_answer _ _ _ _ _ _ _ _ _ _ _ _ _ _ _ Hdoc)
        as (Hs & Hid & Hp).
      exists (Directory.Indexed res :: new).
      split; [by rewrite <- app_assoc|]. split; [cbn; by rewrite Hp, Hpaths|].
      intros [|i] r; cbn.
      * intros [= <-]. by rewrite Nat.add_0_r.
      * intros Hi. replace (n + S i)%nat with (S n + i)%nat by lia.
        by apply Hok.
    + intros Hrest. destruct (IH _ _ _ _ _ Hrest) as (new & -> & Hpaths & Hok).
      exists (Directory.Failed (Document.file_path doc) (str e) :: new).
      split; [by rewrite <- app_assoc|]. split; [cbn; by rewrite Hpaths|].
      intros [|i] r; cbn; [discriminate|].
      intros Hi. replace (n + S i)%nat with (S n + i)%nat by lia.
      by apply Hok.
Qed.

Lemma index_each_returns (fuel : nat) (overwrite : bool)
    (docs : list Document.Document) :
  1 <= chunk_size text_splitter ->
  (forall path document txt,
      process_document path = Some document ->
      Document.full_text document = Some txt -> (length txt <= fuel)%nat) ->
  forall n results s,
    exists out, index_each fuel overwrite n docs results s = Some out.
Proof.
  intros Hcs Hfuel.
  induction docs as [|doc rest IH]; intros n results s;
    cbn [Directory.index_each]; [by eexists|].
  destruct (index_document_returns collection embedding_function fresh_ids
              path_exists process_document encode tail text_splitter fuel
              (uuid4 n) (Document.file_path doc) overwrite s Hcs
              (Hfuel (Document.file_path doc))) as [[[res|e] s1] ->];
    apply IH.
Qed.

(** X17.  [index_directory] raises [FileNotFoundError] for a path that does not
    exist and touches nothing.  Otherwise it does not raise: it returns
    one entry for each document that [process_directory] converted, in
    that order and with that document's path, whether indexing the
    document succeeded or raised; an entry of a success reports the
    identifier minted for it.  A file of the directory has a document, and
    so an entry, only if its extension is a supported one and the
    converter returned a document for it.  With [chunk_size >= 1] and fuel
    for the longest text the call does return. *)
Theorem index_directory_results (fuel : nat) (directory_path : string)
    (overwrite : bool) (s : Store) :
  (path_exists directory_path = false ->
   index_directory fuel directory_path overwrite s
   = Some (Raise (FileNotFoundError
                    ("Directory not found: " +:+ directory_path)), s))
  /\ (forall r s',
        path_exists directory_path = true ->
        index_directory fuel directory_path overwrite s = Some (r, s') ->
        exists results,
          r = Ok results
          /\ map Directory.entry_file_path results
             = map Document.file_path (process_directory directory_path)
          /\ forall i res,
               results !! i = Some (Directory.Indexed res) ->
               Indexing.success res = true
               /\ Indexing.document_id res = uuid4 i)
  /\ (forall document,
        document ∈ process_directory directory_path ->
        exists root file,
          (root, file) ∈ walk directory_path
          /\ file_ext file ∈ Directory.SUPPORTED_EXTENSIONS
          /\ process_document (join root file) = Some document)
  /\ (path_exists directory_path = true ->
      1 <= chunk_size text_splitter ->
      (forall path document txt,
          process_document path = Some document ->
          Document.full_text document = Some txt -> (length txt <= fuel)%nat) ->
      exists results s',
        index_directory fuel directory_path overwrite s
        = Some (Ok results, s')).
Proof.
  unfold Directory.index_directory.
  split; [by intros ->|]. split; [|split].
  - intros r s' -> . cbn [negb].
    destruct (process_directory directory_path) as [|doc rest] eqn:Hdocs.
    { intros [= <- <-]. exists []. by repeat split. }
    destruct (index_each fuel overwrite 0 (doc :: rest) [] s)
      as [[results s1]|] eqn:Hrun; [|discriminate].
    intros [= <- <-].
    destruct (index_each_spec _ _ _ _ _ _ _ _ Hrun) as (new & -> & Hp & Hok).
    exists new. split; [done|]. split; [done|]. exact Hok.
  - intros document. unfold Directory.process_directory.
    destruct converter_available; cbn [negb]; [|by intros ?%elem_of_nil].
    intros ([root file] & Hin & Hdoc)%list_elem_of_omap.
    exists root, file. split; [done|].
    destruct (bool_decide _) eqn:Hext; [|discriminate].
    by apply bool_decide_eq_true in Hext.
  - intros -> Hcs Hfuel. cbn [negb].
    destruct (process_directory directory_path) as [|doc rest];
      [by eexists _, _|].
    destruct (index_each_returns fuel overwrite (doc :: rest) Hcs Hfuel
                0%nat [] s) as [[results s1] ->].
    by eexists _, _.
Qed.

End Batch.

End IndexingMore.

(** ** Indexing on the sample installation *)

Module IndexingExamples.
Import Py Splitter Props ChunkInvariant DeleteFacts IndexFacts IndexingMore.

(** Two chunks and a model that returns one vector, or two. *)
Lemma encode_chunks_pairs_witness :
  Indexing.encode_chunks IndexSamples.encode_short [first_chunk; second_chunk]
  = Raise IndexError
  /\ Indexing.encode_chunks Samples.encode [first_chunk; second_chunk]
     = Ok [(first_chunk, tt); (second_chunk, tt)].
Proof.
  split.
  - rewrite (proj2 (encode_chunks_pairs IndexSamples.encode_short
                      [first_chunk; second_chunk] ltac:(discriminate))
               _ eq_refl).
    reflexivity.
  - rewrite (proj2 (encode_chunks_pairs Samples.encode
                      [first_chunk; second_chunk] ltac:(discriminate))
               _ eq_refl).
    reflexivity.
Defined.


(** Indexing the notes into an empty store. *)
Lemma index_document_record_witness :
  let s' :=
    IndexSamples.store_after
      (Samples.index_document 21 "doc-1" "notes.txt" false
         Samples.empty_store) in
  exists res,
    Samples.index_document 21 "doc-1" "notes.txt" false Samples.empty_store
    = Some (Ok res, s')
    /\ Indexing.chunks_count res = 3
    /\ exists document chunks cwe,
         Samples.process_document "notes.txt" = Some document
         /\ SplitDocument.split_document fifth small_splitter 21 document
            = Some chunks
         /\ Indexing.encode_chunks Samples.encode chunks = Ok cwe
         /\ Chroma.coll_add Samples.collection
              (Indexing.prepare "doc-1" document cwe) Samples.empty_store
            = Ok s'
         /\ forall i chunk,
              chunks !! i = Some chunk ->
              exists md,
                Chroma.b_metadatas (Indexing.prepare "doc-1" document cwe) !! i
                = Some md
                /\ md !! "document_id" = Some (PStr "doc-1")
                /\ md !! "file_path" = Some (PStr (Document.file_path document))
                /\ md !! "start_char" = Some (PInt (start_char chunk))
                /\ md !! "end_char" = Some (PInt (end_char chunk)).
Proof.
  intros s'. unfold Samples.index_document.
  eexists.
  assert (Hrun : Indexing.index_document Samples.collection None
                   Samples.fresh_ids Samples.path_exists
                   Samples.process_document Samples.encode fifth
                   small_splitter 21 "doc-1" "notes.txt" false
                   Samples.empty_store = Some (Ok _, s'))
    by (vm_compute; reflexivity).
  split; [exact Hrun|]. split; [vm_compute; reflexivity|].
  destruct (index_document_record Samples.collection None Samples.fresh_ids
              Samples.path_exists Samples.process_document Samples.encode
              fifth small_splitter 21 "doc-1" "notes.txt" false _ _ _ Hrun)
    as (document & chunks & cwe & s1 & _ & Hdoc & Hsplit & _ & Henc & Hs1
        & Hadd & _ & _ & _ & _ & _ & Hmd).
  cbn iota in Hs1. subst s1.
  exists document, chunks, cwe.
  split; [exact Hdoc|]. split; [exact Hsplit|]. split; [exact Henc|].
  split; [exact Hadd|].
  intros i chunk Hi.
  destruct (Hmd i chunk Hi) as (md & H1 & H2 & H3 & _ & _ & H4 & H5 & _).
  exists md. split; [exact H1|]. split; [exact H2|]. split; [exact H3|].
  split; [exact H4|exact H5].
Defined.

(** A directory of four files: the notes are indexed, the blank file is
    reported as failed, and the other two have no entry. *)
Lemma index_directory_results_witness :
  (IndexSamples.index_directory 21 "missing" false Samples.empty_store
   = Some (Raise (FileNotFoundError "Directory not found: missing"),
           Samples.empty_store))
  /\ exists results s',
       IndexSamples.index_directory 21 "." false Samples.empty_store
       = Some (Ok results, s')
       /\ map Directory.entry_file_path results = ["notes.txt"; "blank.txt"]
       /\ map Directory.entry_success results = [true; false]
       /\ forall i res,
            results !! i = Some (Directory.Indexed res) ->
            Indexing.success res = true
            /\ Indexing.document_id res = IndexSamples.uuid4 i.
Proof.
  unfold IndexSamples.index_directory.
  pose proof (index_directory_results Samples.collection None
                Samples.fresh_ids
                (fun path => negb (String.eqb path "missing"))
                IndexSamples.process_document Samples.encode fifth
                small_splitter true IndexSamples.walk IndexSamples.join
                IndexSamples.file_ext IndexSamples.str IndexSamples.uuid4)
    as Hthm.
  split; [exact (proj1 (Hthm 21%nat "missing" false Samples.empty_store) eq_refl)|].
  eexists _, _.
  assert (Hrun : Directory.index_directory Samples.collection None
                   Samples.fresh_ids
                   (fun path => negb (String.eqb path "missing"))
                   IndexSamples.process_document Samples.encode fifth
                   small_splitter true IndexSamples.walk IndexSamples.join
                   IndexSamples.file_ext IndexSamples.str IndexSamples.uuid4
                   21 "." false Samples.empty_store = Some (Ok _, _))
    by (vm_compute; reflexivity).
  split; [exact Hrun|].
  split; [vm_compute; reflexivity|]. split; [vm_compute; reflexivity|].
  destruct (proj1 (proj2 (Hthm 21%nat "." false Samples.empty_store))
              _ _ eq_refl Hrun) as (results & Heq & _ & Hok).
  injection Heq as <-. exact Hok.
Defined.

End IndexingExamples.

Module DeleteMore.
Import Py Splitter Props DeleteFacts.

Section Delete.
Context {Store Emb Num : Type}.
Variable collection : Chroma.Collection Store Emb Num.


End Delete.


End DeleteMore.

(** ** Listing the collection: pages and groups *)

Module ListingFacts.
Import Py PyFacts ChunkFacts Listing.

Lemma sliced_eq {A} (l : list A) (lo hi : Z) : sliced l lo hi = slice l lo hi.
Proof. destruct l; [|done]. unfold slice. by rewrite drop_nil, take_nil. Qed.

(** A slice from a bound that is not negative is no longer than the
    distance of its bounds. *)
Lemma slice_length_bound {A} (l : list A) (lo hi n : Z) :
  0 <= lo -> 0 <= hi -> hi <= lo + n -> 0 <= n ->
  (length (slice l lo hi) <= Z.to_nat n)%nat.
Proof.
  intros Hlo Hhi0 Hhi Hn. unfold slice, clamp_index.
  rewrite length_take, length_drop. pose proof (len_nonneg l).
  unfold len in *.
  destruct (Z.ltb_spec lo 0); [lia|]. destruct (Z.ltb_spec hi 0); lia.
Qed.

(** A slice from 0 to a bound that is not below the length is the list. *)
Lemma slice_all {A} (l : list A) (hi : Z) : len l <= hi -> slice l 0 hi = l.
Proof.
  intros Hhi. unfold slice, clamp_index. pose proof (len_nonneg l).
  destruct (Z.ltb_spec 0 0); [lia|]. destruct (Z.ltb_spec hi 0); [lia|].
  replace (Z.to_nat (Z.min 0 (len l))) with O by lia. cbn [drop].
  apply take_ge. unfold len in *. lia.
Qed.

Section Pages.
Context {Store Emb Num : Type}.
Variable collection : Chroma.Collection Store Emb Num.
Variable coll_get : option Z -> list string -> Store -> result GetResult.

Local Abbreviation get_all_documents :=
  (get_all_documents collection coll_get).

(** The lists that [get_all_documents] cuts its answer from: the first
    inner lists of the reply to its query when a filter is given, the
    lists of the reply to its [get] otherwise. *)
Lemma get_all_documents_window (limit offset : option Z)
    (where_ : option (gmap string pyval)) (s : Store) (r : GetResult) :
  get_all_documents limit offset where_ s = Ok r ->
  exists ids documents metadatas lo hi,
    0 <= lo
    /\ g_ids r = slice ids lo hi
    /\ g_documents r = slice documents lo hi
    /\ g_metadatas r = slice metadatas lo hi
    /\ (forall n, limit = Some n -> 0 < n ->
          (length (g_ids r) <= Z.to_nat n)%nat)
    /\ ((Splitter.truthy where_ = true
         /\ exists n reply,
              Chroma.coll_query collection (Chroma.QueryTexts [""]) n where_
                ["metadatas"; "documents"] s = Ok reply
              /\ ids = first_or_empty (default [[]] (Chroma.ids reply))
              /\ documents = first_or_empty (Chroma.documents reply)
              /\ metadatas = first_or_empty (Chroma.metadatas reply))
        \/ (Splitter.truthy where_ = false
            /\ exists fetch_limit reply,
                 coll_get fetch_limit ["metadatas"; "documents"] s = Ok reply
                 /\ ids = g_ids reply
                 /\ documents = g_documents reply
                 /\ metadatas = g_metadatas reply)).
Proof.
  assert (Hwhole : forall (ids : list string) (documents : list (list N))
                     (metadatas : list (gmap string pyval)),
             let hi := Z.max (len ids) (Z.max (len documents) (len metadatas)) in
             ids = slice ids 0 hi /\ documents = slice documents 0 hi
             /\ metadatas = slice metadatas 0 hi).
  { intros ids documents metadatas hi.
    rewrite !slice_all by (unfold hi; lia). done. }
  unfold Listing.get_all_documents.
  destruct (Splitter.truthy where_) eqn:Hw.
  - destruct (Chroma.coll_count collection s) as [all_count|]; [|discriminate].
    destruct (Chroma.coll_query collection _ _ _ _ s) as [reply|] eqn:Hq;
      [|discriminate].
    set (ids := first_or_empty (default [[]] (Chroma.ids reply))).
    set (documents := first_or_empty (Chroma.documents reply)).
    set (metadatas := first_or_empty (Chroma.metadatas reply)).
    assert (Hsrc : exists n reply',
                     Chroma.coll_query collection (Chroma.QueryTexts [""]) n
                       where_ ["metadatas"; "documents"] s = Ok reply'
                     /\ ids = first_or_empty (default [[]] (Chroma.ids reply'))
                     /\ documents = first_or_empty (Chroma.documents reply')
                     /\ metadatas = first_or_empty (Chroma.metadatas reply'))
      by (by eexists _, reply).
    destruct (positive offset) eqn:Hoff.
    + destruct offset as [off|]; [|discriminate]. cbn in Hoff.
      apply Z.ltb_lt in Hoff. cbn [default].
      intros [= <-]. cbn [g_ids g_documents g_metadatas].
      rewrite !sliced_eq.
      eexists ids, documents, metadatas, off, _.
      split; [lia|]. repeat (split; [reflexivity|]).
      split; [|left; split; [done|exact Hsrc]].
      intros n -> Hn. cbn.
      destruct (Z.eqb_spec n 0); [lia|]. cbn.
      apply slice_length_bound; lia.
    + destruct (nonzero limit && (default 0 limit <? len ids)) eqn:Hlim.
      * apply andb_true_iff in Hlim as [Hnz Hlt].
        intros [= <-]. cbn [g_ids g_documents g_metadatas].
        rewrite !sliced_eq.
        eexists ids, documents, metadatas, 0, _.
        split; [lia|]. repeat (split; [reflexivity|]).
        split; [|left; split; [done|exact Hsrc]].
        intros n -> Hn. cbn. apply slice_length_bound; lia.
      * intros [= <-]. cbn [g_ids g_documents g_metadatas].
        destruct (Hwhole ids documents metadatas) as (H1 & H2 & H3).
        eexists ids, documents, metadatas, 0, _.
        split; [lia|]. split; [exact H1|]. split; [exact H2|].
        split; [exact H3|].
        split; [|left; split; [done|exact Hsrc]].
        intros n -> Hn. cbn in Hlim.
        destruct (Z.eqb_spec n 0); [lia|]. cbn in Hlim.
        apply Z.ltb_ge in Hlim. unfold len in Hlim. lia.
  - destruct (nonzero limit || nonzero offset) eqn:Hany.
    + destruct (coll_get _ _ s) as [reply|] eqn:Hg; [|discriminate].
      assert (Hsrc : exists fetch_limit reply',
                       coll_get fetch_limit ["metadatas"; "documents"] s
                       = Ok reply'
                       /\ g_ids reply = g_ids reply'
                       /\ g_documents reply = g_documents reply'
                       /\ g_metadatas reply = g_metadatas reply')
        by (by eexists _, reply).
      destruct (positive offset) eqn:Hoff.
      * destruct offset as [off|]; [|discriminate]. cbn in Hoff.
        apply Z.ltb_lt in Hoff. cbn [default].
        intros [= <-]. cbn [g_ids g_documents g_metadatas].
        rewrite !sliced_eq.
        eexists (g_ids reply), (g_documents reply), (g_metadatas reply), off, _.
        split; [lia|]. repeat (split; [reflexivity|]).
        split; [|right; split; [done|exact Hsrc]].
        intros n -> Hn. cbn.
        destruct (Z.eqb_spec n 0); [lia|]. cbn.
        apply slice_length_bound; lia.
      * destruct (nonzero limit && _) eqn:Hlim.
        -- apply andb_true_iff in Hlim as [Hnz Hne].
           intros [= <-]. cbn [g_ids g_documents g_metadatas].
           rewrite !sliced_eq.
           eexists (g_ids reply), (g_documents reply), (g_metadatas reply), 0, _.
           split; [lia|]. repeat (split; [reflexivity|]).
           split; [|right; split; [done|exact Hsrc]].
           intros n -> Hn. cbn. apply slice_length_bound; lia.
        -- intros [= <-].
           destruct (Hwhole (g_ids reply) (g_documents reply)
                       (g_metadatas reply)) as (H1 & H2 & H3).
           eexists (g_ids reply), (g_documents reply), (g_metadatas reply), 0, _.
           split; [lia|]. split; [exact H1|]. split; [exact H2|].
           split; [exact H3|].
           split; [|right; split; [done|exact Hsrc]].
           intros n -> Hn. cbn in Hlim.
           destruct (Z.eqb_spec n 0); [lia|]. cbn in Hlim.
           destruct (g_ids reply); [simpl; lia|discriminate].
    + intros Hg.
      destruct (Hwhole (g_ids r) (g_documents r) (g_metadatas r))
        as (H1 & H2 & H3).
      eexists (g_ids r), (g_documents r), (g_metadatas r), 0, _.
      split; [lia|]. split; [exact H1|]. split; [exact H2|].
      split; [exact H3|].
      split; [|right; split; [done|]; by eexists _, r].
      intros n -> Hn. cbn in Hany. destruct (Z.eqb_spec n 0); [lia|done].
Qed.

(** X19.  What [get_all_documents] returns is a window of what the collection
    answered: identifiers, texts and metadata are cut at the same two
    positions, so equally long lists stay equally long, and with a
    [limit] above zero there are at most [limit] identifiers.  A [limit]
    or an [offset] of zero is as good as none. *)
Theorem get_all_documents_page (limit offset : option Z)
    (where_ : option (gmap string pyval)) (s : Store) :
  get_all_documents (Some 0) offset where_ s
  = get_all_documents None offset where_ s
  /\ get_all_documents limit (Some 0) where_ s
     = get_all_documents limit None where_ s
  /\ forall r,
       get_all_documents limit offset where_ s = Ok r ->
       (forall n, limit = Some n -> 0 < n ->
          (length (g_ids r) <= Z.to_nat n)%nat)
       /\ exists ids documents metadatas lo hi,
            g_ids r = slice ids lo hi
            /\ g_documents r = slice documents lo hi
            /\ g_metadatas r = slice metadatas lo hi
            /\ (length documents = length ids ->
                length (g_documents r) = length (g_ids r))
            /\ (length metadatas = length ids ->
                length (g_metadatas r) = length (g_ids r))
            /\ ((Splitter.truthy where_ = true
                 /\ exists n reply,
                      Chroma.coll_query collection (Chroma.QueryTexts [""]) n
                        where_ ["metadatas"; "documents"] s = Ok reply
                      /\ ids = first_or_empty (default [[]] (Chroma.ids reply))
                      /\ documents = first_or_empty (Chroma.documents reply)
                      /\ metadatas = first_or_empty (Chroma.metadatas reply))
                \/ (Splitter.truthy where_ = false
                    /\ exists fetch_limit reply,
                         coll_get fetch_limit ["metadatas"; "documents"] s
                         = Ok reply
                         /\ ids = g_ids reply
                         /\ documents = g_documents reply
                         /\ metadatas = g_metadatas reply)).
Proof.
  split; [reflexivity|]. split; [reflexivity|].
  intros r Hrun.
  destruct (get_all_documents_window limit offset where_ s r Hrun)
    as (ids & documents & metadatas & lo & hi & Hlo & H1 & H2 & H3 & Hlim
        & Hsrc).
  split; [exact Hlim|].
  exists ids, documents, metadatas, lo, hi.
  repeat (split; [assumption|]).
  assert (Hlen : forall {A B} (l : list A) (k : list B),
             length l = length k ->
             length (slice l lo hi) = length (slice k lo hi)).
  { intros A B l k Hlk. unfold slice, len.
    rewrite !length_take, !length_drop. by rewrite Hlk. }
  split; [intros Hl; rewrite H1, H2; by apply Hlen|].
  split; [intros Hl; rewrite H1, H3; by apply Hlen|].
  exact Hsrc.
Qed.

End Pages.

(** *** Grouping the records by document *)

Lemma update_key_keys (k : dict_key) (f : DocumentInfo -> DocumentInfo)
    (m : documents_map) :
  map fst (update_key k f m) = map fst m.
Proof.
  unfold update_key. rewrite map_map. apply map_ext.
  intros [k' d]. cbn. by destruct (decide (k' = k)).
Qed.

Lemma elem_of_update_key (k : dict_key) (f : DocumentInfo -> DocumentInfo)
    (m : documents_map) (k' : dict_key) (d' : DocumentInfo) :
  (k', d') ∈ update_key k f m
  <-> exists d, (k', d) ∈ m /\ d' = if decide (k' = k) then f d else d.
Proof.
  unfold update_key. rewrite list_elem_of_fmap. split.
  - intros ([k0 d0] & Heq & Hin). cbn in Heq.
    destruct (decide (k0 = k)) as [->|Hne]; injection Heq as -> ->.
    + exists d0. by rewrite decide_True.
    + exists d0. by rewrite decide_False.
  - intros (d & Hin & ->). exists (k', d). split; [|done]. cbn.
    by destruct (decide (k' = k)).
Qed.

Lemma ids_under_app (ids : list string) (k : dict_key)
    (l1 l2 : list (nat * gmap string pyval)) :
  ids_under ids k (l1 ++ l2) = ids_under ids k l1 ++ ids_under ids k l2.
Proof. unfold ids_under. apply omap_app. Qed.

Lemma ids_under_nil (ids : list string) (k : dict_key)
    (seen : list (nat * gmap string pyval)) :
  (forall i metadata, (i, metadata) ∈ seen -> group_key metadata <> Some k) ->
  ids_under ids k seen = [].
Proof.
  induction seen as [|[i md] rest IH]; intros Hno; [done|].
  unfold ids_under. cbn.
  rewrite decide_False by (apply (Hno i); by left).
  apply IH. intros j md' Hin. apply (Hno j). by right.
Qed.

Lemma group_step_grouped (ids : list string) (i : nat)
    (metadata : gmap string pyval) (seen : list (nat * gmap string pyval))
    (m m' : documents_map) :
  grouped ids seen m ->
  group_step ids i metadata m = Returns m' ->
  grouped ids (seen ++ [(i, metadata)]) m'.
Proof.
  intros (Hnd & Hent & Hseen). unfold group_step.
  pose proof (eq_refl (group_key metadata)) as Hgk.
  unfold group_key at 2 in Hgk. cbn zeta in Hgk.
  set (doc_id := default (PStr "") (metadata !! "document_id")) in *.
  destruct (truth doc_id) eqn:Htruth; cbn [negb].
  2: { intros [= <-]. split; [done|]. split.
       - intros k d Hin. destruct (Hent k d Hin) as (H1 & H2 & H3 & H4 & H5).
         repeat split; try done.
         rewrite ids_under_app, H3. unfold ids_under at 2. cbn.
         rewrite Hgk. rewrite decide_False by done. by rewrite app_nil_r.
       - intros j md [Hin|Hin]%elem_of_app Ht; [by eapply Hseen|].
         apply list_elem_of_singleton in Hin as [= -> ->].
         fold doc_id in Ht. congruence. }
  destruct (hash_key doc_id) as [k|] eqn:Hk; [|discriminate].
  destruct (ids !! i) as [id|] eqn:Hid; [|discriminate].
  intros [= <-].
  set (new := {| document_id := doc_id;
                 file_path := default (PStr "") (metadata !! "file_path");
                 file_name := default (PStr "") (metadata !! "file_name");
                 file_type := default (PStr "") (metadata !! "file_type");
                 chunks_count := 0; chunk_ids := [] |}).
  set (m1 := if bool_decide (k ∈ map fst m) then m else m ++ [(k, new)]).
  assert (Hlast : forall k', ids_under ids k' [(i, metadata)]
                  = if decide (k' = k) then [id] else []).
  { intros k'. unfold ids_under. cbn. rewrite Hgk.
    destruct (decide (k' = k)) as [->|Hne].
    - rewrite decide_True by done. by rewrite Hid.
    - rewrite decide_False by congruence. done. }
  assert (Hm1 : NoDup (map fst m1)
                /\ k ∈ map fst m1
                /\ (forall k', k' ∈ map fst m -> k' ∈ map fst m1)
                /\ forall k' d, (k', d) ∈ m1 ->
                     hash_key (document_id d) = Some k'
                     /\ truth (document_id d) = true
                     /\ chunk_ids d = ids_under ids k' seen
                     /\ chunks_count d = len (chunk_ids d)
                     /\ (k' <> k -> chunk_ids d <> [])).
  { unfold m1. destruct (bool_decide (k ∈ map fst m)) eqn:Hin.
    - apply bool_decide_eq_true in Hin.
      split; [done|]. split; [done|]. split; [done|].
      intros k' d Hd. destruct (Hent k' d Hd) as (H1 & H2 & H3 & H4 & H5).
      done.
    - apply bool_decide_eq_false in Hin.
      split.
      { rewrite map_app. cbn. apply NoDup_app. split; [done|].
        split; [|apply NoDup_singleton].
        intros x Hx ->%list_elem_of_singleton. done. }
      split; [rewrite map_app; apply elem_of_app; right; by left|].
      split; [intros k' Hk'; rewrite map_app; apply elem_of_app; by left|].
      intros k' d [Hd|Hd]%elem_of_app.
      + destruct (Hent k' d Hd) as (H1 & H2 & H3 & H4 & H5). done.
      + apply list_elem_of_singleton in Hd as [= -> ->]. cbn.
        repeat split; try done.
        symmetry. apply ids_under_nil. intros j md Hj Hmd.
        apply Hin.
        assert (Ht : truth (default (PStr "") (md !! "document_id")) = true).
        { unfold group_key in Hmd. cbn zeta in Hmd.
          by destruct (truth (default (PStr "") (md !! "document_id"))). }
        destruct (Hseen j md Hj Ht) as (k' & Hk' & _ & Hkm). congruence. }
  destruct Hm1 as (Hnd1 & Hk1 & Hkeep & Hent1).
  split; [by rewrite !update_key_keys|]. split.
  - intros k' d'.
    intros (d1 & (d0 & Hd0 & ->)%elem_of_update_key & ->)%elem_of_update_key.
    destruct (Hent1 k' d0 Hd0) as (H1 & H2 & H3 & H4 & H5).
    rewrite ids_under_app, Hlast.
    destruct (decide (k' = k)) as [->|Hne]; cbn.
    + repeat split; try done.
      * by rewrite H3.
      * unfold len in *. rewrite length_app. cbn. lia.
      * by destruct (chunk_ids d0).
    + rewrite app_nil_r. repeat split; try done. by apply H5.
  - intros j md [Hin|Hin]%elem_of_app Ht.
    + destruct (Hseen j md Hin Ht) as (k' & Hk' & Hj & Hkm).
      exists k'. split; [done|]. split; [done|].
      rewrite !update_key_keys. by apply Hkeep.
    + apply list_elem_of_singleton in Hin as [= -> ->].
      exists k. split; [by rewrite Hgk|]. split; [by eexists|].
      by rewrite !update_key_keys.
Qed.

Lemma group_from_grouped (ids : list string)
    (metadatas : list (gmap string pyval)) :
  forall i seen m m',
    grouped ids seen m ->
    group_from ids i metadatas m = Returns m' ->
    grouped ids (seen ++ enumerate_from i metadatas) m'.
Proof.
  induction metadatas as [|md rest IH]; intros i seen m m' Hg;
    cbn [group_from enumerate_from].
  - intros [= <-]. by rewrite app_nil_r.
  - destruct (group_step ids i md m) as [m1| |] eqn:Hstep; try discriminate.
    intros Hrest.
    replace (seen ++ (i, md) :: enumerate_from (S i) rest)
      with ((seen ++ [(i, md)]) ++ enumerate_from (S i) rest)
      by (by rewrite <- app_assoc).
    eapply IH; [|exact Hrest]. by eapply group_step_grouped.
Qed.

Lemma elem_of_enumerate_from {A} (l : list A) :
  forall i j x, (j, x) ∈ enumerate_from i l <-> (i <= j)%nat /\ l !! (j - i)%nat = Some x.
Proof.
  induction l as [|y r IH]; intros i j x; cbn [enumerate_from].
  - split; [by intros ?%elem_of_nil|]. by intros [_ ?].
  - rewrite elem_of_cons, IH. split.
    + intros [[= -> ->]|[Hle Hx]].
      * split; [lia|]. by rewrite Nat.sub_diag.
      * split; [lia|]. by replace (j - i)%nat with (S (j - S i)) by lia.
    + intros [Hle Hx]. destruct (decide (j = i)) as [->|Hne].
      * left. rewrite Nat.sub_diag in Hx. cbn in Hx. congruence.
      * right. split; [lia|].
        by replace (j - i)%nat with (S (j - S i)) in Hx by lia.
Qed.

Section Groups.
Context {Store : Type}.
Variable coll_get : option Z -> list string -> Store -> result GetResult.

(** X20.  [get_unique_documents] groups the records of the collection by their
    [document_id].  The documents it returns have pairwise different
    identifiers.  Each holds a [document_id] that is true, the
    identifiers of exactly the records with that [document_id], in the
    order of the collection, and their number in [chunks_count], which is
    at least 1.  Every record whose [document_id] is there and true is
    counted in one of them. *)
Theorem get_unique_documents_groups (s : Store) (reply : GetResult)
    (docs : list DocumentInfo) :
  coll_get None ["metadatas"] s = Ok reply ->
  get_unique_documents coll_get s = Returns docs ->
  (g_ids reply = [] -> docs = [])
  /\ (g_ids reply <> [] ->
      NoDup (map (fun d => hash_key (document_id d)) docs)
      /\ (forall d, d ∈ docs ->
            truth (document_id d) = true
            /\ exists k,
                 hash_key (document_id d) = Some k
                 /\ chunk_ids d = group_ids (g_ids reply) (g_metadatas reply) k
                 /\ chunks_count d = len (chunk_ids d)
                 /\ 1 <= chunks_count d)
      /\ (forall i metadata,
            g_metadatas reply !! i = Some metadata ->
            truth (default (PStr "") (metadata !! "document_id")) = true ->
            exists id d,
              g_ids reply !! i = Some id
              /\ d ∈ docs
              /\ hash_key (document_id d)
                 = hash_key (default (PStr "") (metadata !! "document_id"))
              /\ id ∈ chunk_ids d)).
Proof.
  intros Hget. unfold get_unique_documents. rewrite Hget.
  destruct (g_ids reply) as [|id0 ids0] eqn:Hids.
  { intros [= <-]. by split. }
  rewrite <- Hids.
  destruct (group_from (g_ids reply) 0 (g_metadatas reply) []) as [m| |]
    eqn:Hrun; try discriminate.
  intros [= <-]. split; [by rewrite Hids|]. intros _.
  assert (H0 : grouped (g_ids reply) [] []).
  { split; [constructor|]. split; [by intros k d ?%elem_of_nil|].
    by intros i md ?%elem_of_nil. }
  destruct (group_from_grouped _ _ _ _ _ _ H0 Hrun) as (Hnd & Hent & Hseen).
  cbn [app] in *.
  split; [|split].
  - rewrite map_map.
    assert (Heq : map (fun x => hash_key (document_id (snd x))) m
                  = map Some (map fst m)).
    { rewrite map_map. apply map_ext_in. intros [k d] Hin%list_elem_of_In.
      cbn. by destruct (Hent k d Hin). }
    rewrite Heq. apply (NoDup_fmap_2 Some). exact Hnd.
  - intros d ([k d'] & -> & Hin)%list_elem_of_fmap. cbn.
    destruct (Hent k d' Hin) as (H1 & H2 & H3 & H4 & H5).
    split; [done|]. exists k. repeat split; try done.
    rewrite H4. unfold len. destruct (chunk_ids d'); [done|]. cbn. lia.
  - intros i md Hmd Htruth.
    assert (Hin : (i, md) ∈ enumerate_from 0 (g_metadatas reply)).
    { apply elem_of_enumerate_from. split; [lia|]. by rewrite Nat.sub_0_r. }
    destruct (Hseen i md Hin Htruth) as (k & Hgk & [id Hid] & Hkm).
    assert (Hhash : hash_key (default (PStr "") (md !! "document_id")) = Some k).
    { unfold group_key in Hgk. cbn zeta in Hgk. by rewrite Htruth in Hgk. }
    apply list_elem_of_fmap in Hkm as ([k' d] & Hk' & Hd). cbn in Hk'.
    subst k'. destruct (Hent k d Hd) as (H1 & H2 & H3 & H4 & H5).
    exists id, d. split; [done|].
    split; [apply list_elem_of_fmap; by exists (k, d)|].
    split; [congruence|].
    rewrite H3. unfold ids_under. apply list_elem_of_omap.
    exists (i, md). split; [done|]. cbn. by rewrite decide_True.
Qed.

End Groups.

(** The store of three records: a page of one record after the first, and
    the records of document [d1]. *)
Lemma get_all_documents_page_witness :
  exists r,
    ListingSamples.get_all_documents (Some 1) (Some 1) None Samples.three_rows
    = Ok r
    /\ g_ids r = ["d1_chunk_1"]
    /\ (length (g_ids r) <= Z.to_nat 1)%nat
    /\ ListingSamples.get_all_documents (Some 0) None None Samples.three_rows
       = ListingSamples.get_all_documents None None None Samples.three_rows.
Proof.
  unfold ListingSamples.get_all_documents.
  eexists.
  assert (Hrun : Listing.get_all_documents Samples.collection
                   ListingSamples.mem_get (Some 1) (Some 1) None
                   Samples.three_rows = Ok _)
    by (vm_compute; reflexivity).
  split; [exact Hrun|]. split; [vm_compute; reflexivity|].
  destruct (get_all_documents_page Samples.collection ListingSamples.mem_get
              (Some 1) (Some 1) None Samples.three_rows) as (_ & _ & Hpage).
  split; [exact (proj1 (Hpage _ Hrun) 1 eq_refl ltac:(lia))|].
  exact (proj1 (get_all_documents_page Samples.collection
                  ListingSamples.mem_get None None None Samples.three_rows)).
Defined.

(** The store of three records holds two documents, of two chunks and of
    one. *)
Lemma get_unique_documents_groups_witness :
  exists reply docs,
    ListingSamples.mem_get None ["metadatas"] Samples.three_rows = Ok reply
    /\ ListingSamples.get_unique_documents Samples.three_rows = Returns docs
    /\ map document_id docs = [PStr "d1"; PStr "d2"]
    /\ map chunks_count docs = [2; 1]
    /\ map chunk_ids docs = [["d1_chunk_0"; "d1_chunk_1"]; ["d2_chunk_0"]]
    /\ NoDup (map (fun d => hash_key (document_id d)) docs).
Proof.
  unfold ListingSamples.get_unique_documents.
  eexists _, _.
  assert (Hget : ListingSamples.mem_get None ["metadatas"] Samples.three_rows
                 = Ok _) by reflexivity.
  assert (Hrun : get_unique_documents ListingSamples.mem_get Samples.three_rows
                 = Returns _) by (vm_compute; reflexivity).
  split; [exact Hget|]. split; [exact Hrun|].
  split; [vm_compute; reflexivity|]. split; [vm_compute; reflexivity|].
  split; [vm_compute; reflexivity|].
  refine (proj1 (proj2 (get_unique_documents_groups ListingSamples.mem_get
                          Samples.three_rows _ _ Hget Hrun) _)).
  vm_compute. discriminate.
Defined.

End ListingFacts.

(** ** Search: how many results, and what scores *)

Module SearchMore.
Import Py Props DeleteFacts SearchFacts.

Section Search.
Context {Store Emb Num : Type}.
Variables zero one thousand : Num.
Variables sub mul : Num -> Num -> Num.
Variable ltb : Num -> Num -> bool.
Variable collection : Chroma.Collection Store Emb Num.
Variable encode_single : string -> result Emb.

Local Abbreviation score_of := (Search.score_of zero one sub ltb).
Local Abbreviation search :=
  (Search.search zero one thousand sub mul ltb collection encode_single).

(** [max(0.0, x)] is not below [0.0] when [<] is irreflexive and
    asymmetric. *)
Lemma score_of_nonneg (d : Num) :
  (forall a, ltb a a = false) ->
  (forall a b, ltb a b = true -> ltb b a = false) ->
  ltb (score_of d) zero = false.
Proof.
  intros Hirr Hasym. unfold Search.score_of, Search.py_max.
  destruct (ltb zero (sub one d)) eqn:H; [by apply Hasym|apply Hirr].
Qed.

Lemma collect_count (min_score : option Num) (documents : list (list N))
    (metadatas : list (gmap string pyval)) (distances : list Num) :
  forall indices acc res,
    Search.collect zero one sub ltb min_score documents metadatas distances
      indices acc = Ok res ->
    (length res <= length acc + length indices)%nat
    /\ (min_score = None ->
        length res = (length acc + length indices)%nat)
    /\ ((forall a, ltb a a = false) ->
        (forall a b, ltb a b = true -> ltb b a = false) ->
        Forall (fun r => ltb (Search.score r) zero = false) acc ->
        Forall (fun r => ltb (Search.score r) zero = false) res).
Proof.
  induction indices as [|i rest IH]; intros acc res; cbn [Search.collect].
  - intros [= <-]. cbn. repeat split; [lia|intros; lia|done].
  - destruct (distances !! i) as [d|]; [|discriminate].
    destruct (Search.below ltb min_score (score_of d)) eqn:Hb.
    + intros Hrest. destruct (IH _ _ Hrest) as (H1 & H2 & H3).
      cbn [length]. split; [lia|]. split; [|exact H3].
      intros ->. discriminate.
    + destruct (metadatas !! i) as [md|]; [|discriminate].
      destruct (documents !! i) as [doc|]; [|discriminate].
      intros Hrest. destruct (IH _ _ Hrest) as (H1 & H2 & H3).
      rewrite length_app in H1, H2. cbn [length] in *.
      split; [lia|]. split; [intros Hn; specialize (H2 Hn); lia|].
      intros Hirr Hasym Hacc. apply H3; try done.
      apply Forall_app. split; [done|]. constructor; [|done].
      cbn. by apply score_of_nonneg.
Qed.

(** X21.  [search] never changes the store.  An error of the embedding model
    is passed on.  When [search] returns, it holds at most one result
    for each identifier of the first list of the reply, and exactly one
    when no [min_score] is given; [total_results] is their number; and no
    score is below [0.0], whatever the distances are, when [<] is
    irreflexive and asymmetric. *)
Theorem search_result_count (q : Search.SearchQuery Num)
    (start_time end_time : Num) (s : Store) :
  let out := search q start_time end_time s in
  snd out = s
  /\ (forall e, encode_single (Search.query q) = Raise e -> fst out = Raise e)
  /\ (forall resp,
        fst out = Ok resp ->
        exists emb reply,
          encode_single (Search.query q) = Ok emb
          /\ Chroma.coll_query collection (Chroma.QueryEmbeddings [emb])
               (Search.top_k q)
               (if Splitter.truthy (Search.filter_metadata q)
                then Search.filter_metadata q else None)
               ["metadatas"; "documents"; "distances"] s = Ok reply
          /\ (length (Search.results resp) <= length (reply_ids reply))%nat
          /\ (Search.min_score q = None ->
              length (Search.results resp) = length (reply_ids reply))
          /\ Search.total_results resp = len (Search.results resp)
          /\ Search.r_query resp = Search.query q
          /\ ((forall a, ltb a a = false) ->
              (forall a b, ltb a b = true -> ltb b a = false) ->
              Forall (fun r => ltb (Search.score r) zero = false)
                (Search.results resp))).
Proof.
  cbn zeta. unfold Search.search, Chroma.search. cbn [default]. run_monad.
  destruct (encode_single (Search.query q)) as [emb|e0].
  2: { cbn. split; [done|]. split; [by intros e [= <-]|done]. }
  destruct (Chroma.coll_query collection _ _ _ _ s) as [reply|e1] eqn:Hq.
  2: { cbn. split; [done|]. split; [done|done]. }
  destruct (Search.process_results zero one sub ltb (Search.min_score q) reply)
    as [found|e2] eqn:Hp.
  2: { cbn. split; [done|]. split; [done|done]. }
  cbn. split; [done|]. split; [done|].
  intros resp [= <-]. exists emb, reply.
  cbn [Search.results Search.total_results Search.r_query].
  split; [done|]. split; [exact Hq|].
  assert (Hcount : (length found <= length (reply_ids reply))%nat
                   /\ (Search.min_score q = None ->
                       length found = length (reply_ids reply))
                   /\ ((forall a, ltb a a = false) ->
                       (forall a b, ltb a b = true -> ltb b a = false) ->
                       Forall (fun r => ltb (Search.score r) zero = false)
                         found)).
  { unfold Search.process_results, reply_ids in *.
    destruct (Chroma.ids reply) as [[|ids ?]|];
      [injection Hp as <-; cbn; repeat split; done| |
       injection Hp as <-; cbn; repeat split; done].
    destruct (Chroma.documents reply) as [|documents ?]; [discriminate|].
    destruct (Chroma.metadatas reply) as [|metadatas ?]; [discriminate|].
    destruct (Chroma.distances reply) as [|distances ?]; [discriminate|].
    apply collect_count in Hp as (H1 & H2 & H3).
    rewrite length_seq in H1, H2. cbn [length] in *.
    split; [lia|]. split; [intros Hn; by rewrite H2|].
    intros Hirr Hasym. by apply H3. }
  destruct Hcount as (H1 & H2 & H3). repeat split; done.
Qed.

End Search.

(** The theorem on the ranked store, with and without a threshold. *)
Lemma search_result_count_witness :
  let all :=
    {| Search.query := "words"; Search.top_k := 10;
       Search.min_score := None; Search.filter_metadata := None |} in
  snd (Samples.search Samples.sample_query 0 3 Samples.ranked_rows)
  = Samples.ranked_rows
  /\ exists resp resp',
       fst (Samples.search Samples.sample_query 0 3 Samples.ranked_rows)
       = Ok resp
       /\ fst (Samples.search all 0 3 Samples.ranked_rows) = Ok resp'
       /\ length (Search.results resp) = 2%nat
       /\ length (Search.results resp') = 3%nat
       /\ Forall (fun r => Z.ltb (Search.score r) 0 = false)
            (Search.results resp').
Proof.
  intros all. unfold Samples.search.
  pose proof (search_result_count 0 10 1000 Z.sub Z.mul Z.ltb
                Samples.collection Samples.encode_single) as Hthm.
  split; [exact (proj1 (Hthm Samples.sample_query 0 3 Samples.ranked_rows))|].
  eexists _, _.
  assert (Hrun : fst (Search.search 0 10 1000 Z.sub Z.mul Z.ltb
                        Samples.collection Samples.encode_single all 0 3
                        Samples.ranked_rows) = Ok _)
    by (vm_compute; reflexivity).
  split; [vm_compute; reflexivity|]. split; [exact Hrun|].
  split; [vm_compute; reflexivity|]. split; [vm_compute; reflexivity|].
  destruct (proj2 (proj2 (Hthm all 0 3 Samples.ranked_rows)) _ Hrun)
    as (emb & reply & _ & _ & _ & _ & _ & _ & Hpos).
  apply Hpos.
  - intros a. apply Z.ltb_irrefl.
  - intros a b Hab. apply Z.ltb_lt in Hab. apply Z.ltb_ge. lia.
Defined.

End SearchMore.

(** ** The routes: which status a caller gets *)

Module RouteFacts.
Import Py Splitter Props DeleteFacts Routes.

Section Api.
Context {Store Emb Num : Type}.
Variable initialized : bool.
Variable collection : Chroma.Collection Store Emb Num.
Variable embedding_function : option (list N -> Emb).
Variable fresh_ids : nat -> list string.
Variable path_exists : string -> bool.
Variable process_document : string -> option Document.Document.
Variable encode : list (list N) -> result (list Emb).
Variable tail : Z -> Z.
Variable text_splitter : TextSplitter.
Variable str : thrown -> string.

Local Abbreviation index_route :=
  (Routes.index_document initialized collection embedding_function fresh_ids
     path_exists process_document encode tail text_splitter str).
Local Abbreviation index_service :=
  (Indexing.index_document collection embedding_function fresh_ids
     path_exists process_document encode tail text_splitter).
Local Abbreviation delete_route :=
  (Routes.delete_document initialized collection str).

(** X22.  [DELETE /delete] answers 404 for every [ValueError] of the
    service, with the error's text as detail: when no record matches, and
    also when the request names neither a [document_id] nor a [file_path];
    every other exception of the service gives 500.  Its own 503 for a
    service that is not set is caught by its [except Exception] clause and
    leaves as 500, so the route never answers 503.  It answers 404 only
    for a [ValueError], and with a response only when the service
    returned. *)
Theorem delete_route_status (document_id file_path : option string)
    (s : Store) :
  let out := delete_route document_id file_path s in
  (initialized = false ->
   out = (HTTPException 500
            (str (Http 503 "Indexing service not initialized")), s))
  /\ (initialized = true ->
      Indexing.given document_id = false ->
      Indexing.given file_path = false ->
      out = (HTTPException 404
               (str (Service
                       (ValueError "Must specify document_id or file_path"))),
             s))
  /\ (initialized = true ->
      forall msg s',
        Indexing.delete_document collection document_id file_path s
        = (Raise (ValueError msg), s') ->
        out = (HTTPException 404 (str (Service (ValueError msg))), s'))
  /\ (initialized = true ->
      forall e s',
        Indexing.delete_document collection document_id file_path s
        = (Raise e, s') ->
        is_ValueError e = false ->
        out = (HTTPException 500 (str (Service e)), s'))
  /\ (forall status_code detail,
        fst out = HTTPException status_code detail ->
        status_code = 404 \/ status_code = 500)
  /\ (forall detail,
        fst out = HTTPException 404 detail ->
        initialized = true
        /\ exists msg,
             Indexing.delete_document collection document_id file_path s
             = (Raise (ValueError msg), snd out)
             /\ detail = str (Service (ValueError msg)))
  /\ (forall response,
        fst out = Respond response ->
        initialized = true
        /\ exists result,
             Indexing.delete_document collection document_id file_path s
             = (Ok result, snd out)
             /\ d_success response = Indexing.d_success result
             /\ deleted_count response = Indexing.deleted_count result
             /\ d_message response = Indexing.d_message result).
Proof.
  cbn zeta. unfold Routes.delete_document, delete_attempt.
  destruct initialized; cbn [negb].
  2: { cbn. split; [done|]. split; [done|]. split; [done|]. split; [done|].
       split; [intros ? ? [= <- _]; by right|].
       split; [by intros ? [=]|done]. }
  split; [done|]. split.
  { intros _ H1 H2. unfold Indexing.delete_document. rewrite H1, H2. done. }
  destruct (Indexing.delete_document collection document_id file_path s)
    as [[result|e] s'] eqn:Hrun; cbn.
  - split; [done|]. split; [done|]. split; [done|]. split; [done|].
    intros response [= <-]. split; [done|]. by exists result.
  - split; [by intros _ msg s2 [= -> ->]|].
    split; [intros _ e2 s2 [= <- <-] He; by destruct e|].
    split; [destruct e; intros ? ? [= <- _]; by (left + right)|].
    split; [|by destruct e].
    intros detail Hd. split; [done|].
    destruct e; try discriminate. injection Hd as <-. by exists msg.
Qed.

(** X23.  [POST /index] raises its own 404 for a path that does not exist, and
    its own 503 for a service that is not set, inside the [try] block
    whose [except Exception] clause catches both: the caller gets 500 in
    either case.  The route answers 404 only when the service, called
    for a path that does exist, raised [FileNotFoundError]; it never
    answers 503. *)
Theorem index_route_status (fuel : nat) (uuid file_path : string)
    (overwrite : bool) (s : Store) :
  (initialized = false ->
   index_route fuel uuid file_path overwrite s
   = Some (HTTPException 500
             (str (Http 503 "Indexing service not initialized")), s))
  /\ (initialized = true -> path_exists file_path = false ->
      index_route fuel uuid file_path overwrite s
      = Some (HTTPException 500
                (str (Http 404 ("File not found: " +:+ file_path))), s))
  /\ (forall out status_code detail,
        index_route fuel uuid file_path overwrite s = Some out ->
        fst out = HTTPException status_code detail ->
        (status_code = 404 \/ status_code = 500)
        /\ (status_code = 404 ->
            path_exists file_path = true
            /\ exists msg,
                 index_service fuel uuid file_path overwrite s
                 = Some (Raise (FileNotFoundError msg), snd out)))
  /\ (forall out response,
        index_route fuel uuid file_path overwrite s = Some out ->
        fst out = Respond response ->
        exists result,
          index_service fuel uuid file_path overwrite s
          = Some (Ok result, snd out)
          /\ document_id response = Indexing.document_id result
          /\ chunks_count response = Indexing.chunks_count result).
Proof.
  unfold Routes.index_document, index_attempt.
  destruct initialized; cbn [negb].
  2: { split; [done|]. split; [done|]. split.
       - intros out ? ? [= <-] [= <- _]. split; [by right|lia].
       - by intros out ? [= <-]. }
  split; [done|].
  destruct (path_exists file_path) eqn:Hp; cbn [negb].
  2: { split; [done|]. split.
       - intros out ? ? [= <-] [= <- _]. split; [by right|lia].
       - by intros out ? [= <-]. }
  split; [done|].
  destruct (index_service fuel uuid file_path overwrite s)
    as [[[result|e] s']|] eqn:Hrun.
  - split; [by intros out ? ? [= <-]|].
    intros out response [= <-] [= <-]. by exists result.
  - split; [|by intros out ? [= <-]; destruct e].
    intros out status_code detail [= <-] Hout. cbn [fst snd] in *.
    destruct e; cbn in Hout; injection Hout as <- _;
      (split; [by (left + right)|]); try (intros; lia).
    intros _. split; [done|]. by exists msg.
  - by split.
Qed.

End Api.

(** A request to delete that names nothing, a request to delete a document
    that is not in the store, and a request to index a file that is not
    there. *)
Lemma delete_route_status_witness :
  RouteSamples.delete_document None (Some "") Samples.three_rows
  = (HTTPException 404 "Must specify document_id or file_path",
     Samples.three_rows)
  /\ RouteSamples.delete_document (Some "zz") None Samples.three_rows
     = (HTTPException 404 "Document with ID zz not found in index",
        Samples.three_rows).
Proof.
  split.
  - exact (proj1 (proj2 (delete_route_status true Samples.collection
                           RouteSamples.str None (Some "") Samples.three_rows))
             eq_refl eq_refl eq_refl).
  - refine (proj1 (proj2 (proj2
              (delete_route_status true Samples.collection RouteSamples.str
                 (Some "zz") None Samples.three_rows)))
              eq_refl "Document with ID zz not found in index"
              Samples.three_rows _).
    vm_compute. reflexivity.
Defined.

Lemma index_route_status_witness :
  RouteSamples.index_document 21 "doc-1" "gone.txt" false Samples.empty_store
  = Some (HTTPException 500 "404: File not found: gone.txt",
          Samples.empty_store).
Proof.
  exact (proj1 (proj2 (index_route_status true Samples.collection None
                         Samples.fresh_ids Samples.path_exists
                         Samples.process_document Samples.encode fifth
                         small_splitter RouteSamples.str 21 "doc-1" "gone.txt"
                         false Samples.empty_store))
           eq_refl eq_refl).
Defined.

End RouteFacts.

(** ** The listing route: what a page reports *)

Module ListingRouteFacts.
Import Py PyFacts ChunkFacts Listing ListingFacts Routes ListingRoutes.


Section Api.
Context {Store Emb Num : Type}.
Variable initialized : bool.
Variable collection : Chroma.Collection Store Emb Num.
Variable coll_get : option Z -> list string -> Store -> result GetResult.
Variable collection_name : string.
Variable persist_directory : string.
Variable str : thrown -> string.

Local Abbreviation route :=
  (ListingRoutes.get_all_documents initialized collection coll_get
     collection_name persist_directory str).


End Api.


End ListingRouteFacts.
